(** * wrf_tools: the configuration resolver, the retrieval loop and the
      annotation store, embedded from [wrf_client.py] and [annotation.py]. *)

From Stdlib Require Import ZArith String Ascii List DecimalString DecimalZ DecimalPos.
From stdpp Require Import base gmap strings list sorting.

Open Scope Z_scope.

(** ** Python values and control effects *)

(** Exceptions the modelled code can raise. *)
Inductive exn : Type :=
  | ValueError (msg : string)
  | IndexError (msg : string)
  | HTTPStatusError (url : string)
  | TransportError (url : string)
  | FileExistsError (path : list string)
  | NotADirectoryError (path : list string)
  | IsADirectoryError (path : list string)
  | FileNotFoundError (path : list string).

Inductive outcome (A : Type) : Type :=
  | Returns (a : A)
  | Raises (e : exn).
Arguments Returns {A} a.
Arguments Raises {A} e.

(** A method body: it reads and writes the state [St] and either returns or
    raises; what was written before a raise stays written. *)
Definition M (St A : Type) : Type := St → outcome A * St.

Definition ret {St A} (a : A) : M St A := λ s, (Returns a, s).
Definition bind {St A B} (m : M St A) (k : A → M St B) : M St B :=
  λ s, match m s with
       | (Returns a, s') => k a s'
       | (Raises e, s') => (Raises e, s')
       end.
Definition raise {St A} (e : exn) : M St A := λ s, (Raises e, s).
Definition get_state {St} : M St St := λ s, (Returns s, s).
Definition put_state {St} (s' : St) : M St unit := λ _, (Returns tt, s').
Definition gets {St A} (f : St → A) : M St A := λ s, (Returns (f s), s).
Definition modify {St} (f : St → St) : M St unit := λ s, (Returns tt, f s).
Definition when {St} (b : bool) (m : M St unit) : M St unit :=
  if b then m else ret tt.

Declare Scope py_scope.
Delimit Scope py_scope with py.
Notation "x <- m ;; k" := (bind m (λ x, k))
  (at level 100, m at next level, right associativity) : py_scope.
Notation "m ;;; k" := (bind m (λ _, k))
  (at level 100, right associativity) : py_scope.
Open Scope py_scope.

(** [for x in l: body x], stopping at the first raise. *)
Fixpoint for_each {St A} (l : list A) (body : A → M St unit) : M St unit :=
  match l with
  | [] => ret tt
  | x :: l' => body x ;;; for_each l' body
  end.

(** Run a method on a component of a larger state. *)
Definition zoom {St T A} (proj : St → T) (upd : T → St → St)
    (m : M T A) : M St A :=
  λ s, let '(r, t') := m (proj s) in (r, upd t' s).

Definition result {St A} (m : M St A) (s : St) : outcome A := (m s).1.
Definition final {St A} (m : M St A) (s : St) : St := (m s).2.

(** [str(z)] for an [int]. *)
Definition str_of_int (z : Z) : string := NilZero.string_of_int (Z.to_int z).

(** [int(s)], where it is defined. *)
Definition int_of_str (s : string) : option Z :=
  Z.of_int <$> NilZero.int_of_string s.

(** The format specification [{z:02d}]: sign-aware zero padding to a minimum
    width of two characters. A negative number already has two. *)
Definition fmt_02d (z : Z) : string :=
  if decide (0 ≤ z < 10) then "0" +:+ str_of_int z else str_of_int z.

(** A YAML scalar, as [yaml.safe_load] yields it; a float is kept as the
    pair (mantissa, exponent) since the code never computes with one. *)
Inductive pyval : Type :=
  | PyNone
  | PyBool (b : bool)
  | PyInt (z : Z)
  | PyFloat (m e : Z)
  | PyStr (s : string).

Global Instance pyval_eq_dec : EqDecision pyval.
Proof. solve_decision. Defined.

(** ** Insertion-ordered dictionaries

    A Python [dict] keeps its keys in insertion order; an assignment to a key
    that is present keeps the key's place, an assignment to a new key puts it
    last. The store is written out and flattened in that order, so it is an
    association list here. *)
Module OrderedDict.
Section ops.
Context {K : Type} `{EqDecision K} {V : Type}.

Definition keys (d : list (K * V)) : list K := d.*1.

(** [d.get(k)] *)
Fixpoint get (k : K) (d : list (K * V)) : option V :=
  match d with
  | [] => None
  | (k', v) :: d' => if decide (k = k') then Some v else get k d'
  end.

(** [k in d] *)
Definition mem (k : K) (d : list (K * V)) : bool :=
  match get k d with Some _ => true | None => false end.

(** [d[k] = v] *)
Fixpoint set (k : K) (v : V) (d : list (K * V)) : list (K * V) :=
  match d with
  | [] => [(k, v)]
  | (k', v') :: d' =>
      if decide (k = k') then (k', v) :: d' else (k', v') :: set k v d'
  end.

(** [del d[k]], for a key that is present. *)
Fixpoint del (k : K) (d : list (K * V)) : list (K * V) :=
  match d with
  | [] => []
  | (k', v') :: d' =>
      if decide (k = k') then d' else (k', v') :: del k d'
  end.

(** [{**d, **e}]: the items of [e] assigned in turn onto [d]. *)
Definition update (d e : list (K * V)) : list (K * V) :=
  foldl (λ acc kv, set kv.1 kv.2 acc) d e.

(** What every Python dict satisfies: no key twice. *)
Definition wf (d : list (K * V)) : Prop := NoDup (keys d).
End ops.
End OrderedDict.

Module OD := OrderedDict.

(** ** wrf_client.py: configuration *)

Record CodeConfig : Type := { name : string; code : string }.

Record ForecastScheduleConfig : Type :=
  { schedule_name : string; hours : list Z }.

Record LayerConfig : Type :=
  { domain : string; variable : string;
    forecast_schedule : string; maptype : string }.

Record WrfConfig : Type :=
  { domain_codes : list CodeConfig;
    maptype_codes : list CodeConfig;
    variable_codes : list CodeConfig;
    forecast_schedules : list ForecastScheduleConfig;
    layers : list LayerConfig;
    _domains : gmap string string;
    _maptypes : gmap string string;
    _variables : gmap string string;
    _schedules : gmap string (list Z) }.

(** The attrs-generated constructor: the four caches are not arguments and
    start as empty dicts. *)
Definition new_WrfConfig (d m v : list CodeConfig)
    (f : list ForecastScheduleConfig) (l : list LayerConfig) : WrfConfig :=
  {| domain_codes := d; maptype_codes := m; variable_codes := v;
     forecast_schedules := f; layers := l;
     _domains := ∅; _maptypes := ∅; _variables := ∅; _schedules := ∅ |}.

Definition set_domains (t : gmap string string) (c : WrfConfig) : WrfConfig :=
  {| domain_codes := domain_codes c; maptype_codes := maptype_codes c;
     variable_codes := variable_codes c;
     forecast_schedules := forecast_schedules c; layers := layers c;
     _domains := t; _maptypes := _maptypes c; _variables := _variables c;
     _schedules := _schedules c |}.
Definition set_maptypes (t : gmap string string) (c : WrfConfig) : WrfConfig :=
  {| domain_codes := domain_codes c; maptype_codes := maptype_codes c;
     variable_codes := variable_codes c;
     forecast_schedules := forecast_schedules c; layers := layers c;
     _domains := _domains c; _maptypes := t; _variables := _variables c;
     _schedules := _schedules c |}.
Definition set_variables (t : gmap string string) (c : WrfConfig) : WrfConfig :=
  {| domain_codes := domain_codes c; maptype_codes := maptype_codes c;
     variable_codes := variable_codes c;
     forecast_schedules := forecast_schedules c; layers := layers c;
     _domains := _domains c; _maptypes := _maptypes c; _variables := t;
     _schedules := _schedules c |}.
Definition set_schedules (t : gmap string (list Z)) (c : WrfConfig) : WrfConfig :=
  {| domain_codes := domain_codes c; maptype_codes := maptype_codes c;
     variable_codes := variable_codes c;
     forecast_schedules := forecast_schedules c; layers := layers c;
     _domains := _domains c; _maptypes := _maptypes c;
     _variables := _variables c; _schedules := t |}.

(** A dict comprehension [{key(x): val(x) for x in l}]: the items are
    assigned from left to right, so a later one replaces an earlier one with
    the same key. *)
Definition dict_comp {A V} (key : A → string) (val : A → V) (l : list A)
    : gmap string V :=
  foldl (λ acc x, <[key x := val x]> acc) ∅ l.

(** [not d] for a dict [d] *)
Definition is_empty {V} (d : gmap string V) : bool :=
  bool_decide (dom d = ∅).

(** The lookup shared by the four getters, after the cache is filled:
    [code = cache.get(name)], then raise if it is [None]. *)
Definition lookup_or_raise {St V} (cache : gmap string V) (key : string)
    : M St V :=
  match cache !! key with
  | None => raise (ValueError (key +:+ " was not found"))
  | Some code => ret code
  end.

Definition get_domain_code (domain_name : string) : M WrfConfig string :=
  self <- get_state ;;
  when (is_empty (_domains self))
    (modify (set_domains (dict_comp name code (domain_codes self)))) ;;;
  self <- get_state ;;
  lookup_or_raise (_domains self) domain_name.

Definition get_maptype_code (maptype_name : string) : M WrfConfig string :=
  self <- get_state ;;
  when (is_empty (_maptypes self))
    (modify (set_maptypes (dict_comp name code (maptype_codes self)))) ;;;
  self <- get_state ;;
  lookup_or_raise (_maptypes self) maptype_name.

Definition get_variable_code (variable_name : string) : M WrfConfig string :=
  self <- get_state ;;
  when (is_empty (_variables self))
    (modify (set_variables (dict_comp name code (variable_codes self)))) ;;;
  self <- get_state ;;
  lookup_or_raise (_variables self) variable_name.

Definition get_forecast_hours (schedule_name' : string)
    : M WrfConfig (list Z) :=
  self <- get_state ;;
  when (is_empty (_schedules self))
    (modify (set_schedules
               (dict_comp schedule_name hours (forecast_schedules self)))) ;;;
  self <- get_state ;;
  lookup_or_raise (_schedules self) schedule_name'.

Definition base_url : string :=
  "https://a.atmos.washington.edu/wrfrt/data/timeindep".

(** [maptype = None] is the omitted argument. *)
Definition build_url (domain' variable' : string) (hour : Z)
    (maptype' : option string) : M WrfConfig string :=
  domain_code <- get_domain_code domain' ;;
  maptype_code <- match maptype' with
                  | Some m => get_maptype_code m
                  | None => ret ""
                  end ;;
  variable_code <- get_variable_code variable' ;;
  ret (base_url +:+ "/images_" +:+ domain_code +:+ "/" +:+ maptype_code
         +:+ variable_code +:+ "." +:+ fmt_02d hour +:+ ".0000.gif").

(** ** wrf_client.py: retrieval *)

(** A path is the tuple of its parts, as [PurePosixPath.parts] gives them:
    the root, for an absolute path, is the first part. *)
Definition Path : Type := list string.

(** [s.split("/")] *)
Fixpoint split_sep (s : string) : list string :=
  match s with
  | EmptyString => [EmptyString]
  | String c s' =>
      if Ascii.eqb c "/" then EmptyString :: split_sep s'
      else match split_sep s' with
           | seg :: segs => String c seg :: segs
           | [] => [String c EmptyString]
           end
  end.

(** The parts a string stands for when it is parsed as a path: its
    segments, the empty ones and [.] left out. *)
Definition parts_of (s : string) : list string :=
  filter (λ x, x ≠ EmptyString ∧ x ≠ "."%string) (split_sep s).

(** The root of a string: [/], or [//] for exactly two leading slashes;
    none for a relative one. *)
Definition root_of (s : string) : option string :=
  if String.prefix "//" s && negb (String.prefix "///" s) then Some "//"%string
  else if String.prefix "/" s then Some "/"%string
  else None.

(** [p / s]: the string is parsed; an absolute one replaces [p], a relative
    one adds its parts to those of [p]. A part [..] is kept as it is. *)
Definition path_div (p : Path) (s : string) : Path :=
  match root_of s with
  | Some r => r :: parts_of s
  | None => p ++ parts_of s
  end.
Declare Scope path_scope.
Delimit Scope path_scope with path.
Infix "/" := path_div : path_scope.

(** [p.parent]: the path without its last part; a root is its own parent. *)
Definition parent (p : Path) : Path :=
  match p with
  | [r] => if bool_decide (r = "/"%string ∨ r = "//"%string) then p else []
  | _ => removelast p
  end.

(** The file system is a map from paths to what is there, without links.
    The map does not follow a part [..] to the directory above, as the
    operating system does: the statements that depend on which entry a path
    reaches take the path to have no such part. *)
Inductive node : Type :=
  | File (data : list Byte.byte)
  | Directory.

Record Response : Type := { is_success : bool; content : list Byte.byte }.

(** What [download_layer] runs against: the configuration object, the local
    file system, the remote service (what a GET of each address answers, or
    the transport error it raises) and the requests sent so far. *)
Record Env : Type :=
  { config : WrfConfig;
    fs : gmap Path node;
    remote : string → outcome Response;
    requests : list string }.

Definition set_config (c : WrfConfig) (e : Env) : Env :=
  {| config := c; fs := fs e; remote := remote e; requests := requests e |}.
Definition set_fs (f : gmap Path node) (e : Env) : Env :=
  {| config := config e; fs := f; remote := remote e; requests := requests e |}.
Definition set_requests (r : list string) (e : Env) : Env :=
  {| config := config e; fs := fs e; remote := remote e; requests := r |}.

Definition on_config {A} (m : M WrfConfig A) : M Env A :=
  zoom config set_config m.

(** [p.exists()] *)
Definition path_exists (p : Path) : M Env bool :=
  gets (λ e, bool_decide (is_Some (fs e !! p))).

(** [full.mkdir(exist_ok=True, parents=True)]: every missing directory on
    the way is created. A file where [full] itself has to be raises
    [FileExistsError]; a file in the place of a directory above it makes
    [os.mkdir] fail with [NotADirectoryError] for the path it was asked to
    make, [full]. [pre] is the part of the path already walked. *)
Fixpoint mkdir_walk (full pre rest : Path) : M Env unit :=
  match rest with
  | [] => ret tt
  | s :: rest' =>
      let q := pre ++ [s] in
      e <- get_state ;;
      match fs e !! q with
      | Some Directory => mkdir_walk full q rest'
      | Some (File _) =>
          raise (match rest' with
                 | [] => FileExistsError full
                 | _ => NotADirectoryError full
                 end)
      | None =>
          modify (set_fs (<[q := Directory]> (fs e))) ;;;
          mkdir_walk full q rest'
      end
  end.
Definition mkdir_parents (p : Path) : M Env unit := mkdir_walk p [] p.

(** [self._client.get(url)] *)
Definition client_get (url : string) : M Env Response :=
  e <- get_state ;;
  put_state (set_requests (requests e ++ [url]) e) ;;;
  match remote e url with
  | Returns r => ret r
  | Raises x => raise x
  end.

(** [r.raise_for_status()] *)
Definition raise_for_status (url : string) (r : Response) : M Env unit :=
  if is_success r then ret tt else raise (HTTPStatusError url).

(** [p.write_bytes(data)] *)
Definition write_bytes (p : Path) (data : list Byte.byte) : M Env unit :=
  e <- get_state ;;
  match fs e !! p with
  | Some Directory => raise (IsADirectoryError p)
  | _ =>
      match parent p, fs e !! parent p with
      | [], _ | _, Some Directory =>
          put_state (set_fs (<[p := File data]> (fs e)) e)
      | _, Some (File _) => raise (NotADirectoryError p)
      | _, None => raise (FileNotFoundError p)
      end
  end.

Definition target_path (output_path : Path) (layer : LayerConfig)
    (fx_hour : Z) : Path :=
  (output_path / domain layer / variable layer
     / ("hour" +:+ fmt_02d fx_hour +:+ ".gif"))%path.

(** The body of the loop of [download_layer]. *)
Definition download_hour (layer : LayerConfig) (output_path : Path)
    (fx_hour : Z) : M Env unit :=
  let gif_output_path := target_path output_path layer fx_hour in
  present <- path_exists gif_output_path ;;
  if (present : bool) then ret tt
  else
    mkdir_parents (parent gif_output_path) ;;;
    image_url <- on_config (build_url (domain layer) (variable layer) fx_hour
                              (Some (maptype layer))) ;;
    r <- client_get image_url ;;
    raise_for_status image_url r ;;;
    write_bytes gif_output_path (content r).

Definition download_layer (layer : LayerConfig) (output_path : Path)
    : M Env unit :=
  fx_hours <- on_config (get_forecast_hours (forecast_schedule layer)) ;;
  for_each fx_hours (download_hour layer output_path).

(** ** annotation.py: the annotation store *)

(** An annotation and a geographic point are both a [dict[str, Any]].
    A list of annotations is held by its contents: the methods that change
    one read the list stored under a key, change it and store it back under
    that key. For the list under that key this is what the code does, which
    changes the stored list object in place. A list object that a caller
    has stored under two keys is changed under both by the code; the model
    has no such sharing, and what is stated of a method is stated of the
    list under the key the method is called with. *)
Definition pydict : Type := list (string * pyval).

(** What [save] dumps: the two top-level sections, in this order. *)
Record Document : Type :=
  { doc_geographic_points : list (string * pydict);
    doc_domains : list (string * list (string * list pydict)) }.

(** The manager: its two dicts, and the YAML file as the contents written to
    it so far, oldest first (the file holds the last one). *)
Record AnnotationManager : Type :=
  { annotations : list (string * list (string * list pydict));
    geographic_points : list (string * pydict);
    written : list Document }.

Definition set_annotations_dict
    (a : list (string * list (string * list pydict)))
    (self : AnnotationManager) : AnnotationManager :=
  {| annotations := a; geographic_points := geographic_points self;
     written := written self |}.
Definition set_points_dict (p : list (string * pydict))
    (self : AnnotationManager) : AnnotationManager :=
  {| annotations := annotations self; geographic_points := p;
     written := written self |}.
Definition set_written (w : list Document)
    (self : AnnotationManager) : AnnotationManager :=
  {| annotations := annotations self;
     geographic_points := geographic_points self; written := w |}.

Definition document_of (self : AnnotationManager) : Document :=
  {| doc_geographic_points := geographic_points self;
     doc_domains := annotations self |}.

Definition save : M AnnotationManager unit :=
  modify (λ self, set_written (written self ++ [document_of self]) self).

Definition get_geographic_points
    : M AnnotationManager (list (string * pydict)) :=
  gets geographic_points.

Definition point_dict (name' : string) (lat lon : pyval) : pydict :=
  [("name", PyStr name'); ("latitude", lat); ("longitude", lon)]%string.

Definition add_geographic_point (key name' : string) (lat lon : pyval)
    : M AnnotationManager unit :=
  modify (λ self, set_points_dict
            (OD.set key (point_dict name' lat lon) (geographic_points self))
            self) ;;;
  save.

Definition update_geographic_point (key name' : string) (lat lon : pyval)
    : M AnnotationManager unit :=
  self <- get_state ;;
  if OD.mem key (geographic_points self) then
    modify (λ self, set_points_dict
              (OD.set key (point_dict name' lat lon) (geographic_points self))
              self) ;;;
    save
  else ret tt.

Definition remove_geographic_point (key : string)
    : M AnnotationManager unit :=
  self <- get_state ;;
  if OD.mem key (geographic_points self) then
    modify (λ self, set_points_dict (OD.del key (geographic_points self))
                      self) ;;;
    save
  else ret tt.

(** [self.annotations.get(domain, {}).get(image, [])] *)
Definition annotations_at (domain' image : string)
    (a : list (string * list (string * list pydict))) : list pydict :=
  default [] (OD.get image (default [] (OD.get domain' a))).

Definition get_annotations (domain' image : string)
    : M AnnotationManager (list pydict) :=
  gets (λ self, annotations_at domain' image (annotations self)).

Definition set_annotations (domain' image : string) (anns : list pydict)
    : M AnnotationManager unit :=
  self <- get_state ;;
  when (negb (OD.mem domain' (annotations self)))
    (modify (λ self, set_annotations_dict
               (OD.set domain' [] (annotations self)) self)) ;;;
  modify (λ self,
    let images := default [] (OD.get domain' (annotations self)) in
    set_annotations_dict
      (OD.set domain' (OD.set image anns images) (annotations self)) self) ;;;
  save.

(** [l.pop(i)], the list afterwards: a negative [i] counts from the end. *)
Definition list_pop {St A} (l : list A) (i : Z) : M St (list A) :=
  let n := Z.of_nat (length l) in
  let j := if bool_decide (i < 0) then i + n else i in
  if bool_decide (0 ≤ j < n) then ret (delete (Z.to_nat j) l)
  else raise (IndexError "pop index out of range").

(** [l[i] = x], the list afterwards. *)
Definition list_setitem {St A} (l : list A) (i : Z) (x : A) : M St (list A) :=
  let n := Z.of_nat (length l) in
  let j := if bool_decide (i < 0) then i + n else i in
  if bool_decide (0 ≤ j < n) then ret (<[Z.to_nat j := x]> l)
  else raise (IndexError "list assignment index out of range").

Definition add_annotation (domain' image : string) (annotation : pydict)
    : M AnnotationManager unit :=
  anns <- get_annotations domain' image ;;
  let anns := anns ++ [annotation] in
  set_annotations domain' image anns.

Definition remove_annotation (domain' image : string) (index : Z)
    : M AnnotationManager unit :=
  anns <- get_annotations domain' image ;;
  if bool_decide (0 ≤ index < Z.of_nat (length anns)) then
    anns <- list_pop anns index ;;
    set_annotations domain' image anns
  else ret tt.

Definition update_annotation (domain' image : string) (index : Z)
    (annotation : pydict) : M AnnotationManager unit :=
  anns <- get_annotations domain' image ;;
  if bool_decide (0 ≤ index < Z.of_nat (length anns)) then
    anns <- list_setitem anns index annotation ;;
    set_annotations domain' image anns
  else ret tt.

(** [{"domain": domain, "image": image, "index": idx, **ann}] *)
Definition tagged (domain' image : string) (idx : nat) (ann : pydict)
    : pydict :=
  OD.update [("domain", PyStr domain'); ("image", PyStr image);
             ("index", PyInt (Z.of_nat idx))]%string ann.

Definition get_all_annotations : M AnnotationManager (list pydict) :=
  gets (λ self,
    '(domain', images) ← annotations self;
    '(image, anns) ← images;
    imap (tagged domain' image) anns).

(** ** Vocabulary of the statements *)

(** A cache is either still empty or holds the table built from its list. *)
Definition cache_ok {V} (cache table : gmap string V) : Prop :=
  cache = ∅ ∨ cache = table.

(** The states of a configuration object that the constructor and the four
    getters can produce. *)
Definition config_ok (c : WrfConfig) : Prop :=
  cache_ok (_domains c) (dict_comp name code (domain_codes c))
  ∧ cache_ok (_maptypes c) (dict_comp name code (maptype_codes c))
  ∧ cache_ok (_variables c) (dict_comp name code (variable_codes c))
  ∧ cache_ok (_schedules c)
      (dict_comp schedule_name hours (forecast_schedules c)).

(** [x] is the last entry of [l] whose key is [key x]. *)
Definition last_entry {A} (key : A → string) (l : list A) (x : A) : Prop :=
  ∃ l1 l2, l = l1 ++ x :: l2 ∧ key x ∉ key <$> l2.

Definition not_found (n : string) : exn := ValueError (n +:+ " was not found").

(** The address the spec gives for resolved codes. *)
Definition address (domain_code maptype_code variable_code : string)
    (hour : Z) : string :=
  base_url +:+ "/images_" +:+ domain_code +:+ "/" +:+ maptype_code
    +:+ variable_code +:+ "." +:+ fmt_02d hour +:+ ".0000.gif".

(** What a lookup in the table [t] answers. *)
Definition lookup_outcome {V} (t : gmap string V) (n : string) : outcome V :=
  match t !! n with
  | Some v => Returns v
  | None => Raises (not_found n)
  end.

(** The table each getter reads once its cache test has run, and the
    configuration object after that test. *)
Definition domains_table (c : WrfConfig) : gmap string string :=
  if is_empty (_domains c) then dict_comp name code (domain_codes c)
  else _domains c.
Definition maptypes_table (c : WrfConfig) : gmap string string :=
  if is_empty (_maptypes c) then dict_comp name code (maptype_codes c)
  else _maptypes c.
Definition variables_table (c : WrfConfig) : gmap string string :=
  if is_empty (_variables c) then dict_comp name code (variable_codes c)
  else _variables c.
Definition schedules_table (c : WrfConfig) : gmap string (list Z) :=
  if is_empty (_schedules c)
  then dict_comp schedule_name hours (forecast_schedules c)
  else _schedules c.

Definition fill_domains (c : WrfConfig) : WrfConfig :=
  if is_empty (_domains c) then set_domains (domains_table c) c else c.
Definition fill_maptypes (c : WrfConfig) : WrfConfig :=
  if is_empty (_maptypes c) then set_maptypes (maptypes_table c) c else c.
Definition fill_variables (c : WrfConfig) : WrfConfig :=
  if is_empty (_variables c) then set_variables (variables_table c) c else c.
Definition fill_schedules (c : WrfConfig) : WrfConfig :=
  if is_empty (_schedules c) then set_schedules (schedules_table c) c else c.

(** Two states of one configuration object that answer every lookup alike. *)
Definition same_tables (c c' : WrfConfig) : Prop :=
  domains_table c = domains_table c'
  ∧ maptypes_table c = maptypes_table c'
  ∧ variables_table c = variables_table c'
  ∧ schedules_table c = schedules_table c'.

(** The maptype code of a call: the empty string when the argument is
    omitted, the looked-up code otherwise. *)
Definition maptype_outcome (c : WrfConfig) (maptype' : option string)
    : outcome string :=
  match maptype' with
  | Some m => lookup_outcome (maptypes_table c) m
  | None => Returns ""%string
  end.

(** What [build_url] answers, read off the tables. *)
Definition url_outcome (c : WrfConfig) (d v : string) (h : Z)
    (mt : option string) : outcome string :=
  match lookup_outcome (domains_table c) d with
  | Raises e => Raises e
  | Returns dc =>
      match maptype_outcome c mt with
      | Raises e => Raises e
      | Returns mc =>
          match lookup_outcome (variables_table c) v with
          | Raises e => Raises e
          | Returns vc => Returns (address dc mc vc h)
          end
      end
  end.

(** A getter over the list [l] answers with the last entry of a name, and
    after a call the memoized table [memo] holds nothing else: whatever it
    maps a name to is the value of the last entry of that name. *)
Definition resolves_to_last {A V} (key : A → string) (val : A → V)
    (l : list A) (getter : string → M WrfConfig V)
    (memo : WrfConfig → gmap string V) (c : WrfConfig) : Prop :=
  (∀ x, last_entry key l x → result (getter (key x)) c = Returns (val x))
  ∧ (∀ n0 n v, memo (final (getter n0) c) !! n = Some v →
       ∃ x, key x = n ∧ val x = v ∧ last_entry key l x).

(** A small configuration: the domain [d1] is listed twice. *)
Definition example_config : WrfConfig :=
  new_WrfConfig
    [{| name := "d1"; code := "dc" |}; {| name := "d2"; code := "dd" |};
     {| name := "d1"; code := "dz" |}]
    [{| name := "m1"; code := "mc" |}; {| name := "m1"; code := "mz" |}]
    [{| name := "v1"; code := "vc" |}; {| name := "v1"; code := "vz" |}]
    [{| schedule_name := "s"; hours := [0; 12] |};
     {| schedule_name := "s"; hours := [0; 6] |}]
    [{| domain := "d1"; variable := "v1"; forecast_schedule := "s";
        maptype := "m1" |}].

(** The same with a maptype whose name and code are both empty. *)
Definition empty_maptype_config : WrfConfig :=
  new_WrfConfig
    [{| name := "d1"; code := "dc" |}]
    [{| name := ""; code := "" |}]
    [{| name := "v1"; code := "vc" |}]
    [] [].

(** *** The annotation store *)

(** The annotations dict after [set_annotations domain image anns]. *)
Definition store_set (domain' image : string) (anns : list pydict)
    (a : list (string * list (string * list pydict)))
    : list (string * list (string * list pydict)) :=
  OD.set domain' (OD.set image anns (default [] (OD.get domain' a))) a.

(** A call rewrote the whole document: one more write, of the two dicts as
    they are after the call. *)
Definition writes_document (m : M AnnotationManager unit)
    (s : AnnotationManager) : Prop :=
  written (final m s) = written s ++ [document_of (final m s)].

(** A call left the manager, and so the file, as it was. *)
Definition writes_nothing (m : M AnnotationManager unit)
    (s : AnnotationManager) : Prop :=
  m s = (Returns tt, s).

Definition in_range {A} (index : Z) (l : list A) : Prop :=
  0 ≤ index < Z.of_nat (length l).

(** The keys [get_all_annotations] adds to each annotation. *)
Definition reserved : list string := ["domain"; "image"; "index"]%string.

(** An annotation with no field of its own under a reserved key. *)
Definition plain (ann : pydict) : Prop :=
  ∀ k, k ∈ reserved → k ∉ OD.keys ann.

(** The annotations dict is a dict of dicts: no domain twice, and no image
    twice within a domain. *)
Definition store_wf (a : list (string * list (string * list pydict)))
    : Prop :=
  OD.wf a ∧ ∀ d imgs, (d, imgs) ∈ a → OD.wf imgs.

Definition store_plain (a : list (string * list (string * list pydict)))
    : Prop :=
  ∀ d i k ann, annotations_at d i a !! k = Some ann → plain ann.

(** The addresses of all stored annotations: domains in the order of the
    dict, then the images of the domain in the order of its dict, then the
    positions of the list. *)
Definition addresses (a : list (string * list (string * list pydict)))
    : list (string * string * nat) :=
  d ← OD.keys a;
  i ← OD.keys (default [] (OD.get d a));
  (λ k, (d, i, k)) <$> seq 0 (length (annotations_at d i a)).

(** The sum of the lengths of all the lists. *)
Definition total_annotations
    (a : list (string * list (string * list pydict))) : nat :=
  sum_list_with
    (λ di, sum_list_with (λ ia, length (ia.2 : list pydict))
             (di.2 : list (string * list pydict))) a.

(** The address an element of [get_all_annotations] carries. *)
Definition address_of (e : pydict) : option (string * string * nat) :=
  match OD.get "domain"%string e, OD.get "image"%string e,
        OD.get "index"%string e with
  | Some (PyStr d), Some (PyStr i), Some (PyInt k) =>
      if bool_decide (0 ≤ k) then Some (d, i, Z.to_nat k) else None
  | _, _, _ => None
  end.

(** An element of the flattened list stands for the annotation at the
    address [dik]: it is that annotation tagged, and it carries the
    address. *)
Definition stands_for (a : list (string * list (string * list pydict)))
    (e : pydict) (dik : string * string * nat) : Prop :=
  ∃ ann, annotations_at dik.1.1 dik.1.2 a !! dik.2 = Some ann
         ∧ e = tagged dik.1.1 dik.1.2 dik.2 ann
         ∧ address_of e = Some dik.

Definition empty_manager : AnnotationManager :=
  {| annotations := []; geographic_points := []; written := [] |}.

(** A store with two annotations of image [i] of domain [d] and one of
    image [j] of domain [e]. *)
Definition example_manager : AnnotationManager :=
  {| annotations :=
       [("d", [("i", [[("pixel_x", PyInt 1); ("pixel_y", PyInt 2);
                       ("point", PyStr "p")];
                      [("pixel_x", PyInt 3); ("pixel_y", PyInt 4);
                       ("point", PyStr "q")]])]);
        ("e", [("j", [[("pixel_x", PyInt 5); ("pixel_y", PyInt 6);
                       ("point", PyStr "p")]])])]%string;
     geographic_points :=
       [("p", point_dict "P" (PyFloat 47 0) (PyFloat (-122) 0))]%string;
     written := [] |}.

(** A store whose one annotation has a field named [index]. *)
Definition index_field_manager : AnnotationManager :=
  {| annotations :=
       [("d", [("i", [[("pixel_x", PyInt 1); ("index", PyInt 7)]])])]%string;
     geographic_points := [];
     written := [] |}.

(** The list [get_all_annotations] builds from the annotations dict. *)
Definition flattened (a : list (string * list (string * list pydict)))
    : list pydict :=
  '(domain', images) ← a;
  '(image, anns) ← images;
  imap (tagged domain' image) anns.

(** C7 as it is stated, for a store state: every element of the flattened
    list carries the address of the annotation at its place. *)
Definition carries_addresses (s : AnnotationManager) : Prop :=
  ∀ l, result get_all_annotations s = Returns l →
       address_of <$> l = Some <$> addresses (annotations s).

(** *** The retrieval loop *)

(** What a run of the loop over one layer leaves alone: what the
    configuration answers, the remote service, every entry the file system
    had; and a file it creates sits [n] components deep, where the targets
    are. *)
Definition run_frame (n : nat) (e e' : Env) : Prop :=
  same_tables (config e) (config e')
  ∧ remote e' = remote e
  ∧ (∀ q, is_Some (fs e !! q) → fs e' !! q = fs e !! q)
  ∧ (∀ q data, fs e' !! q = Some (File data) →
       fs e !! q = Some (File data) ∨ length q = n).

(** What a run over any number of layers leaves alone. *)
Definition run_keeps (e e' : Env) : Prop :=
  same_tables (config e) (config e')
  ∧ remote e' = remote e
  ∧ (∀ q, is_Some (fs e !! q) → fs e' !! q = fs e !! q).

(** The address of hour [h] of a layer, as the configuration of [e]
    resolves it. *)
Definition layer_url (e : Env) (layer : LayerConfig) (h : Z)
    : outcome string :=
  result (build_url (domain layer) (variable layer) h
            (Some (maptype layer))) (config e).

(** The requests a run from [e] to [e'] sent. *)
Definition sent (e e' : Env) : list string :=
  drop (length (requests e)) (requests e').

(** Hour [h] was skipped: its file is as it was and its address was not
    requested. *)
Definition skipped (e e' : Env) (layer : LayerConfig) (out : Path) (h : Z)
    : Prop :=
  fs e' !! target_path out layer h = fs e !! target_path out layer h
  ∧ ∀ url, layer_url e layer h = Returns url → url ∉ sent e e'.

(** Hour [h] was fetched: its address was requested and the body of the
    answer is the file at its target path. *)
Definition fetched (e e' : Env) (layer : LayerConfig) (out : Path) (h : Z)
    : Prop :=
  ∃ url r, layer_url e layer h = Returns url
           ∧ url ∈ sent e e'
           ∧ remote e url = Returns r
           ∧ fs e' !! target_path out layer h = Some (File (content r)).

(** The directory of a layer's files, and the name of the file of an
    hour. *)
Definition target_dir (out : Path) (layer : LayerConfig) : Path :=
  (out / domain layer / variable layer)%path.
Definition hour_file (h : Z) : string := "hour" +:+ fmt_02d h +:+ ".gif".

(** A string without a separator. *)
Fixpoint no_sep (s : string) : bool :=
  match s with
  | EmptyString => true
  | String c s' => negb (Ascii.eqb c "/") && no_sep s'
  end.

(** A name that is one part of a path: joining it adds it as it is. *)
Definition single_part (s : string) : Prop :=
  root_of s = None ∧ parts_of s = [s].

(** No file stands where a directory of the layer has to be. *)
Definition dirs_free (e : Env) (layer : LayerConfig) (out : Path) : Prop :=
  ∀ k data, fs e !! take k (target_dir out layer) ≠ Some (File data).

(** Every hour of [hs] whose file is missing has an address, and the remote
    service answers it with a success status. *)
Definition all_served (e : Env) (layer : LayerConfig) (out : Path)
    (hs : list Z) : Prop :=
  ∀ h, h ∈ hs → fs e !! target_path out layer h = None →
       ∃ url r, layer_url e layer h = Returns url
                ∧ remote e url = Returns r ∧ is_success r = true.

Definition example_layer : LayerConfig :=
  {| domain := "d1"; variable := "v1"; forecast_schedule := "s";
     maptype := "m1" |}.

(** Hour 0 of the example layer is already there; the service answers
    every request with one byte and a success status. *)
Definition example_env : Env :=
  {| config := example_config;
     fs := {[ target_path ["out"%string] example_layer 0
                := File [Byte.x01] ]};
     remote := λ _, Returns {| is_success := true; content := [Byte.x02] |};
     requests := [] |}.

(** Nothing is there, and the service answers with an error status. *)
Definition failing_env : Env :=
  {| config := example_config;
     fs := ∅;
     remote := λ _, Returns {| is_success := false; content := [] |};
     requests := [] |}.

(** C2 as it is stated, for one run: an hour whose file is there is
    skipped, any other hour is fetched and written. *)
Definition skips_or_fetches (e : Env) (layer : LayerConfig) (out : Path)
    (h : Z) : Prop :=
  let e' := final (download_layer layer out) e in
  (is_Some (fs e !! target_path out layer h) → skipped e e' layer out h)
  ∧ (fs e !! target_path out layer h = None → fetched e e' layer out h).

(** ** wrf_client.py: the command *)

(** What [main] runs against once the configuration file is loaded: the
    environment of the retrieval and the lines echoed so far. *)
Record Console : Type := { env : Env; stdout : list string }.

Definition set_env (e : Env) (c : Console) : Console :=
  {| env := e; stdout := stdout c |}.
Definition on_env {A} (m : M Env A) : M Console A := zoom env set_env m.

(** [click.echo(line)] *)
Definition echo (line : string) : M Console unit :=
  modify (λ c, {| env := env c; stdout := stdout c ++ [line] |}).

(** [f"Downloading layer {i + 1} of {n}"] *)
Definition progress_line (i n : nat) : string :=
  "Downloading layer " +:+ str_of_int (Z.of_nat i + 1) +:+ " of "
    +:+ str_of_int (Z.of_nat n).

(** The loop of [main] over [enumerate(wrf_config.layers)]. *)
Definition main (output_path : Path) : M Console unit :=
  c <- get_state ;;
  for_each (imap pair (layers (config (env c)))) (λ il,
    c <- get_state ;;
    echo (progress_line il.1 (length (layers (config (env c))))) ;;;
    on_env (download_layer il.2 output_path)).

(** ** annotation.py: listings of the data directory *)

(** The node at a path; the empty path is the working directory. *)
Definition node_at (f : gmap Path node) (p : Path) : option node :=
  match p with
  | [] => Some Directory
  | _ => f !! p
  end.

Definition is_directory (n : node) : bool :=
  match n with Directory => true | File _ => false end.

(** The entries of a directory, name and node, in the order the file system
    lists them. *)
Definition children (f : gmap Path node) (d : Path) : list (string * node) :=
  omap (λ pn : Path * node,
          match last pn.1 with
          | Some nm => if decide (pn.1 = d ++ [nm]) then Some (nm, pn.2)
                       else None
          | None => None
          end) (map_to_list f).

(** [p.iterdir()] *)
Definition iterdir (p : Path) : M (gmap Path node) (list (string * node)) :=
  f <- get_state ;;
  match node_at f p with
  | Some Directory => ret (children f p)
  | Some (File _) => raise (NotADirectoryError p)
  | None => raise (FileNotFoundError p)
  end.

(** [fnmatch] for a pattern of literal characters, [*] and [?], which is
    what the four patterns of [get_images] are made of. *)
Fixpoint fnmatch (pat : string) : string → bool :=
  match pat with
  | EmptyString => λ s, if s is EmptyString then true else false
  | String "*" pat' =>
      fix star (s : string) : bool :=
        fnmatch pat' s
        || match s with
           | EmptyString => false
           | String _ s' => star s'
           end
  | String "?" pat' =>
      λ s, match s with
           | EmptyString => false
           | String _ s' => fnmatch pat' s'
           end
  | String c pat' =>
      λ s, match s with
           | EmptyString => false
           | String c' s' => Ascii.eqb c c' && fnmatch pat' s'
           end
  end.

(** [p.glob(pattern)] for a pattern without separators: the entries of the
    directory whose name matches; nothing when [p] is not a directory. *)
Definition glob (f : gmap Path node) (p : Path) (pattern : string)
    : list (string * node) :=
  match node_at f p with
  | Some Directory => filter (λ it, fnmatch pattern it.1 = true) (children f p)
  | _ => []
  end.

Definition string_le (a b : string) : Prop := String.leb a b = true.

Global Instance string_le_dec (a b : string) : Decision (string_le a b) :=
  decide (String.leb a b = true).

(** [sorted(l)] for a list of strings. *)
Definition py_sorted (l : list string) : list string :=
  merge_sort string_le l.

Definition get_domains (data_dir : Path)
    : M (gmap Path node) (list string) :=
  f <- get_state ;;
  items <- (if bool_decide (is_Some (node_at f data_dir))
            then iterdir data_dir else ret []) ;;
  let domains :=
    (filter (λ it, is_directory it.2 = true
                   ∧ String.prefix "." it.1 = false) items).*1 in
  ret (py_sorted domains).

Definition get_images (data_dir : Path) (domain' : string)
    : M (gmap Path node) (list string) :=
  f <- get_state ;;
  let domain_path := (data_dir / domain')%path in
  let images :=
    if bool_decide (is_Some (node_at f domain_path))
    then ext ← ["*.gif"; "*.png"; "*.jpg"; "*.jpeg"]%string;
         (glob f domain_path ext).*1
    else [] in
  ret (py_sorted images).

(** ** annotation.py: loading *)

(** What [yaml.safe_load] gives under a key of the mapping: a mapping of
    the shape the manager stores, or any other value (null, a scalar, a
    list, a mapping of another shape). *)
Inductive section (A : Type) : Type :=
  | Shaped (a : A)
  | Unshaped.
Arguments Shaped {A} a.
Arguments Unshaped {A}.

(** What [yaml.safe_load] gives for a document that is a mapping, seen
    through the two keys [load] reads; [None] is a key that is missing. *)
Record YamlMapping : Type :=
  { yaml_geographic_points : option (section (list (string * pydict)));
    yaml_domains
      : option (section (list (string * list (string * list pydict)))) }.

(** The mapping read back from a file [save] has dumped. *)
Definition yaml_of (d : Document) : YamlMapping :=
  {| yaml_geographic_points := Some (Shaped (doc_geographic_points d));
     yaml_domains := Some (Shaped (doc_domains d)) |}.

(** [not data] for a mapping *)
Definition mapping_is_empty (data : YamlMapping) : bool :=
  match yaml_geographic_points data, yaml_domains data with
  | None, None => true
  | _, _ => false
  end.

(** The two attributes as [load] leaves them. [load] stores what it read
    under a key as it is, without looking at it: an attribute may then hold
    a value that is no mapping, [None] for a section that is null. *)
Record Loaded : Type :=
  { loaded_annotations
      : section (list (string * list (string * list pydict)));
    loaded_points : section (list (string * pydict)) }.

Definition set_loaded_annotations
    (a : section (list (string * list (string * list pydict))))
    (self : Loaded) : Loaded :=
  {| loaded_annotations := a; loaded_points := loaded_points self |}.
Definition set_loaded_points (p : section (list (string * pydict)))
    (self : Loaded) : Loaded :=
  {| loaded_annotations := loaded_annotations self; loaded_points := p |}.

(** [load], for a file that is missing ([None]), holds an empty document
    ([Some None]) or holds a mapping. *)
Definition load (file : option (option YamlMapping)) : M Loaded unit :=
  match file with
  | Some (Some data) =>
      if negb (mapping_is_empty data) then
        modify (set_loaded_annotations
                  (default (Shaped []) (yaml_domains data))) ;;;
        modify (set_loaded_points
                  (default (Shaped []) (yaml_geographic_points data)))
      else
        modify (set_loaded_annotations (Shaped [])) ;;;
        modify (set_loaded_points (Shaped []))
  | Some None | None =>
      modify (set_loaded_annotations (Shaped [])) ;;;
      modify (set_loaded_points (Shaped []))
  end.

(** [AnnotationManager(yaml_path, data_dir)] *)
Definition new_AnnotationManager (file : option (option YamlMapping))
    : Loaded :=
  final (load file)
    {| loaded_annotations := Shaped []; loaded_points := Shaped [] |}.

(** The manager the methods are modelled on: both attributes hold a mapping
    of the stored shape, and nothing has been written yet. With another
    value in an attribute there is none: the methods that read it raise. *)
Definition usable (l : Loaded) : option AnnotationManager :=
  match loaded_annotations l, loaded_points l with
  | Shaped a, Shaped p =>
      Some {| annotations := a; geographic_points := p; written := [] |}
  | _, _ => None
  end.

(** What the file holds after the manager has run: the last document
    written, or what it held at first when nothing was written. *)
Definition current_file (file : option (option YamlMapping))
    (s : AnnotationManager) : option (option YamlMapping) :=
  match last (written s) with
  | Some d => Some (Some (yaml_of d))
  | None => file
  end.

(** The calls of the presentation layer that change the store. *)
Inductive call : Type :=
  | AddPoint (key name' : string) (lat lon : pyval)
  | UpdatePoint (key name' : string) (lat lon : pyval)
  | RemovePoint (key : string)
  | SetAnnotations (domain' image : string) (anns : list pydict)
  | AddAnnotation (domain' image : string) (ann : pydict)
  | RemoveAnnotation (domain' image : string) (index : Z)
  | UpdateAnnotation (domain' image : string) (index : Z) (ann : pydict).

Definition run_call (c : call) : M AnnotationManager unit :=
  match c with
  | AddPoint k n lat lon => add_geographic_point k n lat lon
  | UpdatePoint k n lat lon => update_geographic_point k n lat lon
  | RemovePoint k => remove_geographic_point k
  | SetAnnotations d i l => set_annotations d i l
  | AddAnnotation d i a => add_annotation d i a
  | RemoveAnnotation d i k => remove_annotation d i k
  | UpdateAnnotation d i k a => update_annotation d i k a
  end.

(** ** Vocabulary of the further statements *)

(** [c'] is the configuration object after one more call on [c]. *)
Definition after_call (c c' : WrfConfig) : Prop :=
  (∃ n, c' = final (get_domain_code n) c)
  ∨ (∃ n, c' = final (get_maptype_code n) c)
  ∨ (∃ n, c' = final (get_variable_code n) c)
  ∨ (∃ n, c' = final (get_forecast_hours n) c)
  ∨ (∃ d v h mt, c' = final (build_url d v h mt) c).

(** Every hour of [hs] has its file in [e]. *)
Definition all_present (e : Env) (layer : LayerConfig) (out : Path)
    (hs : list Z) : Prop :=
  ∀ h, h ∈ hs → is_Some (fs e !! target_path out layer h).

(** A method leaves the component [f] of the state as it is, whether it
    returns or raises. *)
Definition keeps {St A B} (f : St → B) (m : M St A) : Prop :=
  ∀ s, f (final m s) = f s.

(** The layers of [main], run one after the other without the echo. *)
Definition download_all (ls : list LayerConfig) (out : Path) : M Env unit :=
  for_each ls (λ layer, download_layer layer out).

(** The body of the loop of [main], for the pair [enumerate] yields. *)
Definition main_body (out : Path) (il : nat * LayerConfig) : M Console unit :=
  c <- get_state ;;
  echo (progress_line il.1 (length (layers (config (env c))))) ;;;
  on_env (download_layer il.2 out).

(** The file is up to date with the store: the last document written is
    the store as it is, or nothing was written and the store is the one
    loaded at first, [s0]. *)
Definition synced (s0 s : AnnotationManager) : Prop :=
  document_of s
  = match last (written s) with
    | Some d => d
    | None => document_of s0
    end.

(** A file with a section that is null. *)
Definition null_section_file : option (option YamlMapping) :=
  Some (Some {| yaml_geographic_points := Some (Shaped []);
                yaml_domains := Some Unshaped |}).

(** A pattern made of literal characters only. *)
Fixpoint literal (pat : string) : bool :=
  match pat with
  | EmptyString => true
  | String c pat' =>
      negb (Ascii.eqb c "*") && negb (Ascii.eqb c "?") && literal pat'
  end.

(** The suffixes the four patterns of [get_images] ask for. *)
Definition image_suffixes : list string :=
  [".gif"; ".png"; ".jpg"; ".jpeg"]%string.

(** A data directory with two domains, a hidden directory and a file; the
    first domain holds images and other entries. *)
Definition example_data : gmap Path node :=
  {[ ["data"] := Directory;
     ["data"; "d02"] := Directory;
     ["data"; "d01"] := Directory;
     ["data"; ".git"] := Directory;
     ["data"; "readme"] := File [];
     ["data"; "d01"; "b.gif"] := File [];
     ["data"; "d01"; "a.png"] := File [];
     ["data"; "d01"; "c.GIF"] := File [];
     ["data"; "d01"; "x.jpeg"] := File [];
     ["data"; "d01"; "notes.txt"] := File [] ]}%string.

(** ** The monad *)

Lemma bind_returns {St A B} (m : M St A) (k : A → M St B) s a s' :
  m s = (Returns a, s') → bind m k s = k a s'.
Proof. intros H. unfold bind. by rewrite H. Qed.

Lemma bind_raises {St A B} (m : M St A) (k : A → M St B) s e s' :
  m s = (Raises e, s') → bind m k s = (Raises e, s').
Proof. intros H. unfold bind. by rewrite H. Qed.

(** ** Decimal rendering *)

Lemma int_of_str_of_int z : int_of_str (str_of_int z) = Some z.
Proof.
  unfold int_of_str, str_of_int.
  rewrite NilZero.isi.
  - simpl. by rewrite DecimalZ.of_to.
  - destruct z; simpl; try discriminate.
    intros [= H]. by apply Unsigned.to_uint_nonnil in H.
  - destruct z; simpl; try discriminate.
    intros [= H]. by apply Unsigned.to_uint_nonnil in H.
Qed.

Lemma small_cases (z : Z) (P : Z → Prop) :
  0 ≤ z < 10 →
  P 0 → P 1 → P 2 → P 3 → P 4 → P 5 → P 6 → P 7 → P 8 → P 9 → P z.
Proof.
  intros Hz ??????????.
  assert (z = 0 ∨ z = 1 ∨ z = 2 ∨ z = 3 ∨ z = 4 ∨ z = 5 ∨ z = 6 ∨ z = 7
          ∨ z = 8 ∨ z = 9) as Hc by lia.
  destruct Hc as [->|[->|[->|[->|[->|[->|[->|[->|[->| ->]]]]]]]]]; assumption.
Qed.

Lemma int_of_fmt_02d z : int_of_str (fmt_02d z) = Some z.
Proof.
  unfold fmt_02d. destruct (decide (0 ≤ z < 10)) as [Hz|Hz].
  - pattern z. apply (small_cases z); [done|reflexivity..].
  - apply int_of_str_of_int.
Qed.

Lemma fmt_02d_inj z1 z2 : fmt_02d z1 = fmt_02d z2 → z1 = z2.
Proof.
  intros H. apply (f_equal int_of_str) in H.
  rewrite !int_of_fmt_02d in H. by injection H.
Qed.

Lemma fmt_02d_length z :
  0 ≤ z < 100 → String.length (fmt_02d z) = 2%nat.
Proof.
  intros Hz.
  replace z with (10 * (z / 10) + z mod 10) by (symmetry; apply Z.div_mod; lia).
  assert (0 ≤ z / 10 < 10) as Hq
    by (split; [apply Z.div_pos; lia | apply Z.div_lt_upper_bound; lia]).
  assert (0 ≤ z mod 10 < 10) as Hr by (apply Z.mod_pos_bound; lia).
  generalize dependent (z mod 10). generalize dependent (z / 10).
  intros q Hq r Hr.
  pattern q. apply (small_cases q); [done|..];
    pattern r; apply (small_cases r); try done; reflexivity.
Qed.

(** ** Dict comprehensions *)

Section dict_comp.
Context {A V : Type} (key : A → string) (val : A → V).

Lemma dict_comp_snoc l x :
  dict_comp key val (l ++ [x]) = <[key x := val x]> (dict_comp key val l).
Proof. unfold dict_comp. by rewrite foldl_app. Qed.

Lemma dict_comp_app_lookup l1 l2 n :
  n ∉ key <$> l2 →
  dict_comp key val (l1 ++ l2) !! n = dict_comp key val l1 !! n.
Proof.
  induction l2 as [|x l2 IH] using rev_ind; intros Hn.
  - by rewrite app_nil_r.
  - rewrite fmap_app in Hn. apply not_elem_of_app in Hn as [Hn Hx].
    rewrite app_assoc, dict_comp_snoc, lookup_insert_ne; [by apply IH|].
    intros Heq. apply Hx. rewrite <-Heq. simpl. left.
Qed.

Lemma dict_comp_lookup_None l n :
  n ∉ key <$> l → dict_comp key val l !! n = None.
Proof.
  intros Hn. by rewrite <-(app_nil_l l), dict_comp_app_lookup.
Qed.

Lemma dict_comp_lookup_last l x :
  last_entry key l x → dict_comp key val l !! key x = Some (val x).
Proof.
  intros (l1 & l2 & -> & Hn).
  rewrite (app_assoc l1 [x] l2 : l1 ++ x :: l2 = (l1 ++ [x]) ++ l2).
  rewrite dict_comp_app_lookup by done.
  by rewrite dict_comp_snoc, lookup_insert_eq.
Qed.

Lemma last_entry_exists l n :
  n ∈ key <$> l → ∃ x, key x = n ∧ last_entry key l x.
Proof.
  induction l as [|y l IH]; simpl; [by intros ?%elem_of_nil|].
  intros Hn. destruct (decide (n ∈ key <$> l)) as [Hin|Hout].
  - destruct (IH Hin) as (x & Hx & l1 & l2 & -> & Hlast).
    exists x. split; [done|]. by exists (y :: l1), l2.
  - apply elem_of_cons in Hn as [->|?]; [|done].
    exists y. split; [done|]. by exists [], l.
Qed.

Lemma dict_comp_lookup_Some l n v :
  dict_comp key val l !! n = Some v ↔
  ∃ x, key x = n ∧ val x = v ∧ last_entry key l x.
Proof.
  split.
  - intros Hl. destruct (decide (n ∈ key <$> l)) as [Hin|Hout].
    + destruct (last_entry_exists l n Hin) as (x & <- & Hx).
      exists x. rewrite (dict_comp_lookup_last l x Hx) in Hl.
      by injection Hl.
    + by rewrite dict_comp_lookup_None in Hl.
  - intros (x & <- & <- & Hx). by apply dict_comp_lookup_last.
Qed.
End dict_comp.

Lemma is_empty_spec {V} (d : gmap string V) : is_empty d = true ↔ d = ∅.
Proof.
  unfold is_empty. rewrite bool_decide_eq_true. apply dom_empty_iff_L.
Qed.

(** ** The four getters *)

Lemma filled_cache {V} (cache table : gmap string V) :
  cache_ok cache table →
  (if is_empty cache then table else cache) = table.
Proof.
  intros [->| ->].
  - by rewrite (proj2 (is_empty_spec ∅)).
  - by destruct (is_empty table).
Qed.

Ltac run_getter :=
  unfold get_domain_code, get_maptype_code, get_variable_code,
    get_forecast_hours, bind, get_state, when, modify, lookup_or_raise,
    fill_domains, fill_maptypes, fill_variables, fill_schedules,
    domains_table, maptypes_table, variables_table, schedules_table,
    lookup_outcome, not_found;
  repeat (case_match; simpl in *; simplify_eq); unfold ret, raise in *;
  simplify_eq; try done.

Lemma get_domain_code_run n c :
  get_domain_code n c = (lookup_outcome (domains_table c) n, fill_domains c).
Proof. run_getter. Qed.

Lemma get_maptype_code_run n c :
  get_maptype_code n c =
    (lookup_outcome (maptypes_table c) n, fill_maptypes c).
Proof. run_getter. Qed.

Lemma get_variable_code_run n c :
  get_variable_code n c =
    (lookup_outcome (variables_table c) n, fill_variables c).
Proof. run_getter. Qed.

Lemma get_forecast_hours_run n c :
  get_forecast_hours n c =
    (lookup_outcome (schedules_table c) n, fill_schedules c).
Proof. run_getter. Qed.

Ltac frame_tables :=
  unfold same_tables, fill_domains, fill_maptypes, fill_variables,
    fill_schedules;
  unfold domains_table, maptypes_table, variables_table, schedules_table;
  repeat (case_match; simpl in *; simplify_eq); repeat split;
  try done; try congruence.

Global Instance same_tables_equiv : Equivalence same_tables.
Proof.
  split.
  - by intros c.
  - intros c c' (?&?&?&?). by repeat split.
  - intros c1 c2 c3 (?&?&?&?) (?&?&?&?). repeat split; congruence.
Qed.

Lemma fill_domains_tables c : same_tables c (fill_domains c).
Proof. frame_tables. Qed.
Lemma fill_maptypes_tables c : same_tables c (fill_maptypes c).
Proof. frame_tables. Qed.
Lemma fill_variables_tables c : same_tables c (fill_variables c).
Proof. frame_tables. Qed.
Lemma fill_schedules_tables c : same_tables c (fill_schedules c).
Proof. frame_tables. Qed.

Lemma url_outcome_tables c c' d v h mt :
  same_tables c c' → url_outcome c d v h mt = url_outcome c' d v h mt.
Proof.
  intros (Hd & Hm & Hv & _). unfold url_outcome, maptype_outcome.
  by rewrite Hd, Hm, Hv.
Qed.

Lemma build_url_run c d v h mt :
  ∃ c', build_url d v h mt c = (url_outcome c d v h mt, c')
        ∧ same_tables c c'.
Proof.
  unfold build_url, url_outcome, maptype_outcome, bind.
  rewrite get_domain_code_run.
  pose proof (fill_domains_tables c) as H1.
  destruct (lookup_outcome (domains_table c) d) as [dc|e]; [|by eexists].
  destruct mt as [m|].
  - rewrite get_maptype_code_run.
    pose proof (fill_maptypes_tables (fill_domains c)) as H2.
    destruct H1 as (_ & <- & _).
    destruct (lookup_outcome (maptypes_table c) m) as [mc|e].
    2:{ eexists. split; [done|]. etrans; [|exact H2]. apply fill_domains_tables. }
    rewrite get_variable_code_run.
    pose proof (fill_variables_tables (fill_maptypes (fill_domains c))) as H3.
    assert (same_tables c (fill_maptypes (fill_domains c))) as H12
      by (etrans; [apply fill_domains_tables|done]).
    destruct H12 as (_ & _ & <- & _).
    eexists. split.
    + by destruct (lookup_outcome (variables_table c) v).
    + destruct (lookup_outcome (variables_table c) v);
        (etrans; [apply fill_domains_tables|]); (etrans; [exact H2|done]).
  - unfold ret at 1. rewrite get_variable_code_run.
    destruct H1 as (_ & _ & <- & _).
    eexists. split.
    + by destruct (lookup_outcome (variables_table c) v).
    + destruct (lookup_outcome (variables_table c) v);
        (etrans; [apply fill_domains_tables|]); apply fill_variables_tables.
Qed.

Lemma build_url_result c d v h mt :
  result (build_url d v h mt) c = url_outcome c d v h mt.
Proof.
  unfold result. by destruct (build_url_run c d v h mt) as (c' & -> & _).
Qed.

Lemma config_ok_tables c :
  config_ok c →
  domains_table c = dict_comp name code (domain_codes c)
  ∧ maptypes_table c = dict_comp name code (maptype_codes c)
  ∧ variables_table c = dict_comp name code (variable_codes c)
  ∧ schedules_table c
    = dict_comp schedule_name hours (forecast_schedules c).
Proof.
  intros (Hd & Hm & Hv & Hs).
  unfold domains_table, maptypes_table, variables_table, schedules_table.
  by rewrite !filled_cache.
Qed.

Lemma new_WrfConfig_ok d m v f l : config_ok (new_WrfConfig d m v f l).
Proof. repeat split; by left. Qed.

Lemma get_domain_code_ok n c :
  config_ok c → config_ok (final (get_domain_code n) c).
Proof.
  intros (Hd & Hm & Hv & Hs). unfold final.
  rewrite get_domain_code_run. simpl.
  unfold fill_domains, domains_table.
  destruct (is_empty (_domains c)); [|done].
  repeat split; try done. by right.
Qed.

Lemma get_maptype_code_ok n c :
  config_ok c → config_ok (final (get_maptype_code n) c).
Proof.
  intros (Hd & Hm & Hv & Hs). unfold final.
  rewrite get_maptype_code_run. simpl.
  unfold fill_maptypes, maptypes_table.
  destruct (is_empty (_maptypes c)); [|done].
  repeat split; try done. by right.
Qed.

Lemma get_variable_code_ok n c :
  config_ok c → config_ok (final (get_variable_code n) c).
Proof.
  intros (Hd & Hm & Hv & Hs). unfold final.
  rewrite get_variable_code_run. simpl.
  unfold fill_variables, variables_table.
  destruct (is_empty (_variables c)); [|done].
  repeat split; try done. by right.
Qed.

Lemma get_forecast_hours_ok n c :
  config_ok c → config_ok (final (get_forecast_hours n) c).
Proof.
  intros (Hd & Hm & Hv & Hs). unfold final.
  rewrite get_forecast_hours_run. simpl.
  unfold fill_schedules, schedules_table.
  destruct (is_empty (_schedules c)); [|done].
  repeat split; try done. by right.
Qed.

Lemma build_url_ok d v h mt c :
  config_ok c → config_ok (final (build_url d v h mt) c).
Proof.
  intros Hok. unfold final, build_url, bind.
  pose proof (get_domain_code_ok d c Hok) as H1. unfold final in H1.
  destruct (get_domain_code d c) as [[dc|x] c1]; [|done]. simpl in H1.
  destruct mt as [m|].
  - pose proof (get_maptype_code_ok m c1 H1) as H2. unfold final in H2.
    destruct (get_maptype_code m c1) as [[mc|x] c2]; [|done]. simpl in H2.
    pose proof (get_variable_code_ok v c2 H2) as H3. unfold final in H3.
    by destruct (get_variable_code v c2) as [[vc|x] c3].
  - unfold ret at 1.
    pose proof (get_variable_code_ok v c1 H1) as H3. unfold final in H3.
    by destruct (get_variable_code v c1) as [[vc|x] c3].
Qed.

(** ** The resource address *)

(** C5: for resolved codes [dc], [mc] (the empty string when the maptype is
    omitted) and [vc], [build_url] returns exactly
    [<base_url>/images_<dc>/<mc><vc>.<hour:02d>.0000.gif]; the hour field
    reads back as the hour and is two characters wide for an hour below
    100. *)
Theorem build_url_address (c : WrfConfig) (d v : string) (h : Z)
    (mt : option string) (dc mc vc : string) :
  result (get_domain_code d) c = Returns dc →
  match mt with
  | Some m => result (get_maptype_code m) c = Returns mc
  | None => mc = ""%string
  end →
  result (get_variable_code v) c = Returns vc →
  result (build_url d v h mt) c
    = Returns ("https://a.atmos.washington.edu/wrfrt/data/timeindep"
               +:+ "/images_" +:+ dc +:+ "/" +:+ mc +:+ vc +:+ "."
               +:+ fmt_02d h +:+ ".0000.gif")
  ∧ int_of_str (fmt_02d h) = Some h
  ∧ (0 ≤ h < 10 → fmt_02d h = "0" +:+ str_of_int h)
  ∧ (0 ≤ h < 100 → String.length (fmt_02d h) = 2%nat).
Proof.
  unfold result. rewrite get_domain_code_run, get_variable_code_run. simpl.
  intros Hd Hm Hv. split; [|split; [|split]].
  - fold (result (build_url d v h mt) c). rewrite build_url_result.
    unfold url_outcome, maptype_outcome. rewrite Hd, Hv.
    destruct mt as [m|].
    + rewrite get_maptype_code_run in Hm. simpl in Hm. by rewrite Hm.
    + by subst mc.
  - apply int_of_fmt_02d.
  - intros Hh. unfold fmt_02d. by rewrite decide_True.
  - apply fmt_02d_length.
Qed.

Lemma build_url_address_witness :
  result (build_url "d1" "v1" 3 (Some "m1")) example_config
  = Returns
      "https://a.atmos.washington.edu/wrfrt/data/timeindep/images_dz/mzvz.03.0000.gif".
Proof.
  apply (build_url_address example_config "d1" "v1" 3 (Some "m1")
           "dz" "mz" "vz"); reflexivity.
Defined.

(** C1 as stated fails: with no maptype named by the empty string, the call
    with the maptype omitted returns an address and the call with the empty
    string raises. *)
Lemma omitted_maptype_is_not_empty_name :
  ¬ (∀ (c : WrfConfig) (d v : string) (h : Z) (dc vc : string),
       config_ok c →
       result (get_domain_code d) c = Returns dc →
       result (get_variable_code v) c = Returns vc →
       result (build_url d v h None) c
       = result (build_url d v h (Some ""%string)) c).
Proof.
  intros H.
  specialize (H example_config "d1"%string "v1"%string 3 "dz"%string
                "vz"%string (new_WrfConfig_ok _ _ _ _ _) eq_refl eq_refl).
  vm_compute in H. discriminate H.
Qed.

Lemma empty_name_absent_raises c d v h dc :
  config_ok c →
  ""%string ∉ name <$> maptype_codes c →
  result (get_domain_code d) c = Returns dc →
  result (build_url d v h (Some ""%string)) c = Raises (not_found "").
Proof.
  intros Hok Hm. unfold result at 1. rewrite get_domain_code_run. simpl.
  intros Hd. rewrite build_url_result. unfold url_outcome, maptype_outcome.
  rewrite Hd. destruct (config_ok_tables c Hok) as (_ & -> & _).
  unfold lookup_outcome. by rewrite dict_comp_lookup_None.
Qed.

(** C1, amended: when the maptype table resolves the empty name to the empty
    code, the call with the maptype omitted and the call with the empty
    string answer alike. *)
Theorem omitted_maptype_as_empty_code (c : WrfConfig) (d v : string) (h : Z) :
  result (get_maptype_code "") c = Returns ""%string →
  result (build_url d v h (Some ""%string)) c
  = result (build_url d v h None) c.
Proof.
  unfold result at 1. rewrite get_maptype_code_run. simpl. intros Hm.
  rewrite !build_url_result. unfold url_outcome.
  destruct (lookup_outcome (domains_table c) d) as [dc|x]; [|done].
  unfold maptype_outcome. by rewrite Hm.
Qed.

(** The same holds of any maptype name that resolves to the empty code. *)
Lemma empty_code_maptype_as_omitted c d v h m :
  result (get_maptype_code m) c = Returns ""%string →
  result (build_url d v h (Some m)) c = result (build_url d v h None) c.
Proof.
  unfold result at 1. rewrite get_maptype_code_run. simpl. intros Hm.
  rewrite !build_url_result. unfold url_outcome, maptype_outcome.
  by rewrite Hm.
Qed.

Lemma omitted_maptype_as_empty_code_witness :
  result (build_url "d1" "v1" 3 (Some ""%string)) empty_maptype_config
  = result (build_url "d1" "v1" 3 None) empty_maptype_config.
Proof.
  apply (omitted_maptype_as_empty_code empty_maptype_config "d1" "v1" 3).
  reflexivity.
Defined.

(** ** Lookup failures and duplicates *)

(** C6: each of the four getters raises the not-found error for a name that
    no entry of its list carries. *)
Theorem absent_name_raises (c : WrfConfig) (n : string) :
  config_ok c →
  (n ∉ name <$> domain_codes c →
     result (get_domain_code n) c = Raises (not_found n))
  ∧ (n ∉ name <$> maptype_codes c →
     result (get_maptype_code n) c = Raises (not_found n))
  ∧ (n ∉ name <$> variable_codes c →
     result (get_variable_code n) c = Raises (not_found n))
  ∧ (n ∉ schedule_name <$> forecast_schedules c →
     result (get_forecast_hours n) c = Raises (not_found n)).
Proof.
  intros Hok. destruct (config_ok_tables c Hok) as (Hd & Hm & Hv & Hs).
  unfold result.
  rewrite get_domain_code_run, get_maptype_code_run, get_variable_code_run,
    get_forecast_hours_run. simpl. rewrite Hd, Hm, Hv, Hs.
  unfold lookup_outcome.
  repeat split; intros Hn; by rewrite dict_comp_lookup_None.
Qed.

Lemma absent_name_raises_witness :
  result (get_domain_code "zz") example_config
  = Raises (ValueError "zz was not found").
Proof.
  apply (absent_name_raises example_config "zz").
  - repeat split; by left.
  - apply (bool_decide_unpack _). vm_compute. exact I.
Defined.

Lemma resolves_to_last_table {A V} (key : A → string) (val : A → V)
    (l : list A) getter memo c :
  (∀ n, result (getter n) c = lookup_outcome (dict_comp key val l) n) →
  (∀ n, memo (final (getter n) c) = dict_comp key val l) →
  resolves_to_last key val l getter memo c.
Proof.
  intros Hres Hmemo. split.
  - intros x Hx. rewrite Hres. unfold lookup_outcome.
    by rewrite (dict_comp_lookup_last key val l x Hx).
  - intros n0 n v. rewrite Hmemo. by intros ?%dict_comp_lookup_Some.
Qed.

(** C10: a name listed more than once resolves, and to the code (or hour
    list) of its last entry; the memoized table holds no other entry. *)
Theorem duplicate_name_resolves_to_last (c : WrfConfig) :
  config_ok c →
  resolves_to_last name code (domain_codes c) get_domain_code _domains c
  ∧ resolves_to_last name code (maptype_codes c) get_maptype_code
      _maptypes c
  ∧ resolves_to_last name code (variable_codes c) get_variable_code
      _variables c
  ∧ resolves_to_last schedule_name hours (forecast_schedules c)
      get_forecast_hours _schedules c.
Proof.
  intros Hok. destruct (config_ok_tables c Hok) as (Hd & Hm & Hv & Hs).
  split; [|split; [|split]]; apply resolves_to_last_table; intros n;
    unfold result, final.
  - by rewrite get_domain_code_run, Hd.
  - rewrite get_domain_code_run. simpl. unfold fill_domains.
    rewrite Hd. destruct Hok as ([He|He] & _); rewrite He.
    + by rewrite (proj2 (is_empty_spec ∅)).
    + by destruct (is_empty _).
  - by rewrite get_maptype_code_run, Hm.
  - rewrite get_maptype_code_run. simpl. unfold fill_maptypes.
    rewrite Hm. destruct Hok as (_ & [He|He] & _); rewrite He.
    + by rewrite (proj2 (is_empty_spec ∅)).
    + by destruct (is_empty _).
  - by rewrite get_variable_code_run, Hv.
  - rewrite get_variable_code_run. simpl. unfold fill_variables.
    rewrite Hv. destruct Hok as (_ & _ & [He|He] & _); rewrite He.
    + by rewrite (proj2 (is_empty_spec ∅)).
    + by destruct (is_empty _).
  - by rewrite get_forecast_hours_run, Hs.
  - rewrite get_forecast_hours_run. simpl. unfold fill_schedules.
    rewrite Hs. destruct Hok as (_ & _ & _ & [He|He]); rewrite He.
    + by rewrite (proj2 (is_empty_spec ∅)).
    + by destruct (is_empty _).
Qed.

Lemma duplicate_name_resolves_to_last_witness :
  result (get_domain_code "d1") example_config = Returns "dz"%string
  ∧ result (get_forecast_hours "s") example_config = Returns [0; 6].
Proof.
  destruct (duplicate_name_resolves_to_last example_config) as (Hd & _ & _ & Hs).
  - repeat split; by left.
  - split.
    + apply (proj1 Hd {| name := "d1"; code := "dz" |}).
      exists [{| name := "d1"; code := "dc" |}; {| name := "d2"; code := "dd" |}], [].
      split; [reflexivity|]. simpl. apply not_elem_of_nil.
    + apply (proj1 Hs {| schedule_name := "s"; hours := [0; 6] |}).
      exists [{| schedule_name := "s"; hours := [0; 12] |}], [].
      split; [reflexivity|]. simpl. apply not_elem_of_nil.
Defined.

(** ** Ordered dictionaries *)

Section ordered_dict.
Context {K : Type} `{EqDecision K} {V : Type}.
Implicit Types (d : list (K * V)) (k : K) (v : V).

Lemma od_get_set_eq k v d : OD.get k (OD.set k v d) = Some v.
Proof.
  induction d as [|[k' v'] d IH]; simpl.
  - by rewrite decide_True.
  - destruct (decide (k = k')) as [->|Hne]; simpl.
    + by rewrite decide_True.
    + by rewrite decide_False.
Qed.

Lemma od_get_set_ne k k' v d :
  k ≠ k' → OD.get k' (OD.set k v d) = OD.get k' d.
Proof.
  intros Hne. induction d as [|[k0 v0] d IH]; simpl.
  - by rewrite decide_False.
  - destruct (decide (k = k0)) as [->|Hne0]; simpl.
    + by rewrite !decide_False.
    + by rewrite IH.
Qed.

Lemma od_set_set k v v' d : OD.set k v (OD.set k v' d) = OD.set k v d.
Proof.
  induction d as [|[k0 v0] d IH]; simpl.
  - by rewrite decide_True.
  - destruct (decide (k = k0)) as [->|Hne]; simpl.
    + by rewrite decide_True.
    + by rewrite decide_False, IH.
Qed.

Lemma od_get_Some_elem k v d : OD.get k d = Some v → (k, v) ∈ d.
Proof.
  induction d as [|[k0 v0] d IH]; simpl; [done|].
  destruct (decide (k = k0)) as [->|Hne].
  - intros [= ->]. left.
  - intros ?. right. by apply IH.
Qed.

Lemma od_get_None k d : OD.get k d = None ↔ k ∉ OD.keys d.
Proof.
  unfold OD.keys. induction d as [|[k0 v0] d IH]; csimpl.
  - split; [intros _; apply not_elem_of_nil|done].
  - rewrite not_elem_of_cons. destruct (decide (k = k0)) as [->|Hne].
    + split; [done|]. by intros [? _].
    + rewrite IH. split; [by intros ?|by intros [_ ?]].
Qed.

Lemma od_get_elem k v d : OD.wf d → (k, v) ∈ d → OD.get k d = Some v.
Proof.
  unfold OD.wf, OD.keys. induction d as [|[k0 v0] d IH]; csimpl.
  - by intros _ ?%elem_of_nil.
  - intros [Hk0 Hd]%NoDup_cons [[= -> ->]|Hin]%elem_of_cons.
    + by rewrite decide_True.
    + rewrite decide_False; [by apply IH|].
      intros ->. apply Hk0. apply list_elem_of_fmap. by exists (k0, v).
Qed.

Lemma od_mem_true k d : OD.mem k d = true ↔ k ∈ OD.keys d.
Proof.
  unfold OD.mem. destruct (OD.get k d) as [v|] eqn:Hg.
  - split; [intros _|done].
    apply od_get_Some_elem in Hg. unfold OD.keys.
    apply list_elem_of_fmap. by exists (k, v).
  - split; [done|]. by apply od_get_None in Hg.
Qed.

(** An assignment keeps the place of a key that is present and puts a new
    key last. *)
Lemma od_keys_set k v d :
  OD.keys (OD.set k v d)
  = if OD.mem k d then OD.keys d else OD.keys d ++ [k].
Proof.
  unfold OD.mem, OD.keys. induction d as [|[k0 v0] d IH]; csimpl; [done|].
  destruct (decide (k = k0)) as [->|Hne]; csimpl; [done|].
  rewrite IH. by destruct (OD.get k d).
Qed.

Lemma od_wf_set k v d : OD.wf d → OD.wf (OD.set k v d).
Proof.
  unfold OD.wf. rewrite od_keys_set.
  destruct (OD.mem k d) eqn:Hm; [done|]. intros Hd.
  apply NoDup_app. split; [done|]. split; [|apply NoDup_singleton].
  intros x Hx ->%list_elem_of_singleton.
  apply od_mem_true in Hx. congruence.
Qed.

Lemma od_get_update_notin k d e :
  k ∉ OD.keys e → OD.get k (OD.update d e) = OD.get k d.
Proof.
  unfold OD.update, OD.keys. revert d.
  induction e as [|[k0 v0] e IH]; intros d; csimpl; [done|].
  rewrite not_elem_of_cons. intros [Hne Hk].
  by rewrite IH, od_get_set_ne.
Qed.
End ordered_dict.

(** ** The annotation store: what each call does *)

Lemma save_run s :
  save s = (Returns tt, set_written (written s ++ [document_of s]) s).
Proof. reflexivity. Qed.

Lemma set_annotations_run d i anns s :
  set_annotations d i anns s
  = (Returns tt,
     {| annotations := store_set d i anns (annotations s);
        geographic_points := geographic_points s;
        written := written s
          ++ [{| doc_geographic_points := geographic_points s;
                 doc_domains := store_set d i anns (annotations s) |}] |}).
Proof.
  unfold set_annotations, bind, get_state, when, modify, save, ret,
    store_set, OD.mem.
  destruct (OD.get d (annotations s)) as [imgs|] eqn:Hg; simpl.
  - by rewrite Hg.
  - by rewrite od_get_set_eq, od_set_set.
Qed.

Lemma annotations_at_store_set d i anns a :
  annotations_at d i (store_set d i anns a) = anns.
Proof.
  unfold annotations_at, store_set. rewrite od_get_set_eq. simpl.
  by rewrite od_get_set_eq.
Qed.

Lemma annotations_at_store_set_ne d i d' i' anns a :
  (d, i) ≠ (d', i') →
  annotations_at d' i' (store_set d i anns a) = annotations_at d' i' a.
Proof.
  intros Hne. unfold annotations_at, store_set.
  destruct (decide (d = d')) as [->|Hd].
  - rewrite od_get_set_eq. simpl.
    rewrite od_get_set_ne by congruence. done.
  - by rewrite od_get_set_ne.
Qed.

Lemma add_annotation_run d i ann s :
  add_annotation d i ann s
  = set_annotations d i (annotations_at d i (annotations s) ++ [ann]) s.
Proof. reflexivity. Qed.

Lemma list_pop_in_range {St A} (l : list A) (k : Z) (s : St) :
  in_range k l → list_pop l k s = (Returns (delete (Z.to_nat k) l), s).
Proof.
  unfold in_range, list_pop. intros Hk.
  rewrite (bool_decide_eq_false_2 (k < 0)) by lia.
  by rewrite bool_decide_eq_true_2.
Qed.

Lemma list_setitem_in_range {St A} (l : list A) (k : Z) (x : A) (s : St) :
  in_range k l →
  list_setitem l k x s = (Returns (<[Z.to_nat k := x]> l), s).
Proof.
  unfold in_range, list_setitem. intros Hk.
  rewrite (bool_decide_eq_false_2 (k < 0)) by lia.
  by rewrite bool_decide_eq_true_2.
Qed.

Lemma remove_annotation_in_range d i k s :
  in_range k (annotations_at d i (annotations s)) →
  remove_annotation d i k s
  = set_annotations d i
      (delete (Z.to_nat k) (annotations_at d i (annotations s))) s.
Proof.
  intros Hk. unfold remove_annotation, bind, get_annotations, gets.
  rewrite bool_decide_eq_true_2 by done.
  by rewrite list_pop_in_range.
Qed.

Lemma remove_annotation_out_of_range d i k s :
  ¬ in_range k (annotations_at d i (annotations s)) →
  remove_annotation d i k s = (Returns tt, s).
Proof.
  intros Hk. unfold remove_annotation, bind, get_annotations, gets.
  by rewrite bool_decide_eq_false_2.
Qed.

Lemma update_annotation_in_range d i k ann s :
  in_range k (annotations_at d i (annotations s)) →
  update_annotation d i k ann s
  = set_annotations d i
      (<[Z.to_nat k := ann]> (annotations_at d i (annotations s))) s.
Proof.
  intros Hk. unfold update_annotation, bind, get_annotations, gets.
  rewrite bool_decide_eq_true_2 by done.
  by rewrite list_setitem_in_range.
Qed.

Lemma update_annotation_out_of_range d i k ann s :
  ¬ in_range k (annotations_at d i (annotations s)) →
  update_annotation d i k ann s = (Returns tt, s).
Proof.
  intros Hk. unfold update_annotation, bind, get_annotations, gets.
  by rewrite bool_decide_eq_false_2.
Qed.

Lemma set_annotations_writes d i anns s :
  writes_document (set_annotations d i anns) s.
Proof. unfold writes_document, final. by rewrite set_annotations_run. Qed.

(** ** Writes to the durable document *)

(** C3 as stated fails: updating a point whose key is absent writes
    nothing. *)
Lemma absent_key_is_not_written :
  ¬ (∀ (s : AnnotationManager) (key nm : string) (lat lon : pyval)
       (d i : string) (anns : list pydict) (ann : pydict) (k : Z),
       writes_document (add_geographic_point key nm lat lon) s
       ∧ writes_document (update_geographic_point key nm lat lon) s
       ∧ writes_document (remove_geographic_point key) s
       ∧ writes_document (set_annotations d i anns) s
       ∧ writes_document (add_annotation d i ann) s
       ∧ writes_document (remove_annotation d i k) s
       ∧ writes_document (update_annotation d i k ann) s).
Proof.
  intros H.
  destruct (H empty_manager "p"%string "P"%string (PyFloat 47 0)
              (PyFloat (-122) 0) "d"%string "i"%string [] [] 0)
    as (_ & Hupd & _).
  vm_compute in Hupd. discriminate Hupd.
Qed.

(** C3, amended: a call that changes the store rewrites the whole document
    (adding a point, setting or adding annotations, always; updating or
    removing a point whose key is present; removing or updating an annotation
    at an index in range), and a call with an absent key or an index out of
    range writes nothing. *)
Theorem mutations_write_document (s : AnnotationManager) (key nm : string)
    (lat lon : pyval) (d i : string) (anns : list pydict) (ann : pydict)
    (k : Z) :
  writes_document (add_geographic_point key nm lat lon) s
  ∧ writes_document (set_annotations d i anns) s
  ∧ writes_document (add_annotation d i ann) s
  ∧ (OD.mem key (geographic_points s) = true →
       writes_document (update_geographic_point key nm lat lon) s
       ∧ writes_document (remove_geographic_point key) s)
  ∧ (OD.mem key (geographic_points s) = false →
       writes_nothing (update_geographic_point key nm lat lon) s
       ∧ writes_nothing (remove_geographic_point key) s)
  ∧ (0 ≤ k < Z.of_nat (length (annotations_at d i (annotations s))) →
       writes_document (remove_annotation d i k) s
       ∧ writes_document (update_annotation d i k ann) s)
  ∧ (¬ 0 ≤ k < Z.of_nat (length (annotations_at d i (annotations s))) →
       writes_nothing (remove_annotation d i k) s
       ∧ writes_nothing (update_annotation d i k ann) s).
Proof.
  split; [done|]. split; [apply set_annotations_writes|].
  split; [apply (set_annotations_writes d i _ s)|].
  split; [|split; [|split]].
  - intros Hm. unfold writes_document, final, update_geographic_point,
      remove_geographic_point, bind, get_state. by rewrite Hm.
  - intros Hm. unfold writes_nothing, update_geographic_point,
      remove_geographic_point, bind, get_state. by rewrite Hm.
  - intros Hk. unfold writes_document, final.
    rewrite remove_annotation_in_range, update_annotation_in_range by done.
    split; apply set_annotations_writes.
  - intros Hk. unfold writes_nothing.
    by rewrite remove_annotation_out_of_range,
      update_annotation_out_of_range.
Qed.

Lemma mutations_write_document_witness :
  writes_document (remove_annotation "d" "i" 1) example_manager
  ∧ writes_nothing (remove_annotation "d" "i" 2) example_manager
  ∧ writes_nothing (update_geographic_point "q" "Q" PyNone PyNone)
      example_manager.
Proof.
  pose proof (mutations_write_document example_manager "q" "Q" PyNone PyNone
                "d" "i" [] [] 1) as (_ & _ & _ & _ & Habs & Hin & _).
  pose proof (mutations_write_document example_manager "q" "Q" PyNone PyNone
                "d" "i" [] [] 2) as (_ & _ & _ & _ & _ & _ & Hout).
  split; [apply Hin; simpl; lia|].
  split; [apply Hout; simpl; lia|].
  apply Habs. reflexivity.
Defined.

(** ** Addressing by position *)

(** C4: an index below zero or at or beyond the length leaves the manager as
    it was and raises nothing; an index in range removes, or replaces, the
    element at that position and no other. *)
Theorem index_addressing (s : AnnotationManager) (d i : string) (k : Z)
    (ann : pydict) :
  let anns := annotations_at d i (annotations s) in
  (k < 0 ∨ Z.of_nat (length anns) ≤ k →
     remove_annotation d i k s = (Returns tt, s)
     ∧ update_annotation d i k ann s = (Returns tt, s))
  ∧ (0 ≤ k < Z.of_nat (length anns) →
       result (remove_annotation d i k) s = Returns tt
       ∧ annotations_at d i (annotations (final (remove_annotation d i k) s))
         = take (Z.to_nat k) anns ++ drop (S (Z.to_nat k)) anns
       ∧ result (update_annotation d i k ann) s = Returns tt
       ∧ annotations_at d i
           (annotations (final (update_annotation d i k ann) s))
         = take (Z.to_nat k) anns ++ ann :: drop (S (Z.to_nat k)) anns).
Proof.
  intros anns. split.
  - intros Hk. assert (¬ in_range k anns) by (unfold in_range; lia).
    by rewrite remove_annotation_out_of_range,
      update_annotation_out_of_range.
  - intros Hk. unfold result, final.
    rewrite remove_annotation_in_range, update_annotation_in_range by done.
    rewrite !set_annotations_run. simpl.
    rewrite !annotations_at_store_set. fold anns.
    rewrite delete_take_drop, insert_take_drop by lia. done.
Qed.

Lemma index_addressing_witness :
  remove_annotation "d" "i" (-1) example_manager
    = (Returns tt, example_manager)
  ∧ annotations_at "d" "i"
      (annotations (final (remove_annotation "d" "i" 0) example_manager))
    = [[("pixel_x", PyInt 3); ("pixel_y", PyInt 4);
        ("point", PyStr "q")]]%string.
Proof.
  pose proof (index_addressing example_manager "d" "i" (-1) [])
    as (Hout & _).
  pose proof (index_addressing example_manager "d" "i" 0 []) as (_ & Hin).
  split.
  - apply Hout. left. lia.
  - apply Hin. simpl. lia.
Defined.

(** C8: adding an annotation and then removing at the last index of the
    list so obtained gives back the list there was. *)
Theorem add_then_remove_last (s : AnnotationManager) (d i : string)
    (ann : pydict) :
  let s1 := final (add_annotation d i ann) s in
  let last := Z.of_nat (length (annotations_at d i (annotations s1))) - 1 in
  result (add_annotation d i ann) s = Returns tt
  ∧ result (remove_annotation d i last) s1 = Returns tt
  ∧ annotations_at d i (annotations (final (remove_annotation d i last) s1))
    = annotations_at d i (annotations s).
Proof.
  intros s1 last. subst s1 last. unfold result, final.
  rewrite add_annotation_run, set_annotations_run. simpl.
  rewrite annotations_at_store_set.
  set (anns := annotations_at d i (annotations s)).
  rewrite length_app. simpl.
  rewrite remove_annotation_in_range; simpl;
    rewrite ?annotations_at_store_set.
  2:{ unfold in_range. rewrite length_app. simpl. lia. }
  rewrite set_annotations_run. simpl. rewrite annotations_at_store_set.
  split; [done|]. split; [done|].
  replace (Z.to_nat (Z.of_nat (length anns + 1) - 1)) with (length anns + 0)%nat
    by lia.
  rewrite delete_take_drop, take_app_add, drop_app_ge by (simpl; lia).
  simpl. rewrite drop_ge by (simpl; lia). by rewrite !app_nil_r.
Qed.

(** ** Removing a point *)

(** C9: removing a point never touches the annotations dict, so an
    annotation that names the removed key still names it; with the key
    absent the call changes nothing at all. *)
Theorem remove_point_keeps_annotations (s : AnnotationManager)
    (key : string) :
  result (remove_geographic_point key) s = Returns tt
  ∧ annotations (final (remove_geographic_point key) s) = annotations s
  ∧ (OD.mem key (geographic_points s) = false →
       remove_geographic_point key s = (Returns tt, s))
  ∧ (∀ d i n ann,
       annotations_at d i (annotations s) !! n = Some ann →
       OD.get "point"%string ann = Some (PyStr key) →
       annotations_at d i
         (annotations (final (remove_geographic_point key) s)) !! n
       = Some ann).
Proof.
  unfold result, final, remove_geographic_point, bind, get_state.
  destruct (OD.mem key (geographic_points s)); simpl; by repeat split.
Qed.

Lemma remove_point_keeps_annotations_witness :
  remove_geographic_point "zz" example_manager = (Returns tt, example_manager)
  ∧ annotations_at "d" "i"
      (annotations (final (remove_geographic_point "p") example_manager))
      !! 0%nat
    = Some [("pixel_x", PyInt 1); ("pixel_y", PyInt 2);
            ("point", PyStr "p")]%string.
Proof.
  pose proof (remove_point_keeps_annotations example_manager "zz")
    as (_ & _ & Habs & _).
  pose proof (remove_point_keeps_annotations example_manager "p")
    as (_ & _ & _ & Hkeep).
  split; [by apply Habs|]. by apply Hkeep.
Defined.

Lemma od_get_del {V} (k : string) (d : list (string * V)) :
  OD.wf d → OD.get k (OD.del k d) = None.
Proof.
  unfold OD.wf, OD.keys. induction d as [|[k0 v0] d IH]; csimpl; [done|].
  intros [Hk0 Hd]%NoDup_cons. destruct (decide (k = k0)) as [->|Hne].
  - by apply od_get_None.
  - simpl. rewrite decide_False by done. by apply IH.
Qed.

(** The point itself is gone afterwards: the reference dangles. *)
Lemma remove_point_removes s key :
  OD.wf (geographic_points s) →
  OD.get key (geographic_points (final (remove_geographic_point key) s))
  = None.
Proof.
  intros Hwf. unfold final, remove_geographic_point, bind, get_state, OD.mem.
  destruct (OD.get key (geographic_points s)) eqn:Hg; simpl; [|done].
  by apply od_get_del.
Qed.

(** ** Flattening the store *)

Lemma get_all_annotations_run s :
  get_all_annotations s = (Returns (flattened (annotations s)), s).
Proof. reflexivity. Qed.

Lemma flattened_length a : length (flattened a) = total_annotations a.
Proof.
  unfold flattened, total_annotations.
  induction a as [|[d imgs] a IH]; [done|].
  rewrite bind_cons, length_app, IH. simpl. f_equal.
  induction imgs as [|[i anns] imgs IHi]; [done|].
  rewrite bind_cons, length_app, IHi, length_imap. done.
Qed.

Lemma annotations_at_elem a d imgs i anns :
  store_wf a → (d, imgs) ∈ a → (i, anns) ∈ imgs →
  annotations_at d i a = anns.
Proof.
  intros [Ha Himgs] Hd Hi. unfold annotations_at.
  rewrite (od_get_elem d imgs a Ha Hd). simpl.
  by rewrite (od_get_elem i anns imgs (Himgs d imgs Hd) Hi).
Qed.

Lemma address_of_tagged d i k ann :
  plain ann → address_of (tagged d i k ann) = Some (d, i, k).
Proof.
  intros Hp. unfold address_of, tagged.
  rewrite !od_get_update_notin
    by (apply Hp; unfold reserved; set_solver).
  simpl. rewrite bool_decide_eq_true_2 by lia. by rewrite Nat2Z.id.
Qed.

Lemma flattened_stands_for a :
  store_wf a → store_plain a →
  Forall2 (stands_for a) (flattened a) (addresses a).
Proof.
  intros Hwf Hplain. unfold flattened, addresses, OD.keys.
  apply Forall2_bind, Forall2_fmap_r, Forall_Forall2_diag, Forall_forall.
  intros [d imgs] Hd. simpl.
  rewrite (od_get_elem d imgs a (proj1 Hwf) Hd). simpl.
  apply Forall2_bind, Forall2_fmap_r, Forall_Forall2_diag, Forall_forall.
  intros [i anns] Hi. simpl.
  rewrite (annotations_at_elem a d imgs i anns Hwf Hd Hi).
  apply Forall2_same_length_lookup_2.
  { by rewrite length_imap, length_fmap, length_seq. }
  intros k e dik. rewrite list_lookup_imap, list_lookup_fmap.
  destruct (anns !! k) as [ann|] eqn:Hk; [|done].
  rewrite lookup_seq_lt by (by apply lookup_lt_Some in Hk).
  simpl. intros [= <-] [= <-].
  exists ann. simpl.
  rewrite (annotations_at_elem a d imgs i anns Hwf Hd Hi).
  split; [done|]. split; [done|].
  apply address_of_tagged. apply (Hplain d i k).
  by rewrite (annotations_at_elem a d imgs i anns Hwf Hd Hi).
Qed.

Lemma addresses_elem a d i k :
  (d, i, k) ∈ addresses a ↔ is_Some (annotations_at d i a !! k).
Proof.
  unfold addresses. rewrite lookup_lt_is_Some. split.
  - intros (d' & (i' & Hk & Hi)%list_elem_of_bind & Hd)%list_elem_of_bind.
    apply list_elem_of_fmap in Hk as (k' & [= -> -> ->] & Hk).
    apply elem_of_seq in Hk. lia.
  - intros Hk. unfold annotations_at in Hk.
    destruct (OD.get d a) as [imgs|] eqn:Hd; simpl in Hk; [|lia].
    destruct (OD.get i imgs) as [anns|] eqn:Hi; simpl in Hk; [|lia].
    apply list_elem_of_bind. exists d. split.
    + apply list_elem_of_bind. exists i. rewrite Hd. simpl. split.
      * apply list_elem_of_fmap. exists k. split; [done|].
        apply elem_of_seq. unfold annotations_at. rewrite Hd. simpl.
        rewrite Hi. simpl. lia.
      * apply od_get_Some_elem in Hi. unfold OD.keys.
        apply list_elem_of_fmap. by exists (i, anns).
    + apply od_get_Some_elem in Hd. unfold OD.keys.
      apply list_elem_of_fmap. by exists (d, imgs).
Qed.

Lemma addresses_NoDup a : store_wf a → NoDup (addresses a).
Proof.
  intros [Ha Himgs]. unfold addresses. apply NoDup_bind; [| |exact Ha].
  - intros d1 d2 [[d i] k] _ _
      (i1 & (k1 & [= -> -> ->] & _)%list_elem_of_fmap & _)%list_elem_of_bind
      (i2 & (k2 & [= <- _ _] & _)%list_elem_of_fmap & _)%list_elem_of_bind.
    done.
  - intros d Hd. apply NoDup_bind.
    + intros i1 i2 [[d' i] k] _ _
        (k1 & [= -> -> ->] & _)%list_elem_of_fmap
        (k2 & [= <- _] & _)%list_elem_of_fmap.
      done.
    + intros i _. apply NoDup_fmap_2; [|apply NoDup_seq].
      by intros k1 k2 [= ->].
    + destruct (OD.get d a) as [imgs|] eqn:Hg; simpl; [|apply NoDup_nil_2].
      apply (Himgs d imgs). by apply od_get_Some_elem.
Qed.

(** C7 at a store whose one annotation, at position 0 of its list, has a
    field of its own named [index] with the value 7: [get_all_annotations]
    puts the annotation's own fields after the three it adds, so the element
    it returns has 7 under [index], and the address read from the element is
    not the address of the annotation. *)
Theorem own_index_field_replaces_the_position :
  annotations_at "d" "i" (annotations index_field_manager) !! 0%nat
    = Some [("pixel_x", PyInt 1); ("index", PyInt 7)]%string
  ∧ result get_all_annotations index_field_manager
    = Returns [[("domain", PyStr "d"); ("image", PyStr "i");
                ("index", PyInt 7); ("pixel_x", PyInt 1)]]%string
  ∧ addresses (annotations index_field_manager) = [("d", "i", 0%nat)]%string
  ∧ address_of <$> flattened (annotations index_field_manager)
    = [Some ("d", "i", 7%nat)]%string
  ∧ ¬ carries_addresses index_field_manager.
Proof.
  split; [done|]. split; [done|]. split; [done|]. split; [done|].
  intros H. specialize (H _ eq_refl). vm_compute in H. discriminate H.
Qed.

(** X22: the flattened list has as many elements as the store has
    annotations, whatever they hold; the addresses of a store are pairwise
    different and are those of its annotations; and in a store where no
    annotation has a field of its own named [domain], [image] or [index],
    the list holds, element by element, the stored annotations tagged with
    their addresses, in the order domains, then images of the domain, then
    positions. *)
Theorem get_all_annotations_tags_positions (s : AnnotationManager) :
  store_wf (annotations s) →
  ∃ l, get_all_annotations s = (Returns l, s)
       ∧ length l = total_annotations (annotations s)
       ∧ NoDup (addresses (annotations s))
       ∧ (∀ d i k, (d, i, k) ∈ addresses (annotations s)
                   ↔ is_Some (annotations_at d i (annotations s) !! k))
       ∧ (store_plain (annotations s) →
          Forall2 (stands_for (annotations s)) l (addresses (annotations s))
          ∧ address_of <$> l = Some <$> addresses (annotations s)).
Proof.
  intros Hwf. exists (flattened (annotations s)).
  split; [apply get_all_annotations_run|].
  split; [apply flattened_length|].
  split; [by apply addresses_NoDup|]. split; [apply addresses_elem|].
  intros Hplain.
  pose proof (flattened_stands_for _ Hwf Hplain) as Hall.
  split; [done|].
  apply list_eq_Forall2, Forall2_fmap.
  eapply Forall2_impl; [exact Hall|].
  intros e dik (ann & _ & _ & ->). done.
Qed.

Lemma example_manager_wf : store_wf (annotations example_manager).
Proof.
  split.
  - apply (bool_decide_unpack _). vm_compute. exact I.
  - intros d imgs Hd. simpl in Hd.
    repeat (apply elem_of_cons in Hd as [[= -> ->]|Hd];
            [apply (bool_decide_unpack _); vm_compute; exact I|]).
    by apply elem_of_nil in Hd.
Qed.

Lemma example_manager_plain : store_plain (annotations example_manager).
Proof.
  intros d i k ann H key Hkey. unfold annotations_at in H. simpl in H.
  unfold reserved in Hkey.
  repeat (case_decide; simpl in H);
    destruct k as [|[|k]]; simplify_eq/=;
    repeat (apply elem_of_cons in Hkey as [->|Hkey];
            [apply (bool_decide_unpack _); vm_compute; exact I|]);
    by apply elem_of_nil in Hkey.
Qed.

Lemma get_all_annotations_tags_positions_witness :
  address_of <$> flattened (annotations example_manager)
  = Some <$> addresses (annotations example_manager).
Proof.
  destruct (get_all_annotations_tags_positions example_manager
              example_manager_wf) as (l & Hrun & _ & _ & _ & Hplain).
  rewrite get_all_annotations_run in Hrun. injection Hrun as <-.
  apply Hplain, example_manager_plain.
Defined.

Example flattened_example :
  address_of <$> flattened (annotations example_manager)
  = [Some ("d", "i", 0%nat); Some ("d", "i", 1%nat);
     Some ("e", "j", 0%nat)]%string.
Proof. reflexivity. Qed.

(** Insertion order: a first write to a new domain puts it after the
    domains there are, and a write to a domain that is present keeps the
    order of the domains. *)
Lemma set_annotations_domain_order d i anns s :
  OD.keys (annotations (final (set_annotations d i anns) s))
  = if OD.mem d (annotations s) then OD.keys (annotations s)
    else OD.keys (annotations s) ++ [d].
Proof.
  unfold final. rewrite set_annotations_run. simpl. unfold store_set.
  apply od_keys_set.
Qed.

(** The same for the images of a domain. *)
Lemma set_annotations_image_order d i anns s :
  let imgs a := default [] (OD.get d a) in
  OD.keys (imgs (annotations (final (set_annotations d i anns) s)))
  = if OD.mem i (imgs (annotations s))
    then OD.keys (imgs (annotations s))
    else OD.keys (imgs (annotations s)) ++ [i].
Proof.
  intros imgs. unfold final, imgs. rewrite set_annotations_run. simpl.
  unfold store_set. rewrite od_get_set_eq. simpl. apply od_keys_set.
Qed.

(** The calls keep the annotations dict a dict of dicts. *)
Lemma store_set_wf d i anns a : store_wf a → store_wf (store_set d i anns a).
Proof.
  intros [Ha Himgs]. unfold store_set. split; [by apply od_wf_set|].
  intros d' imgs' Hin.
  destruct (decide (d' = d)) as [->|Hne].
  - pose proof (od_get_elem d imgs' _ (od_wf_set d _ a Ha) Hin) as Hg.
    rewrite od_get_set_eq in Hg. injection Hg as <-.
    apply od_wf_set.
    destruct (OD.get d a) as [imgs|] eqn:Hd; simpl; [|apply NoDup_nil_2].
    apply (Himgs d). by apply od_get_Some_elem.
  - pose proof (od_get_elem d' imgs' _ (od_wf_set d _ a Ha) Hin) as Hg.
    rewrite od_get_set_ne in Hg by done.
    apply (Himgs d'). by apply od_get_Some_elem.
Qed.

(** ** Paths and addresses *)

Lemma string_app_length (a b : string) :
  String.length (a +:+ b) = (String.length a + String.length b)%nat.
Proof. induction a as [|c a IH]; simpl; [done|]. by rewrite IH. Qed.

Lemma string_app_inj_l (a b b' : string) : a +:+ b = a +:+ b' → b = b'.
Proof. induction a as [|c a IH]; simpl; [done|]. intros [= ?]. auto. Qed.

Lemma string_app_inj_r (a a' b : string) : a +:+ b = a' +:+ b → a = a'.
Proof.
  revert a'. induction a as [|c a IH]; intros [|c' a'] H; simpl in *.
  - done.
  - apply (f_equal String.length) in H.
    rewrite !string_app_length in H. simpl in H.
    rewrite ?string_app_length in H. lia.
  - apply (f_equal String.length) in H.
    rewrite !string_app_length in H. simpl in H.
    rewrite ?string_app_length in H. lia.
  - injection H as -> H. f_equal. by apply IH.
Qed.

Lemma address_inj dc mc vc h h' :
  address dc mc vc h = address dc mc vc h' → h = h'.
Proof.
  unfold address. intros H.
  do 7 apply string_app_inj_l in H.
  apply string_app_inj_r in H. by apply fmt_02d_inj.
Qed.

Lemma no_sep_app a b : no_sep a = true → no_sep b = true →
  no_sep (a +:+ b) = true.
Proof.
  intros Ha Hb. induction a as [|c a IH]; [done|].
  simpl in Ha. apply andb_prop in Ha as [Hc Ha].
  change (negb (Ascii.eqb c "/") && no_sep (a +:+ b) = true).
  by rewrite Hc, IH.
Qed.

Lemma split_sep_no_sep s : no_sep s = true → split_sep s = [s].
Proof.
  induction s as [|c s IH]; [done|]. simpl.
  intros [Hc Hs]%andb_prop. apply negb_true_iff in Hc.
  by rewrite Hc, IH.
Qed.

Lemma no_sep_digits d : no_sep (NilEmpty.string_of_uint d) = true.
Proof. induction d; simpl; auto. Qed.

Lemma no_sep_uint d : no_sep (NilZero.string_of_uint d) = true.
Proof. destruct d; try done; apply (no_sep_digits (_ d)). Qed.

Lemma no_sep_str_of_int z : no_sep (str_of_int z) = true.
Proof.
  unfold str_of_int, NilZero.string_of_int.
  destruct (Z.to_int z); simpl; apply no_sep_uint.
Qed.

Lemma no_sep_hour_file h : no_sep (hour_file h) = true.
Proof.
  unfold hour_file, fmt_02d.
  apply (no_sep_app "hour"); [done|]. apply no_sep_app; [|done].
  case_decide; [apply (no_sep_app "0"); [done|]|]; apply no_sep_str_of_int.
Qed.

(** The name of an hour's file is one part: joining it adds it as it is. *)
Lemma path_div_hour_file p h : (p / hour_file h)%path = p ++ [hour_file h].
Proof.
  unfold path_div, parts_of.
  rewrite split_sep_no_sep by apply no_sep_hour_file.
  change (root_of (hour_file h)) with (@None string).
  rewrite filter_cons_True; [done|]. by split.
Qed.

Lemma target_path_split out layer h :
  target_path out layer h = target_dir out layer ++ [hour_file h].
Proof. apply path_div_hour_file. Qed.

Lemma hour_file_inj h h' : hour_file h = hour_file h' → h = h'.
Proof.
  unfold hour_file. intros H.
  apply string_app_inj_l, string_app_inj_r in H. by apply fmt_02d_inj.
Qed.

Lemma target_path_inj out layer h h' :
  target_path out layer h = target_path out layer h' → h = h'.
Proof.
  rewrite !target_path_split. intros H.
  apply app_inj_tail in H as [_ H]. by apply hour_file_inj.
Qed.

Lemma target_path_length out layer h :
  length (target_path out layer h) = S (length (target_dir out layer)).
Proof. rewrite target_path_split, length_app. simpl. lia. Qed.

Lemma parent_snoc (p : Path) (x : string) :
  x ≠ "/"%string → x ≠ "//"%string → parent (p ++ [x]) = p.
Proof.
  intros H1 H2. destruct p as [|y p].
  - simpl. rewrite bool_decide_eq_false_2; [done|]. by intros [?|?].
  - destruct p as [|z p]; [done|].
    change (parent ((y :: z :: p) ++ [x]))
      with (removelast ((y :: z :: p) ++ [x])).
    apply removelast_last.
Qed.

Lemma target_path_parent out layer h :
  parent (target_path out layer h) = target_dir out layer.
Proof. rewrite target_path_split. by apply parent_snoc. Qed.

Lemma layer_url_tables e e' layer h :
  same_tables (config e) (config e') →
  layer_url e' layer h = layer_url e layer h.
Proof.
  intros Ht. unfold layer_url. rewrite !build_url_result.
  symmetry. by apply url_outcome_tables.
Qed.

Lemma layer_url_inj e layer h h' url :
  layer_url e layer h = Returns url → layer_url e layer h' = Returns url →
  h = h'.
Proof.
  unfold layer_url. rewrite !build_url_result.
  unfold url_outcome, maptype_outcome.
  destruct (lookup_outcome (domains_table _) _) as [dc|]; [|done].
  destruct (lookup_outcome (maptypes_table _) _) as [mc|]; [|done].
  destruct (lookup_outcome (variables_table _) _) as [vc|]; [|done].
  intros H1 H2.
  assert (address dc mc vc h = address dc mc vc h') as H by congruence.
  by apply address_inj in H.
Qed.

(** ** The file system calls *)

Lemma mkdir_walk_cons full pre s rest e :
  mkdir_walk full pre (s :: rest) e
  = match fs e !! (pre ++ [s]) with
    | Some Directory => mkdir_walk full (pre ++ [s]) rest e
    | Some (File _) =>
        (Raises (match rest with
                 | [] => FileExistsError full
                 | _ => NotADirectoryError full
                 end), e)
    | None =>
        mkdir_walk full (pre ++ [s]) rest
          (set_fs (<[pre ++ [s] := Directory]> (fs e)) e)
    end.
Proof.
  simpl. unfold bind at 1. unfold get_state at 1.
  destruct (fs e !! (pre ++ [s])) as [[data|]|]; try done.
Qed.

(** [mkdir] touches the file system only, and there only adds directories,
    none of them below the path it is given. *)
Lemma mkdir_walk_frame full rest : ∀ pre e r e',
  mkdir_walk full pre rest e = (r, e') →
  config e' = config e ∧ remote e' = remote e ∧ requests e' = requests e
  ∧ (∀ q, is_Some (fs e !! q) → fs e' !! q = fs e !! q)
  ∧ (∀ q, fs e' !! q = fs e !! q
          ∨ (fs e' !! q = Some Directory
             ∧ (length q ≤ length pre + length rest)%nat)).
Proof.
  induction rest as [|s rest IH]; intros pre e r e'.
  - intros [= <- <-]. repeat split; auto.
  - rewrite mkdir_walk_cons.
    destruct (fs e !! (pre ++ [s])) as [[data|]|] eqn:Hq.
    + intros [= <- <-]. repeat split; auto.
    + intros Hw. destruct (IH _ _ _ _ Hw) as (Hc & Hr & Hs & Hm & Hd).
      repeat split; try done.
      intros q. destruct (Hd q) as [?|[? Hl]]; [by left|right].
      split; [done|]. rewrite length_app in Hl. simpl in *. lia.
    + intros Hw. destruct (IH _ _ _ _ Hw) as (Hc & Hr & Hs & Hm & Hd).
      simpl in *. repeat split; try done.
      * intros q Hsome. rewrite Hm.
        -- apply lookup_insert_ne. intros <-.
           destruct Hsome as [x Hx]. unfold Path in *. congruence.
        -- destruct (decide (pre ++ [s] = q)) as [<-|Hne].
           ++ by rewrite lookup_insert_eq.
           ++ by rewrite lookup_insert_ne.
      * intros q. destruct (Hd q) as [Heq|[? Hl]].
        -- destruct (decide (pre ++ [s] = q)) as [<-|Hne].
           ++ right. rewrite Heq, lookup_insert_eq. split; [done|].
              rewrite length_app. simpl. lia.
           ++ left. by rewrite Heq, lookup_insert_ne.
        -- right. split; [done|]. rewrite length_app in Hl. simpl in *. lia.
Qed.

(** When [mkdir] returns, the directory is there. *)
Lemma mkdir_walk_there full rest : ∀ pre e e',
  mkdir_walk full pre rest e = (Returns tt, e') → rest ≠ [] →
  fs e' !! (pre ++ rest) = Some Directory.
Proof.
  induction rest as [|s rest IH]; intros pre e e' Hw Hne; [done|].
  rewrite mkdir_walk_cons in Hw.
  rewrite (app_assoc pre [s] rest : pre ++ s :: rest = (pre ++ [s]) ++ rest).
  destruct (fs e !! (pre ++ [s])) as [[data|]|] eqn:Hq; [done|..].
  - destruct rest as [|s' rest'].
    + injection Hw as <-. by rewrite app_nil_r.
    + by apply (IH _ _ _ Hw).
  - destruct rest as [|s' rest'].
    + injection Hw as <-. rewrite app_nil_r. simpl.
      by rewrite lookup_insert_eq.
    + by apply (IH _ _ _ Hw).
Qed.

(** With no file in the way, [mkdir] returns. *)
Lemma mkdir_walk_returns full rest : ∀ pre e r e',
  (∀ k data, fs e !! (pre ++ take k rest) ≠ Some (File data)) →
  mkdir_walk full pre rest e = (r, e') → r = Returns tt.
Proof.
  induction rest as [|s rest IH]; intros pre e r e' Hfree.
  - by intros [= <- <-].
  - rewrite mkdir_walk_cons.
    destruct (fs e !! (pre ++ [s])) as [[data|]|] eqn:Hq.
    + by destruct (Hfree 1%nat data).
    + apply IH. intros k data. rewrite <-app_assoc. apply (Hfree (S k)).
    + apply IH. intros k data. simpl.
      destruct (decide (pre ++ [s] = (pre ++ [s]) ++ take k rest))
        as [<-|Hne].
      * by rewrite lookup_insert_eq.
      * rewrite lookup_insert_ne by done. rewrite <-app_assoc.
        apply (Hfree (S k)).
Qed.

Lemma write_bytes_returns p data e :
  fs e !! p = None → parent p = [] ∨ fs e !! parent p = Some Directory →
  write_bytes p data e
  = (Returns tt, set_fs (<[p := File data]> (fs e)) e).
Proof.
  intros Hp Hpar. unfold write_bytes, bind, get_state. rewrite Hp.
  destruct Hpar as [Hpar|Hpar]; rewrite Hpar; [done|]. by destruct (parent p).
Qed.

(** When [mkdir] returns, the directory is there, or it is the directory
    the paths start from. *)
Lemma mkdir_parents_there p e e' :
  mkdir_parents p e = (Returns tt, e') →
  p = [] ∨ fs e' !! p = Some Directory.
Proof.
  intros Hmk. destruct p as [|s p]; [by left|right].
  by apply (mkdir_walk_there _ _ _ _ _ Hmk).
Qed.

Lemma on_config_build_url e d v h mt :
  ∃ c', on_config (build_url d v h mt) e
        = (url_outcome (config e) d v h mt, set_config c' e)
        ∧ same_tables (config e) c'.
Proof.
  unfold on_config, zoom.
  destruct (build_url_run (config e) d v h mt) as (c' & -> & Ht).
  by exists c'.
Qed.

(** ** One hour *)

Lemma run_frame_refl n e : run_frame n e e.
Proof. repeat split; auto. Qed.

Lemma run_frame_trans n e1 e2 e3 :
  run_frame n e1 e2 → run_frame n e2 e3 → run_frame n e1 e3.
Proof.
  intros (Ht1 & Hr1 & Hm1 & Hf1) (Ht2 & Hr2 & Hm2 & Hf2).
  split; [by etrans|]. split; [congruence|]. split.
  - intros q Hq. rewrite Hm2; [by apply Hm1|]. by rewrite Hm1.
  - intros q data Hq. destruct (Hf2 q data Hq) as [Hq2|?]; [|by right].
    by apply Hf1.
Qed.

Lemma download_hour_present layer out h e :
  is_Some (fs e !! target_path out layer h) →
  download_hour layer out h e = (Returns tt, e).
Proof.
  intros Hp. unfold download_hour, bind, path_exists, gets.
  by rewrite bool_decide_eq_true_2.
Qed.

(** An hour whose file is missing: what the body of the loop does. *)
Lemma download_hour_absent layer out h e r e' :
  fs e !! target_path out layer h = None →
  download_hour layer out h e = (r, e') →
  run_frame (S (length (target_dir out layer))) e e'
  ∧ (∀ q, length q = S (length (target_dir out layer)) → q ≠ target_path out layer h →
          fs e' !! q = fs e !! q)
  ∧ (∃ new, requests e' = requests e ++ new
            ∧ (∀ url, url ∈ new → layer_url e layer h = Returns url)
            ∧ (r = Returns tt →
               ∃ url resp, layer_url e layer h = Returns url
                           ∧ new = [url]
                           ∧ remote e url = Returns resp
                           ∧ fs e' !! target_path out layer h
                             = Some (File (content resp))))
  ∧ (dirs_free e layer out →
     ∀ url resp, layer_url e layer h = Returns url →
                 remote e url = Returns resp → is_success resp = true →
                 r = Returns tt).
Proof.
  intros Habs. unfold download_hour, bind at 1, path_exists, gets.
  rewrite bool_decide_eq_false_2 by (rewrite Habs; by intros [? ?]).
  rewrite target_path_parent.
  set (p := target_path out layer h).
  set (par := target_dir out layer).
  assert (length p = S (length par)) as Hlenp
    by apply target_path_length.
  unfold bind at 1.
  destruct (mkdir_parents par e) as [r1 e1] eqn:Hmk.
  destruct (mkdir_walk_frame _ _ _ _ _ _ Hmk) as (Hc1 & Hr1 & Hs1 & Hm1 & Hd1).
  assert (run_frame (S (length par)) e e1) as Hf1.
  { split; [by rewrite Hc1|]. split; [done|]. split; [done|].
    intros q data Hq. destruct (Hd1 q) as [Heq|[Hdir _]]; [|congruence].
    left. by rewrite <-Heq. }
  assert (∀ q, length q = S (length par) → fs e1 !! q = fs e !! q)
    as Hlong.
  { intros q Hq. destruct (Hd1 q) as [?|[_ Hl]]; [done|]. simpl in Hl. lia. }
  assert (dirs_free e layer out → r1 = Returns tt) as Hmkok.
  { intros Hfree. by apply (mkdir_walk_returns par par [] e r1 e1). }
  destruct r1 as [[]|x].
  2:{ intros [= <- <-]. split; [done|]. split; [by intros; apply Hlong|].
      split.
      - exists []. rewrite app_nil_r. split; [done|].
        split; [by intros ? ?%elem_of_nil|done].
      - intros Hfree. by specialize (Hmkok Hfree). }
  pose proof (mkdir_parents_there _ _ _ Hmk) as Hpar.
  unfold bind at 1.
  destruct (on_config_build_url e1 (domain layer) (variable layer) h
              (Some (maptype layer))) as (c2 & -> & Ht2).
  rewrite Hc1 in Ht2.
  assert (layer_url e layer h
          = url_outcome (config e) (domain layer) (variable layer) h
              (Some (maptype layer))) as Hurl
    by (unfold layer_url; apply build_url_result).
  rewrite Hc1, <-Hurl.
  set (e2 := set_config c2 e1).
  assert (run_frame (S (length par)) e e2) as Hf2.
  { destruct Hf1 as (_ & ? & ? & ?). split; [exact Ht2|]. by split. }
  destruct (layer_url e layer h) as [url|x] eqn:Hu.
  2:{ intros [= <- <-]. split; [done|]. split; [by intros; apply Hlong|].
      split.
      - exists []. rewrite app_nil_r. split; [done|].
        split; [by intros ? ?%elem_of_nil|done].
      - by intros _ url resp. }
  unfold bind at 1, client_get, bind at 1, get_state, bind at 1, put_state.
  set (e3 := set_requests (requests e2 ++ [url]) e2).
  assert (run_frame (S (length par)) e e3) as Hf3.
  { destruct Hf2 as (? & ? & ? & ?). split; [done|]. by split. }
  assert (remote e2 url = remote e url) as -> by (simpl; by rewrite Hr1).
  assert (∃ new, requests e3 = requests e ++ new
                 ∧ new = [url]) as Hreq.
  { exists [url]. simpl. by rewrite Hs1. }
  destruct Hreq as (new & Hreq & ->).
  destruct (remote e url) as [resp|x] eqn:Hrem; simpl.
  2:{ intros [= <- <-]. split; [done|]. split; [by intros; apply Hlong|].
      split.
      - exists [url]. split; [exact Hreq|]. split; [|done].
        by intros ? ->%list_elem_of_singleton.
      - intros _ url' resp' [= <-] Hr. congruence. }
  unfold raise_for_status, bind at 1.
  destruct (is_success resp) eqn:Hok; simpl.
  2:{ intros [= <- <-]. split; [done|]. split; [by intros; apply Hlong|].
      split.
      - exists [url]. split; [exact Hreq|]. split; [|done].
        by intros ? ->%list_elem_of_singleton.
      - intros _ url' resp' [= <-] Hr Hs. congruence. }
  rewrite write_bytes_returns.
  2:{ simpl. by rewrite Hlong. }
  2:{ unfold p. rewrite target_path_parent. exact Hpar. }
  intros [= <- <-]. simpl. split; [|split; [|split]].
  - destruct Hf3 as (? & ? & Hm3 & Hfile3).
    split; [done|]. split; [done|]. split.
    + intros q Hq. simpl.
      rewrite lookup_insert_ne; [by apply Hm1|].
      intros <-. unfold p, Path in *. rewrite Habs in Hq. by destruct Hq.
    + intros q data. simpl.
      destruct (decide (p = q)) as [<-|Hne]; [by right|].
      rewrite lookup_insert_ne by done. apply Hfile3.
  - intros q Hq Hne. rewrite lookup_insert_ne by done. by apply Hlong.
  - exists [url]. split; [exact Hreq|]. split.
    + by intros ? ->%list_elem_of_singleton.
    + intros _. exists url, resp. by rewrite lookup_insert_eq.
  - done.
Qed.

(** The cases of the body of the loop for an hour whose file is missing:
    [mkdir] raises; the address does not resolve; the request raises; the
    answer has an error status; or the file is written. *)
Lemma download_hour_trace layer out h e r e' :
  fs e !! target_path out layer h = None →
  download_hour layer out h e = (r, e') →
  ∃ r1 e1,
    mkdir_parents (target_dir out layer) e = (r1, e1)
    ∧ fs e1 !! target_path out layer h = None
    ∧ ((∃ x, r1 = Raises x ∧ r = Raises x
             ∧ fs e' = fs e1 ∧ requests e' = requests e)
       ∨ (r1 = Returns tt
          ∧ ((∃ x, layer_url e layer h = Raises x ∧ r = Raises x
                   ∧ fs e' = fs e1 ∧ requests e' = requests e)
             ∨ (∃ url, layer_url e layer h = Returns url
                  ∧ requests e' = requests e ++ [url]
                  ∧ ((∃ x, r = Raises x ∧ fs e' = fs e1)
                     ∨ (∃ resp, remote e url = Returns resp
                          ∧ is_success resp = true
                          ∧ r = Returns tt
                          ∧ fs e' = <[target_path out layer h
                                       := File (content resp)]> (fs e1))))))).
Proof.
  intros Habs. unfold download_hour, bind at 1, path_exists, gets.
  rewrite bool_decide_eq_false_2 by (rewrite Habs; by intros [? ?]).
  rewrite target_path_parent.
  set (p := target_path out layer h).
  set (par := target_dir out layer).
  unfold bind at 1.
  destruct (mkdir_parents par e) as [r1 e1] eqn:Hmk.
  destruct (mkdir_walk_frame _ _ _ _ _ _ Hmk) as (Hc1 & Hr1 & Hs1 & Hm1 & Hd1).
  assert (fs e1 !! p = None) as Hp1.
  { destruct (Hd1 p) as [Heq|[_ Hl]]; [etrans; [exact Heq|exact Habs]|].
    unfold p, par in Hl. rewrite target_path_length in Hl. simpl in Hl. lia. }
  destruct r1 as [[]|x].
  2:{ intros [= <- <-]. exists (Raises x), e1. split; [done|].
      split; [done|]. left. by exists x. }
  pose proof (mkdir_parents_there _ _ _ Hmk) as Hpar.
  unfold bind at 1.
  destruct (on_config_build_url e1 (domain layer) (variable layer) h
              (Some (maptype layer))) as (c2 & -> & Ht2).
  assert (layer_url e layer h
          = url_outcome (config e) (domain layer) (variable layer) h
              (Some (maptype layer))) as Hurl
    by (unfold layer_url; apply build_url_result).
  rewrite Hc1, <-Hurl.
  destruct (layer_url e layer h) as [url|x] eqn:Hu.
  2:{ intros [= <- <-]. exists (Returns tt), e1. split; [done|].
      split; [done|].
      right. split; [done|]. left. by exists x. }
  unfold bind at 1, client_get, bind at 1, get_state, bind at 1, put_state.
  assert (remote (set_config c2 e1) url = remote e url) as ->
    by (simpl; by rewrite Hr1).
  destruct (remote e url) as [resp|x] eqn:Hrem; simpl.
  2:{ intros [= <- <-]. exists (Returns tt), e1. split; [done|].
      split; [done|].
      right. split; [done|]. right. exists url. split; [done|].
      simpl. split; [by rewrite Hs1|]. left. by exists x. }
  unfold raise_for_status, bind at 1.
  destruct (is_success resp) eqn:Hok; simpl.
  2:{ intros [= <- <-]. exists (Returns tt), e1. split; [done|].
      split; [done|].
      right. split; [done|]. right. exists url. split; [done|].
      simpl. split; [by rewrite Hs1|]. left. by eexists. }
  rewrite write_bytes_returns.
  2:{ done. }
  2:{ unfold p. rewrite target_path_parent. exact Hpar. }
  intros [= <- <-]. exists (Returns tt), e1. split; [done|].
  split; [done|]. right. split; [done|]. right. exists url. split; [done|].
  simpl. split; [by rewrite Hs1|]. right. by exists resp.
Qed.


(** ** The loop over the hours *)

Lemma for_each_cons {St A} (x : A) (l : list A) (body : A → M St unit) s :
  for_each (x :: l) body s
  = match body x s with
    | (Returns _, s') => for_each l body s'
    | (Raises x, s') => (Raises x, s')
    end.
Proof. reflexivity. Qed.

Lemma absent_before n e e' q :
  run_frame n e e' → fs e' !! q = None → fs e !! q = None.
Proof.
  intros (_ & _ & Hm & _) Hq. destruct (fs e !! q) as [x|] eqn:Hx; [|done].
  rewrite Hm in Hq by (by rewrite Hx). unfold Path in *. congruence.
Qed.

Lemma hours_loop layer out hs : ∀ e r e',
  for_each hs (download_hour layer out) e = (r, e') →
  run_frame (S (length (target_dir out layer))) e e'
  ∧ ∃ new, requests e' = requests e ++ new
     ∧ (∀ url, url ∈ new →
          ∃ h, h ∈ hs ∧ fs e !! target_path out layer h = None
               ∧ layer_url e layer h = Returns url)
     ∧ (r = Returns tt →
        ∀ h, h ∈ hs → fs e !! target_path out layer h = None →
          ∃ url resp, layer_url e layer h = Returns url
                      ∧ url ∈ new
                      ∧ remote e url = Returns resp
                      ∧ fs e' !! target_path out layer h
                        = Some (File (content resp))).
Proof.
  induction hs as [|h0 hs IH]; intros e r e'.
  - intros [= <- <-]. split; [apply run_frame_refl|].
    exists []. rewrite app_nil_r. split; [done|].
    split; [by intros ? ?%elem_of_nil|]. by intros _ ? ?%elem_of_nil.
  - rewrite for_each_cons.
    destruct (fs e !! target_path out layer h0) as [x|] eqn:Hh0.
    + (* the file of [h0] is there: nothing happens *)
      rewrite download_hour_present by (by rewrite Hh0).
      intros Hloop. destruct (IH _ _ _ Hloop) as (Hf & new & Hreq & Hnew & Hw).
      split; [done|]. exists new. split; [done|]. split.
      * intros url Hurl. destruct (Hnew url Hurl) as (h & ? & ? & ?).
        exists h. split; [by right|done].
      * intros Hr h [->|Hh]%elem_of_cons Habs.
        -- unfold Path in *. congruence.
        -- by apply Hw.
    + destruct (download_hour layer out h0 e) as [r0 e0] eqn:Hstep.
      destruct (download_hour_absent _ _ _ _ _ _ Hh0 Hstep)
        as (Hf0 & Hother & (new0 & Hreq0 & Hnew0 & Hw0) & _).
      destruct r0 as [[]|x].
      * intros Hloop.
        destruct (IH _ _ _ Hloop) as (Hf1 & new1 & Hreq1 & Hnew1 & Hw1).
        pose proof (run_frame_trans _ _ _ _ Hf0 Hf1) as Hf.
        split; [done|]. exists (new0 ++ new1).
        split; [by rewrite Hreq1, Hreq0, app_assoc|]. split.
        -- intros url [Hurl|Hurl]%elem_of_app.
           ++ exists h0. split; [left|]. split; [done|by apply Hnew0].
           ++ destruct (Hnew1 url Hurl) as (h & Hh & Habs & Hu).
              exists h. split; [by right|]. split.
              ** by apply (absent_before _ _ _ _ Hf0).
              ** rewrite <-Hu. symmetry. apply layer_url_tables, Hf0.
        -- intros Hr h Hh Habs.
           destruct (decide (h = h0)) as [->|Hne].
           ++ destruct (Hw0 eq_refl) as (url & resp & Hu & -> & Hrem & Hfile).
              exists url, resp. split; [done|].
              split; [apply elem_of_app; left; left|]. split; [done|].
              destruct Hf1 as (_ & _ & Hm1 & _).
              rewrite Hm1 by (by rewrite Hfile). done.
           ++ apply elem_of_cons in Hh as [?|Hh]; [done|].
              assert (fs e0 !! target_path out layer h = None) as Habs0.
              { rewrite Hother; [done|apply target_path_length|].
                by intros ?%target_path_inj. }
              destruct (Hw1 Hr h Hh Habs0) as (url & resp & Hu & ? & Hrem & ?).
              exists url, resp.
              split; [rewrite <-Hu; symmetry; apply layer_url_tables, Hf0|].
              split; [apply elem_of_app; by right|]. split; [|done].
              destruct Hf0 as (_ & <- & _). done.
      * intros [= <- <-]. split; [done|]. exists new0. split; [done|]. split.
        -- intros url Hurl. exists h0. split; [left|].
           split; [done|by apply Hnew0].
        -- done.
Qed.

Lemma dirs_free_frame layer out e e' :
  run_frame (S (length (target_dir out layer))) e e' →
  dirs_free e layer out → dirs_free e' layer out.
Proof.
  intros (_ & _ & _ & Hfile) Hfree k data Hk.
  destruct (Hfile _ _ Hk) as [?|Hlen]; [by apply (Hfree k data)|].
  rewrite length_take in Hlen. lia.
Qed.

Lemma all_served_frame layer out hs h0 e e' :
  run_frame (S (length (target_dir out layer))) e e' →
  all_served e layer out (h0 :: hs) → all_served e' layer out hs.
Proof.
  intros Hf Hserved h Hh Habs.
  destruct (Hserved h) as (url & resp & Hu & Hrem & Hok).
  - by right.
  - by apply (absent_before _ _ _ _ Hf).
  - exists url, resp. split; [|split; [|done]].
    + rewrite <-Hu. apply layer_url_tables, Hf.
    + destruct Hf as (_ & -> & _). done.
Qed.

Lemma hours_loop_returns layer out hs : ∀ e,
  dirs_free e layer out → all_served e layer out hs →
  result (for_each hs (download_hour layer out)) e = Returns tt.
Proof.
  induction hs as [|h0 hs IH]; intros e Hfree Hserved; [done|].
  unfold result. rewrite for_each_cons.
  destruct (fs e !! target_path out layer h0) as [x|] eqn:Hh0.
  - rewrite download_hour_present by (by rewrite Hh0).
    apply IH; [done|].
    by apply (all_served_frame _ _ _ h0 e e (run_frame_refl _ _)).
  - destruct (download_hour layer out h0 e) as [r0 e0] eqn:Hstep.
    destruct (download_hour_absent _ _ _ _ _ _ Hh0 Hstep)
      as (Hf0 & _ & _ & Hret).
    destruct (Hserved h0) as (url & resp & Hu & Hrem & Hok); [left|done|].
    rewrite (Hret Hfree url resp Hu Hrem Hok).
    apply IH.
    + by apply (dirs_free_frame _ _ e).
    + by apply (all_served_frame _ _ _ h0 e).
Qed.

(** ** Where the loop stops *)

(** A loop runs its body over a first part of the list, each time
    returning, and either comes to the end or raises at the next element. *)
Lemma for_each_stops {St A} (l : list A) (body : A → M St unit) : ∀ s r s',
  for_each l body s = (r, s') →
  ∃ reached rest s1, l = reached ++ rest
    ∧ for_each reached body s = (Returns tt, s1)
    ∧ match rest with
      | [] => r = Returns tt ∧ s' = s1
      | x :: _ => ∃ err, r = Raises err ∧ body x s1 = (Raises err, s')
      end.
Proof.
  induction l as [|x l IH]; intros s r s'.
  - intros [= <- <-]. by exists [], [], s.
  - rewrite for_each_cons.
    destruct (body x s) as [[[]|err] s0] eqn:Hx.
    + intros Hl. destruct (IH _ _ _ Hl) as (reached & rest & s1 & -> & Hr & Hs).
      exists (x :: reached), rest, s1. split; [done|].
      split; [by rewrite for_each_cons, Hx|done].
    + intros [= <- <-]. exists [], (x :: l), s. split; [done|].
      split; [done|]. by exists err.
Qed.

(** An hour at which the body raises had no file, and has none after. *)
Lemma download_hour_raises layer out h e x e' :
  download_hour layer out h e = (Raises x, e') →
  fs e !! target_path out layer h = None
  ∧ fs e' !! target_path out layer h = None.
Proof.
  intros Hstep.
  destruct (fs e !! target_path out layer h) as [n|] eqn:Habs.
  { rewrite download_hour_present in Hstep by (by rewrite Habs). done. }
  split; [done|].
  destruct (download_hour_trace _ _ _ _ _ _ Habs Hstep)
    as (r1 & e1 & _ & Hp1 & Hcases).
  destruct Hcases as [(? & _ & _ & Hfs & _)
    |(_ & [(? & _ & _ & Hfs & _)
          |(url & _ & _ & [(? & _ & Hfs)|(resp & _ & _ & Hr & _)])])];
    [by rewrite Hfs..|done].
Qed.

(** The loop changes nothing at a path as deep as the targets that is not
    the target of one of its hours. *)
Lemma hours_loop_others layer out hs : ∀ e r e' q,
  for_each hs (download_hour layer out) e = (r, e') →
  length q = S (length (target_dir out layer)) →
  (∀ h, h ∈ hs → q ≠ target_path out layer h) →
  fs e' !! q = fs e !! q.
Proof.
  induction hs as [|h0 hs IH]; intros e r e' q.
  - by intros [= <- <-].
  - rewrite for_each_cons. intros Hloop Hlen Hq.
    destruct (fs e !! target_path out layer h0) as [x|] eqn:Hh0.
    + rewrite download_hour_present in Hloop by (by rewrite Hh0).
      apply (IH _ _ _ _ Hloop Hlen). intros h Hh. apply Hq. by right.
    + destruct (download_hour layer out h0 e) as [r0 e0] eqn:Hstep.
      destruct (download_hour_absent _ _ _ _ _ _ Hh0 Hstep)
        as (_ & Hother & _).
      assert (fs e0 !! q = fs e !! q) as H0
        by (apply Hother; [done|apply Hq; left]).
      destruct r0 as [[]|x].
      * rewrite <-H0. apply (IH _ _ _ _ Hloop Hlen).
        intros h Hh. apply Hq. by right.
      * by injection Hloop as <- <-.
Qed.

(** The hours the loop reached, one by one: each whose file was missing
    has been fetched and written, also when the loop raises later; the hour
    at which it raises has no file; nothing is done for the hours after
    it. *)
Lemma hours_loop_stops layer out hs e r e' :
  for_each hs (download_hour layer out) e = (r, e') →
  ∃ reached rest new, hs = reached ++ rest
    ∧ requests e' = requests e ++ new
    ∧ (∀ h, h ∈ reached → fs e !! target_path out layer h = None →
         ∃ url resp, layer_url e layer h = Returns url ∧ url ∈ new
           ∧ remote e url = Returns resp
           ∧ fs e' !! target_path out layer h = Some (File (content resp)))
    ∧ match rest with
      | [] => r = Returns tt
      | h :: later =>
          (∃ x, r = Raises x)
          ∧ fs e !! target_path out layer h = None
          ∧ fs e' !! target_path out layer h = None
          ∧ ∀ h', h' ∈ later → h' ∉ reached → h' ≠ h →
              fs e' !! target_path out layer h'
              = fs e !! target_path out layer h'
              ∧ ∀ url, layer_url e layer h' = Returns url → url ∉ new
      end.
Proof.
  intros Hloop.
  destruct (for_each_stops _ _ _ _ _ Hloop)
    as (reached & rest & e1 & -> & Hreached & Hrest).
  destruct (hours_loop _ _ _ _ _ _ Hreached)
    as (Hf1 & new1 & Hreq1 & Hnew1 & Hw1).
  destruct rest as [|h later].
  - destruct Hrest as [-> ->]. exists reached, [], new1.
    split; [done|]. split; [done|]. split; [|done].
    intros h Hh Habs. by apply Hw1.
  - destruct Hrest as (x & -> & Hstep).
    destruct (download_hour_raises _ _ _ _ _ _ Hstep) as [Habs1 Habs'].
    destruct (download_hour_absent _ _ _ _ _ _ Habs1 Hstep)
      as (Hf0 & Hother & (new0 & Hreq0 & Hnew0 & _) & _).
    exists reached, (h :: later), (new1 ++ new0).
    split; [done|]. split; [by rewrite Hreq0, Hreq1, app_assoc|].
    split; [|split; [by exists x|split; [|split; [done|]]]].
    + intros h1 Hh1 Hmiss.
      destruct (Hw1 eq_refl h1 Hh1 Hmiss) as (url & resp & Hu & Hin & Hrem & Hfile).
      exists url, resp. split; [done|].
      split; [apply elem_of_app; by left|]. split; [done|].
      destruct Hf0 as (_ & _ & Hm0 & _).
      rewrite Hm0 by (by rewrite Hfile). done.
    + by apply (absent_before _ _ _ _ Hf1).
    + intros h' Hlater Hnot Hne. split.
      * etrans.
        { apply Hother; [apply target_path_length|].
          by intros ?%target_path_inj. }
        apply (hours_loop_others _ _ _ _ _ _ _ Hreached);
          [apply target_path_length|].
        intros h1 Hh1 ->%target_path_inj. done.
      * intros url Hu [Hin|Hin]%elem_of_app.
        -- destruct (Hnew1 url Hin) as (h1 & Hh1 & _ & Hu1).
           by rewrite (layer_url_inj _ _ _ _ _ Hu Hu1) in Hnot.
        -- apply Hnew0 in Hin.
           rewrite (layer_url_tables e e1) in Hin by apply Hf1.
           by rewrite (layer_url_inj _ _ _ _ _ Hu Hin) in Hne.
Qed.

(** ** A layer *)

Lemma download_layer_run layer out e :
  download_layer layer out e
  = match lookup_outcome (schedules_table (config e))
            (forecast_schedule layer) with
    | Returns hs =>
        for_each hs (download_hour layer out)
          (set_config (fill_schedules (config e)) e)
    | Raises x => (Raises x, set_config (fill_schedules (config e)) e)
    end.
Proof.
  unfold download_layer, bind, on_config, zoom.
  rewrite get_forecast_hours_run. by destruct (lookup_outcome _ _).
Qed.

Lemma download_layer_spec layer out e hs r e' :
  result (get_forecast_hours (forecast_schedule layer)) (config e)
    = Returns hs →
  download_layer layer out e = (r, e') →
  run_frame (S (length (target_dir out layer))) e e'
  ∧ (∀ url, url ∈ sent e e' →
       ∃ h, h ∈ hs ∧ fs e !! target_path out layer h = None
            ∧ layer_url e layer h = Returns url)
  ∧ (r = Returns tt →
     ∀ h, h ∈ hs → fs e !! target_path out layer h = None →
          fetched e e' layer out h).
Proof.
  unfold result. rewrite get_forecast_hours_run, download_layer_run. simpl.
  intros ->. set (e0 := set_config (fill_schedules (config e)) e).
  assert (run_frame (S (length (target_dir out layer))) e e0) as Hf0.
  { split; [apply fill_schedules_tables|]. split; [done|]. split; auto. }
  intros Hloop.
  destruct (hours_loop _ _ _ _ _ _ Hloop) as (Hf1 & new & Hreq & Hnew & Hw).
  assert (sent e e' = new) as Hsent.
  { unfold sent. rewrite Hreq. simpl. by rewrite drop_app_length. }
  rewrite Hsent.
  split; [by apply (run_frame_trans _ _ e0)|]. split.
  - intros url Hurl. destruct (Hnew url Hurl) as (h & Hh & Habs & Hu).
    exists h. split; [done|]. split; [done|].
    rewrite <-Hu. symmetry. by apply layer_url_tables, Hf0.
  - intros Hr h Hh Habs.
    destruct (Hw Hr h Hh Habs) as (url & resp & Hu & Hin & Hrem & Hfile).
    exists url, resp. rewrite Hsent. split; [|done].
    rewrite <-Hu. symmetry. by apply layer_url_tables, Hf0.
Qed.

(** C2 as stated fails: when the service answers with an error status the
    address is requested but [raise_for_status] raises, and no file is
    written. *)
Lemma failed_fetch_writes_nothing :
  ¬ (∀ (e : Env) (layer : LayerConfig) (out : Path) (hs : list Z) (h : Z),
       result (get_forecast_hours (forecast_schedule layer)) (config e)
         = Returns hs →
       h ∈ hs → skips_or_fetches e layer out h).
Proof.
  intros H.
  destruct (H failing_env example_layer ["out"%string] [0; 6] 0 eq_refl)
    as [_ Hfetch]; [left|].
  destruct (Hfetch eq_refl) as (url & resp & _ & _ & _ & Hfile).
  vm_compute in Hfile. discriminate Hfile.
Qed.

(** C2, amended: the target of an hour is the file [hourHH.gif] in the
    directory [output / domain / variable]. For every hour of the layer's
    list, a file that is already there is left as it is and its address is
    not requested. The loop has no handler: it goes through the list until
    an hour raises. Every hour it has gone through whose file was missing
    has been requested and the body of the answer is the file at its
    target, also when a later hour raises; the hour that raises has no file
    afterwards, and nothing is requested or written for the hours after it.
    The run returns when no file stands in the way of the directories and
    every missing hour has an address the service answers with success.
    The directory is taken to have no part [..]. *)
Theorem download_layer_skips_or_fetches (e : Env) (layer : LayerConfig)
    (out : Path) (hs : list Z) :
  result (get_forecast_hours (forecast_schedule layer)) (config e)
    = Returns hs →
  ".."%string ∉ target_dir out layer →
  let e' := final (download_layer layer out) e in
  let r := result (download_layer layer out) e in
  (∀ h, target_path out layer h = target_dir out layer ++ [hour_file h])
  ∧ (single_part (domain layer) → single_part (variable layer) →
     target_dir out layer = out ++ [domain layer; variable layer])
  ∧ (∀ h, h ∈ hs → is_Some (fs e !! target_path out layer h) →
       skipped e e' layer out h)
  ∧ (∃ reached rest, hs = reached ++ rest
       ∧ (∀ h, h ∈ reached → fs e !! target_path out layer h = None →
            fetched e e' layer out h)
       ∧ match rest with
         | [] => r = Returns tt
         | h :: later =>
             (∃ x, r = Raises x)
             ∧ fs e !! target_path out layer h = None
             ∧ fs e' !! target_path out layer h = None
             ∧ ∀ h', h' ∈ later → h' ∉ reached → h' ≠ h →
                 skipped e e' layer out h'
         end)
  ∧ (dirs_free e layer out → all_served e layer out hs → r = Returns tt).
Proof.
  intros Hhs _ e' r. subst e' r. unfold result, final.
  destruct (download_layer layer out e) as [r e'] eqn:Hrun. simpl.
  destruct (download_layer_spec _ _ _ _ _ _ Hhs Hrun) as (Hf & Hsent & Hw).
  split; [apply target_path_split|]. split; [|split; [|split]].
  - intros [Hd1 Hd2] [Hv1 Hv2]. unfold target_dir, path_div.
    by rewrite Hd1, Hd2, Hv1, Hv2, <-app_assoc.
  - intros h Hh Hthere. split.
    + destruct Hf as (_ & _ & Hm & _). by apply Hm.
    + intros url Hu Hin.
      destruct (Hsent url Hin) as (h' & _ & Habs & Hu').
      rewrite (layer_url_inj _ _ _ _ _ Hu Hu') in Hthere.
      unfold Path in *. rewrite Habs in Hthere. by destruct Hthere.
  - rewrite download_layer_run in Hrun.
    unfold result in Hhs. rewrite get_forecast_hours_run in Hhs.
    simpl in Hhs. rewrite Hhs in Hrun.
    set (e0 := set_config (fill_schedules (config e)) e) in *.
    assert (same_tables (config e) (config e0)) as Ht
      by apply fill_schedules_tables.
    destruct (hours_loop_stops _ _ _ _ _ _ Hrun)
      as (reached & rest & new & Hsplit & Hreq & Hreached & Hrest).
    assert (sent e e' = new) as Hnew.
    { unfold sent. rewrite Hreq. simpl. by rewrite drop_app_length. }
    exists reached, rest. split; [done|]. split.
    + intros h Hh Habs.
      destruct (Hreached h Hh Habs) as (url & resp & Hu & Hin & Hrem & Hfile).
      exists url, resp. rewrite Hnew. split; [|done].
      rewrite <-Hu. symmetry. by apply layer_url_tables.
    + destruct rest as [|h later]; [done|].
      destruct Hrest as (Hx & Habs & Habs' & Hlater).
      split; [done|]. split; [done|]. split; [done|].
      intros h' Hh' Hnot Hne.
      destruct (Hlater h' Hh' Hnot Hne) as [Hfile Hurl].
      split; [done|]. intros url Hu. rewrite Hnew. apply Hurl.
      rewrite <-Hu. by apply layer_url_tables.
  - intros Hfree Hserved.
    rewrite download_layer_run in Hrun.
    unfold result in Hhs. rewrite get_forecast_hours_run in Hhs.
    simpl in Hhs. rewrite Hhs in Hrun.
    set (e0 := set_config (fill_schedules (config e)) e) in *.
    assert (run_frame (S (length (target_dir out layer))) e e0) as Hf0.
    { split; [apply fill_schedules_tables|]. split; [done|]. split; auto. }
    pose proof (hours_loop_returns layer out hs e0) as Hret.
    unfold result in Hret. rewrite Hrun in Hret. apply Hret.
    + by apply (dirs_free_frame _ _ e).
    + intros h1 Hh1 Habs1. destruct (Hserved h1 Hh1 Habs1)
        as (url & resp & Hu & Hrem & Hok).
      exists url, resp. split; [|done].
      rewrite <-Hu. by apply layer_url_tables, Hf0.
Qed.

Lemma download_layer_skips_or_fetches_witness :
  skipped example_env (final (download_layer example_layer ["out"%string])
                         example_env) example_layer ["out"%string] 0
  ∧ fetched example_env (final (download_layer example_layer ["out"%string])
                           example_env) example_layer ["out"%string] 6.
Proof.
  pose proof (download_layer_skips_or_fetches example_env example_layer
                ["out"%string] [0; 6] eq_refl) as H.
  destruct H as (_ & _ & Hskip & (reached & rest & Hsplit & Hfetch & Hrest)
                 & _).
  - apply (bool_decide_unpack _). vm_compute. exact I.
  - split.
    + apply (Hskip 0); [left|]. vm_compute. by eexists.
    + destruct rest as [|h later].
      * rewrite app_nil_r in Hsplit. subst reached.
        apply (Hfetch 6); [right; left|]. by vm_compute.
      * destruct Hrest as ((x & Hx) & _). vm_compute in Hx. discriminate Hx.
Defined.

(** A run that raises at its second hour has written the first. *)
Example download_layer_partial :
  let e := {| config := example_config; fs := ∅;
              remote := λ url,
                if String.eqb url
                     "https://a.atmos.washington.edu/wrfrt/data/timeindep/images_dz/mzvz.00.0000.gif"
                then Returns {| is_success := true; content := [Byte.x02] |}
                else Returns {| is_success := false; content := [] |};
              requests := [] |} in
  let e' := final (download_layer example_layer ["out"%string]) e in
  result (download_layer example_layer ["out"%string]) e
    = Raises (HTTPStatusError
        "https://a.atmos.washington.edu/wrfrt/data/timeindep/images_dz/mzvz.06.0000.gif")
  ∧ fs e' !! ["out"; "d1"; "v1"; "hour00.gif"]%string
    = Some (File [Byte.x02])
  ∧ fs e' !! ["out"; "d1"; "v1"; "hour06.gif"]%string = None.
Proof. vm_compute. done. Qed.

(** An empty domain name adds no directory. *)
Example target_path_empty_domain :
  target_path ["out"%string]
    {| domain := ""; variable := "v1"; forecast_schedule := "s";
       maptype := "m1" |} 0
  = ["out"; "v1"; "hour00.gif"]%string.
Proof. reflexivity. Qed.

Example download_layer_example :
  let e' := final (download_layer example_layer ["out"%string]) example_env in
  result (download_layer example_layer ["out"%string]) example_env
    = Returns tt
  ∧ requests e'
    = ["https://a.atmos.washington.edu/wrfrt/data/timeindep/images_dz/mzvz.06.0000.gif"%string]
  ∧ fs e' !! ["out"; "d1"; "v1"; "hour00.gif"]%string
    = Some (File [Byte.x01])
  ∧ fs e' !! ["out"; "d1"; "v1"; "hour06.gif"]%string
    = Some (File [Byte.x02]).
Proof. vm_compute. done. Qed.

(** ** Further properties of the configuration *)

Lemma after_call_tables c c' : after_call c c' → same_tables c c'.
Proof.
  unfold after_call, final.
  intros [[n ->]|[[n ->]|[[n ->]|[[n ->]|(d & v & h & mt & ->)]]]].
  - rewrite get_domain_code_run. apply fill_domains_tables.
  - rewrite get_maptype_code_run. apply fill_maptypes_tables.
  - rewrite get_variable_code_run. apply fill_variables_tables.
  - rewrite get_forecast_hours_run. apply fill_schedules_tables.
  - by destruct (build_url_run c d v h mt) as (c1 & -> & Ht).
Qed.

(** X1: the memoized tables are transparent. After any getter or
    [build_url] call, every getter and [build_url] answers what it answered
    before the call. *)
Theorem memoization_is_transparent (c c' : WrfConfig) :
  after_call c c' →
  (∀ n, result (get_domain_code n) c' = result (get_domain_code n) c)
  ∧ (∀ n, result (get_maptype_code n) c' = result (get_maptype_code n) c)
  ∧ (∀ n, result (get_variable_code n) c' = result (get_variable_code n) c)
  ∧ (∀ n, result (get_forecast_hours n) c'
          = result (get_forecast_hours n) c)
  ∧ (∀ d v h mt, result (build_url d v h mt) c'
                 = result (build_url d v h mt) c).
Proof.
  intros Hcall. pose proof (after_call_tables c c' Hcall) as Ht.
  pose proof Ht as (Hd & Hm & Hv & Hs). unfold result.
  split; [|split; [|split; [|split]]]; intros n.
  - by rewrite !get_domain_code_run, Hd.
  - by rewrite !get_maptype_code_run, Hm.
  - by rewrite !get_variable_code_run, Hv.
  - by rewrite !get_forecast_hours_run, Hs.
  - intros v h mt.
    fold (result (build_url n v h mt) c') (result (build_url n v h mt) c).
    rewrite !build_url_result. symmetry. by apply url_outcome_tables.
Qed.

Lemma memoization_is_transparent_witness :
  result (get_domain_code "d1")
    (final (build_url "d1" "v1" 3 None) example_config)
  = result (get_domain_code "d1") example_config.
Proof.
  apply (memoization_is_transparent example_config).
  right. right. right. right. by exists "d1"%string, "v1"%string, 3, None.
Defined.

Lemma dict_comp_lookup_is_Some {A V} (key : A → string) (val : A → V) l n :
  n ∈ key <$> l → is_Some (dict_comp key val l !! n).
Proof.
  intros Hn. destruct (last_entry_exists key l n Hn) as (x & <- & Hx).
  rewrite (dict_comp_lookup_last key val l x Hx). by eexists.
Qed.

(** X2: [build_url] looks the names up in the order domain, maptype,
    variable and raises for the first that is not listed; it returns an
    address when all are listed. An omitted maptype is never looked up. *)
Theorem build_url_first_unresolved (c : WrfConfig) (d v m : string) (h : Z) :
  config_ok c →
  let listed n l := n ∈ name <$> l in
  (¬ listed d (domain_codes c) →
     result (build_url d v h (Some m)) c = Raises (not_found d)
     ∧ result (build_url d v h None) c = Raises (not_found d))
  ∧ (listed d (domain_codes c) → ¬ listed m (maptype_codes c) →
     result (build_url d v h (Some m)) c = Raises (not_found m))
  ∧ (listed d (domain_codes c) → listed m (maptype_codes c) →
     ¬ listed v (variable_codes c) →
     result (build_url d v h (Some m)) c = Raises (not_found v))
  ∧ (listed d (domain_codes c) → ¬ listed v (variable_codes c) →
     result (build_url d v h None) c = Raises (not_found v))
  ∧ (listed d (domain_codes c) → listed m (maptype_codes c) →
     listed v (variable_codes c) →
     ∃ url, result (build_url d v h (Some m)) c = Returns url)
  ∧ (listed d (domain_codes c) → listed v (variable_codes c) →
     ∃ url, result (build_url d v h None) c = Returns url).
Proof.
  intros Hok listed. subst listed. simpl.
  destruct (config_ok_tables c Hok) as (Hd & Hm & Hv & _).
  rewrite !build_url_result. unfold url_outcome, maptype_outcome.
  rewrite Hd, Hm, Hv. unfold lookup_outcome.
  split; [|split; [|split; [|split; [|split]]]].
  - intros Hn. by rewrite dict_comp_lookup_None.
  - intros [dc ->]%(dict_comp_lookup_is_Some name code) Hn.
    by rewrite dict_comp_lookup_None.
  - intros [dc ->]%(dict_comp_lookup_is_Some name code)
           [mc ->]%(dict_comp_lookup_is_Some name code) Hn.
    by rewrite dict_comp_lookup_None.
  - intros [dc ->]%(dict_comp_lookup_is_Some name code) Hn.
    by rewrite dict_comp_lookup_None.
  - intros [dc ->]%(dict_comp_lookup_is_Some name code)
           [mc ->]%(dict_comp_lookup_is_Some name code)
           [vc ->]%(dict_comp_lookup_is_Some name code).
    by eexists.
  - intros [dc ->]%(dict_comp_lookup_is_Some name code)
           [vc ->]%(dict_comp_lookup_is_Some name code).
    by eexists.
Qed.

Lemma build_url_first_unresolved_witness :
  result (build_url "d1" "zz" 3 (Some "nope"%string)) example_config
  = Raises (ValueError "nope was not found").
Proof.
  apply (build_url_first_unresolved example_config "d1" "zz" "nope" 3).
  - repeat split; by left.
  - apply (bool_decide_unpack _). vm_compute. exact I.
  - apply (bool_decide_unpack _). vm_compute. exact I.
Defined.

(** X3: two different hours never share an address or a target path. *)
Theorem distinct_hours_do_not_collide (c : WrfConfig) (d v : string)
    (mt : option string) (out : Path) (layer : LayerConfig) (h h' : Z) :
  h ≠ h' →
  target_path out layer h ≠ target_path out layer h'
  ∧ (∀ url, result (build_url d v h mt) c = Returns url →
            result (build_url d v h' mt) c ≠ Returns url).
Proof.
  intros Hne. split.
  - by intros ?%target_path_inj.
  - intros url. rewrite !build_url_result. unfold url_outcome.
    destruct (lookup_outcome (domains_table c) d) as [dc|]; [|done].
    destruct (maptype_outcome c mt) as [mc|]; [|done].
    destruct (lookup_outcome (variables_table c) v) as [vc|]; [|done].
    intros H1 H2. apply Hne.
    assert (address dc mc vc h = address dc mc vc h') as H by congruence.
    by apply address_inj in H.
Qed.

Lemma distinct_hours_do_not_collide_witness :
  target_path ["out"%string] example_layer 0
  ≠ target_path ["out"%string] example_layer 12.
Proof.
  apply (distinct_hours_do_not_collide example_config "d1" "v1" None
           ["out"%string] example_layer 0 12).
  lia.
Defined.

(** ** Further properties of the retrieval *)

(** X4: a layer whose forecast schedule is not listed raises the not-found
    error before anything else happens: no request is sent and the file
    system is as it was. *)
Theorem unknown_schedule_aborts (e : Env) (layer : LayerConfig) (out : Path) :
  config_ok (config e) →
  forecast_schedule layer ∉ schedule_name <$> forecast_schedules (config e) →
  result (download_layer layer out) e
    = Raises (not_found (forecast_schedule layer))
  ∧ fs (final (download_layer layer out) e) = fs e
  ∧ requests (final (download_layer layer out) e) = requests e.
Proof.
  intros Hok Hn. unfold result, final. rewrite download_layer_run.
  destruct (config_ok_tables _ Hok) as (_ & _ & _ & ->).
  unfold lookup_outcome. by rewrite dict_comp_lookup_None.
Qed.

Lemma unknown_schedule_aborts_witness :
  result (download_layer
            {| domain := "d1"; variable := "v1"; forecast_schedule := "zz";
               maptype := "m1" |} ["out"%string]) example_env
  = Raises (ValueError "zz was not found").
Proof.
  apply (unknown_schedule_aborts example_env
           {| domain := "d1"; variable := "v1"; forecast_schedule := "zz";
              maptype := "m1" |} ["out"%string]).
  - repeat split; by left.
  - apply (bool_decide_unpack _). vm_compute. exact I.
Defined.

(** What a run of the loop sends and writes: the requests are for pairwise
    different addresses, each the address of an hour whose file was missing;
    a file that is there afterwards and was not there before holds the body
    of a successful answer for such an hour; nothing that was there is
    changed. *)
Lemma hours_loop_effects layer out hs : ∀ e r e',
  for_each hs (download_hour layer out) e = (r, e') →
  ∃ new, requests e' = requests e ++ new
    ∧ NoDup new
    ∧ (∀ url, url ∈ new →
         ∃ h, h ∈ hs ∧ fs e !! target_path out layer h = None
              ∧ layer_url e layer h = Returns url)
    ∧ (∀ q data, fs e' !! q = Some (File data) →
         fs e !! q = Some (File data)
         ∨ ∃ h url resp, h ∈ hs ∧ q = target_path out layer h
             ∧ layer_url e layer h = Returns url ∧ url ∈ new
             ∧ remote e url = Returns resp ∧ is_success resp = true
             ∧ data = content resp)
    ∧ (r = Returns tt → all_present e' layer out hs).
Proof.
  induction hs as [|h0 hs IH]; intros e r e'.
  - intros [= <- <-]. exists []. rewrite app_nil_r.
    split; [done|]. split; [apply NoDup_nil_2|].
    split; [by intros ? ?%elem_of_nil|]. split; [by left|].
    by intros _ ? ?%elem_of_nil.
  - rewrite for_each_cons.
    destruct (fs e !! target_path out layer h0) as [x|] eqn:Hh0.
    + rewrite download_hour_present by (by rewrite Hh0).
      intros Hloop.
      destruct (IH _ _ _ Hloop) as (new & Hreq & Hnd & Hnew & Hfile & Hall).
      destruct (hours_loop _ _ _ _ _ _ Hloop) as ((_ & _ & Hm & _) & _).
      exists new. split; [done|]. split; [done|]. split; [|split].
      * intros url Hurl. destruct (Hnew url Hurl) as (h & ? & ? & ?).
        exists h. split; [by right|done].
      * intros q data Hq. destruct (Hfile q data Hq)
          as [?|(h & url & resp & ? & ?)]; [by left|right].
        exists h, url, resp. split; [by right|done].
      * intros Hr h [->|Hh]%elem_of_cons; [|by apply Hall].
        rewrite Hm by (by rewrite Hh0). by rewrite Hh0.
    + destruct (download_hour layer out h0 e) as [r0 e0] eqn:Hstep.
      destruct (download_hour_absent _ _ _ _ _ _ Hh0 Hstep)
        as (Hf0 & Hother & _ & _).
      destruct (download_hour_trace _ _ _ _ _ _ Hh0 Hstep)
        as (r1 & e1 & Hmk & _ & Hcases).
      destruct (mkdir_walk_frame _ _ _ _ _ _ Hmk) as (_ & _ & _ & _ & Hd1).
      assert (∀ q data, fs e1 !! q = Some (File data) →
                        fs e !! q = Some (File data)) as Hfile1.
      { intros q data Hq. destruct (Hd1 q) as [Heq|[Hdir _]].
        - etrans; [symmetry; exact Heq|exact Hq].
        - assert (Some Directory = Some (File data)) as Hbad
            by (etrans; [symmetry; exact Hdir|exact Hq]).
          discriminate Hbad. }
      destruct Hcases as [(x & -> & -> & Hfs & Hreq)
        |(-> & [(x & Hu & -> & Hfs & Hreq)
               |(url & Hu & Hreq & [(x & -> & Hfs)
                                   |(resp & Hrem & Hok & -> & Hfs)])])].
      * intros [= <- <-]. exists []. rewrite app_nil_r.
        split; [done|]. split; [apply NoDup_nil_2|].
        split; [by intros ? ?%elem_of_nil|]. split; [|done].
        intros q data. rewrite Hfs. intros ?%Hfile1. by left.
      * intros [= <- <-]. exists []. rewrite app_nil_r.
        split; [done|]. split; [apply NoDup_nil_2|].
        split; [by intros ? ?%elem_of_nil|]. split; [|done].
        intros q data. rewrite Hfs. intros ?%Hfile1. by left.
      * intros [= <- <-]. exists [url].
        split; [done|]. split; [apply NoDup_singleton|]. split; [|split].
        -- intros ? ->%list_elem_of_singleton. exists h0.
           split; [left|done].
        -- intros q data. rewrite Hfs. intros ?%Hfile1. by left.
        -- done.
      * intros Hloop.
        destruct (IH _ _ _ Hloop) as (new & Hreq1 & Hnd & Hnew & Hfile & Hall).
        destruct (hours_loop _ _ _ _ _ _ Hloop) as ((_ & _ & Hm & _) & _).
        assert (fs e0 !! target_path out layer h0
                = Some (File (content resp))) as Hthere
          by (by rewrite Hfs, lookup_insert_eq).
        exists (url :: new).
        split; [by rewrite Hreq1, Hreq, <-app_assoc|]. split; [|split; [|split]].
        -- apply NoDup_cons. split; [|done]. intros Hin.
           destruct (Hnew url Hin) as (h & _ & Habs & Hu').
           rewrite (layer_url_tables e e0) in Hu' by apply Hf0.
           rewrite (layer_url_inj _ _ _ _ _ Hu Hu') in Hthere.
           unfold Path in *. congruence.
        -- intros u [->|Hin]%elem_of_cons.
           ++ exists h0. split; [left|done].
           ++ destruct (Hnew u Hin) as (h & Hh & Habs & Hu').
              exists h. split; [by right|]. split.
              ** by apply (absent_before _ _ _ _ Hf0).
              ** rewrite <-Hu'. symmetry. apply layer_url_tables, Hf0.
        -- intros q data Hq.
           destruct (Hfile q data Hq) as [Hq0|(h & u & rs & Hh & -> & Hu' & Hin
                                               & Hrem' & Hok' & ->)].
           ++ rewrite Hfs in Hq0.
              destruct (decide (target_path out layer h0 = q)) as [<-|Hne].
              ** rewrite lookup_insert_eq in Hq0. injection Hq0 as <-.
                 right. exists h0, url, resp.
                 split; [left|]. split; [done|]. split; [done|].
                 split; [left|done].
              ** rewrite lookup_insert_ne in Hq0 by done.
                 left. by apply Hfile1.
           ++ right. exists h, u, rs. split; [by right|]. split; [done|].
              split; [rewrite <-Hu'; symmetry; apply layer_url_tables, Hf0|].
              split; [by right|]. split; [|done].
              destruct Hf0 as (_ & <- & _). done.
        -- intros Hr h [->|Hh]%elem_of_cons; [|by apply Hall].
           rewrite Hm by (by rewrite Hthere). by rewrite Hthere.
Qed.

Lemma download_layer_effects layer out e hs r e' :
  result (get_forecast_hours (forecast_schedule layer)) (config e)
    = Returns hs →
  download_layer layer out e = (r, e') →
  NoDup (sent e e')
  ∧ (∀ url, url ∈ sent e e' →
       ∃ h, h ∈ hs ∧ fs e !! target_path out layer h = None
            ∧ layer_url e layer h = Returns url)
  ∧ (∀ q data, fs e' !! q = Some (File data) →
       fs e !! q = Some (File data)
       ∨ ∃ h url resp, h ∈ hs ∧ q = target_path out layer h
           ∧ layer_url e layer h = Returns url ∧ url ∈ sent e e'
           ∧ remote e url = Returns resp ∧ is_success resp = true
           ∧ data = content resp)
  ∧ (r = Returns tt → all_present e' layer out hs).
Proof.
  unfold result. rewrite get_forecast_hours_run, download_layer_run. simpl.
  intros ->. set (e0 := set_config (fill_schedules (config e)) e).
  assert (same_tables (config e) (config e0)) as Ht
    by apply fill_schedules_tables.
  intros Hloop.
  destruct (hours_loop_effects _ _ _ _ _ _ Hloop)
    as (new & Hreq & Hnd & Hnew & Hfile & Hall).
  assert (sent e e' = new) as ->.
  { unfold sent. rewrite Hreq. simpl. by rewrite drop_app_length. }
  split; [done|]. split; [|split; [|done]].
  - intros url Hurl. destruct (Hnew url Hurl) as (h & Hh & Habs & Hu).
    exists h. split; [done|]. split; [done|].
    rewrite <-Hu. symmetry. by apply layer_url_tables.
  - intros q data Hq.
    destruct (Hfile q data Hq) as [?|(h & url & resp & ? & ? & Hu & ?)];
      [by left|right].
    exists h, url, resp. split; [done|]. split; [done|]. split; [|done].
    rewrite <-Hu. symmetry. by apply layer_url_tables.
Qed.

Lemma hours_loop_all_present layer out hs e :
  all_present e layer out hs →
  for_each hs (download_hour layer out) e = (Returns tt, e).
Proof.
  induction hs as [|h0 hs IH]; intros Hall; [done|].
  rewrite for_each_cons, download_hour_present by (apply Hall; left).
  apply IH. intros h Hh. apply Hall. by right.
Qed.

Lemma download_layer_all_present layer out e hs :
  result (get_forecast_hours (forecast_schedule layer)) (config e)
    = Returns hs →
  all_present e layer out hs →
  download_layer layer out e
  = (Returns tt, set_config (fill_schedules (config e)) e).
Proof.
  unfold result. rewrite get_forecast_hours_run, download_layer_run. simpl.
  intros -> Hall. by apply hours_loop_all_present.
Qed.

Lemma download_layer_resolves layer out e :
  result (download_layer layer out) e = Returns tt →
  ∃ hs, result (get_forecast_hours (forecast_schedule layer)) (config e)
        = Returns hs.
Proof.
  unfold result. rewrite get_forecast_hours_run, download_layer_run. simpl.
  destruct (lookup_outcome _ _) as [hs|x]; [by exists hs|done].
Qed.

(** X5: in one run over a layer no address is requested twice, and every
    request is for an hour of the layer whose file was missing when the run
    began. *)
Theorem requests_are_distinct_and_needed (e : Env) (layer : LayerConfig)
    (out : Path) (hs : list Z) :
  result (get_forecast_hours (forecast_schedule layer)) (config e)
    = Returns hs →
  let e' := final (download_layer layer out) e in
  NoDup (sent e e')
  ∧ (∀ url, url ∈ sent e e' →
       ∃ h, h ∈ hs ∧ fs e !! target_path out layer h = None
            ∧ layer_url e layer h = Returns url).
Proof.
  intros Hhs e'. subst e'. unfold final.
  destruct (download_layer layer out e) as [r e'] eqn:Hrun. simpl.
  destruct (download_layer_effects _ _ _ _ _ _ Hhs Hrun) as (? & ? & _).
  by split.
Qed.

Lemma requests_are_distinct_and_needed_witness :
  NoDup (sent example_env
           (final (download_layer example_layer ["out"%string]) example_env)).
Proof.
  apply (requests_are_distinct_and_needed example_env example_layer
           ["out"%string] [0; 6]).
  reflexivity.
Defined.

(** X6: a file that is there after a run and was not there before is the
    target of an hour of the layer and holds the body of a successful answer
    to the request for that hour's address: a failed run leaves no file for
    the hour it failed on. The directory of the layer is taken to have no
    part [..], so that no other path names a target. *)
Theorem written_files_are_fetched_bodies (e : Env) (layer : LayerConfig)
    (out : Path) (hs : list Z) (q : Path) (data : list Byte.byte) :
  result (get_forecast_hours (forecast_schedule layer)) (config e)
    = Returns hs →
  ".."%string ∉ target_dir out layer →
  let e' := final (download_layer layer out) e in
  fs e' !! q = Some (File data) →
  fs e !! q = Some (File data)
  ∨ ∃ h url resp, h ∈ hs ∧ q = target_path out layer h
      ∧ layer_url e layer h = Returns url ∧ url ∈ sent e e'
      ∧ remote e url = Returns resp ∧ is_success resp = true
      ∧ data = content resp.
Proof.
  intros Hhs _ e'. subst e'. unfold final.
  destruct (download_layer layer out e) as [r e'] eqn:Hrun. simpl.
  destruct (download_layer_effects _ _ _ _ _ _ Hhs Hrun) as (_ & _ & Hf & _).
  apply Hf.
Qed.

Lemma written_files_are_fetched_bodies_witness :
  fs example_env !! target_path ["out"%string] example_layer 6
    = Some (File [Byte.x02])
  ∨ ∃ h url resp, h ∈ [0; 6]
      ∧ target_path ["out"%string] example_layer 6
        = target_path ["out"%string] example_layer h
      ∧ layer_url example_env example_layer h = Returns url
      ∧ url ∈ sent example_env
                (final (download_layer example_layer ["out"%string])
                   example_env)
      ∧ remote example_env url = Returns resp ∧ is_success resp = true
      ∧ [Byte.x02] = content resp.
Proof.
  apply (written_files_are_fetched_bodies example_env example_layer
           ["out"%string] [0; 6]
           (target_path ["out"%string] example_layer 6) [Byte.x02]).
  - reflexivity.
  - apply (bool_decide_unpack _). vm_compute. exact I.
  - by vm_compute.
Defined.

(** X7: when the address of a layer does not resolve (its domain, maptype
    or variable is not listed), a run sends no request and creates no
    file. *)
Theorem unresolved_layer_fetches_nothing (e : Env) (layer : LayerConfig)
    (out : Path) (hs : list Z) :
  result (get_forecast_hours (forecast_schedule layer)) (config e)
    = Returns hs →
  (∀ h url, layer_url e layer h ≠ Returns url) →
  let e' := final (download_layer layer out) e in
  requests e' = requests e
  ∧ (∀ q data, fs e' !! q = Some (File data) → fs e !! q = Some (File data)).
Proof.
  intros Hhs Hun e'. subst e'. unfold final.
  destruct (download_layer layer out e) as [r e'] eqn:Hrun. simpl.
  destruct (download_layer_effects _ _ _ _ _ _ Hhs Hrun)
    as (_ & Hnew & Hf & _).
  assert (sent e e' = []) as Hsent.
  { destruct (sent e e') as [|url l] eqn:Hs; [done|].
    destruct (Hnew url) as (h & _ & _ & Hu); [left|]. by destruct (Hun h url). }
  split.
  - unfold result in Hhs. rewrite get_forecast_hours_run in Hhs.
    simpl in Hhs. rewrite download_layer_run, Hhs in Hrun.
    destruct (hours_loop _ _ _ _ _ _ Hrun) as (_ & new & Hreq & _).
    unfold sent in Hsent. rewrite Hreq in Hsent. simpl in Hsent.
    rewrite drop_app_length in Hsent. subst new.
    by rewrite Hreq, app_nil_r.
  - intros q data Hq. destruct (Hf q data Hq)
      as [?|(h & url & resp & _ & _ & Hu & _)]; [done|].
    by destruct (Hun h url).
Qed.

Lemma unresolved_layer_fetches_nothing_witness :
  requests (final (download_layer
                     {| domain := "zz"; variable := "v1";
                        forecast_schedule := "s"; maptype := "m1" |}
                     ["out"%string]) example_env)
  = requests example_env.
Proof.
  apply (unresolved_layer_fetches_nothing example_env
           {| domain := "zz"; variable := "v1"; forecast_schedule := "s";
              maptype := "m1" |} ["out"%string] [0; 6]).
  - reflexivity.
  - intros h url. unfold layer_url. rewrite build_url_result. done.
Defined.

(** X8: when the file of every hour is already there, a run returns, sends
    nothing and leaves the file system as it is, and this whether or not the
    names of the layer resolve: they are looked up only for an hour that is
    missing. *)
Theorem complete_layer_is_skipped (e : Env) (layer : LayerConfig)
    (out : Path) (hs : list Z) :
  result (get_forecast_hours (forecast_schedule layer)) (config e)
    = Returns hs →
  all_present e layer out hs →
  let e' := final (download_layer layer out) e in
  result (download_layer layer out) e = Returns tt
  ∧ fs e' = fs e ∧ requests e' = requests e.
Proof.
  intros Hhs Hall e'. subst e'. unfold result, final.
  by rewrite (download_layer_all_present _ _ _ _ Hhs Hall).
Qed.

Lemma complete_layer_is_skipped_witness :
  result (download_layer
            {| domain := "d1"; variable := "v1"; forecast_schedule := "s";
               maptype := "zz" |} ["out"%string])
    (final (download_layer example_layer ["out"%string]) example_env)
  = Returns tt.
Proof.
  apply (complete_layer_is_skipped
           (final (download_layer example_layer ["out"%string]) example_env)
           {| domain := "d1"; variable := "v1"; forecast_schedule := "s";
              maptype := "zz" |} ["out"%string] [0; 6]).
  - reflexivity.
  - intros h Hh.
    repeat (apply elem_of_cons in Hh as [->|Hh]; [by vm_compute; eexists|]).
    by apply elem_of_nil in Hh.
Defined.

(** X9: after a run over a layer has returned, a run over the same layer,
    or over any layer with the same domain and variable whose hours are
    among those of the first, returns at once: it sends no request and
    changes no file. The target path does not depend on the maptype, so the
    second layer may even have another maptype. *)
Theorem rerun_fetches_nothing (e : Env) (layer layer' : LayerConfig)
    (out : Path) (hs hs' : list Z) :
  result (get_forecast_hours (forecast_schedule layer)) (config e)
    = Returns hs →
  result (get_forecast_hours (forecast_schedule layer')) (config e)
    = Returns hs' →
  domain layer' = domain layer → variable layer' = variable layer →
  hs' ⊆ hs →
  result (download_layer layer out) e = Returns tt →
  let e1 := final (download_layer layer out) e in
  let e2 := final (download_layer layer' out) e1 in
  result (download_layer layer' out) e1 = Returns tt
  ∧ fs e2 = fs e1 ∧ requests e2 = requests e1.
Proof.
  intros Hhs Hhs' Hd Hv Hsub Hret e1 e2. subst e1 e2.
  unfold result in Hret. unfold result at 1. unfold final.
  destruct (download_layer layer out e) as [r e1] eqn:Hrun.
  simpl in *. subst r.
  destruct (download_layer_effects _ _ _ _ _ _ Hhs Hrun) as (_ & _ & _ & Hall).
  destruct (download_layer_spec _ _ _ _ _ _ Hhs Hrun) as ((Ht & _) & _).
  assert (result (get_forecast_hours (forecast_schedule layer')) (config e1)
          = Returns hs') as Hhs1.
  { rewrite <-Hhs'. unfold result. rewrite !get_forecast_hours_run. simpl.
    destruct Ht as (_ & _ & _ & <-). done. }
  assert (all_present e1 layer' out hs') as Hall'.
  { intros h Hh. unfold target_path. rewrite Hd, Hv.
    apply (Hall eq_refl h). by apply Hsub. }
  by rewrite (download_layer_all_present _ _ _ _ Hhs1 Hall').
Qed.

Lemma rerun_fetches_nothing_witness :
  let e1 := final (download_layer example_layer ["out"%string])
              example_env in
  result (download_layer example_layer ["out"%string]) e1 = Returns tt
  ∧ fs (final (download_layer example_layer ["out"%string]) e1) = fs e1
  ∧ requests (final (download_layer example_layer ["out"%string]) e1)
    = requests e1.
Proof.
  apply (rerun_fetches_nothing example_env example_layer example_layer
           ["out"%string] [0; 6] [0; 6]); done.
Defined.

(** X10: a run never changes or removes what is in the file system, file or
    directory, and never drops a request from the record: it only adds. The
    directory of the layer is taken to have no part [..], so that no other
    path names a target. *)
Theorem run_only_adds (e : Env) (layer : LayerConfig) (out : Path) :
  ".."%string ∉ target_dir out layer →
  let e' := final (download_layer layer out) e in
  (∀ q, is_Some (fs e !! q) → fs e' !! q = fs e !! q)
  ∧ requests e `prefix_of` requests e'
  ∧ remote e' = remote e.
Proof.
  intros _ e'. subst e'. unfold final. rewrite download_layer_run.
  destruct (lookup_outcome _ _) as [hs|x]; simpl.
  2:{ split; [done|]. split; [|done]. by exists []; rewrite app_nil_r. }
  destruct (for_each hs (download_hour layer out) _) as [r e'] eqn:Hloop.
  destruct (hours_loop _ _ _ _ _ _ Hloop)
    as ((_ & Hrem & Hm & _) & new & Hreq & _).
  simpl in *. split; [done|]. split; [|done]. by exists new.
Qed.

Lemma run_only_adds_witness :
  let e' := final (download_layer example_layer ["out"%string])
              example_env in
  (∀ q, is_Some (fs example_env !! q) → fs e' !! q = fs example_env !! q)
  ∧ requests example_env `prefix_of` requests e'
  ∧ remote e' = remote example_env.
Proof.
  apply (run_only_adds example_env example_layer ["out"%string]).
  apply (bool_decide_unpack _). vm_compute. exact I.
Defined.

(** ** The command *)

Lemma keeps_bind {St A B C} (f : St → C) (m : M St A) (k : A → M St B) :
  keeps f m → (∀ a, keeps f (k a)) → keeps f (bind m k).
Proof.
  intros Hm Hk s. unfold final, bind. specialize (Hm s). unfold final in Hm.
  destruct (m s) as [[a|x] s1]; simpl in *; [|done].
  rewrite <-Hm. apply (Hk a s1).
Qed.

Lemma keeps_for_each {St A C} (f : St → C) (l : list A)
    (body : A → M St unit) :
  (∀ x, keeps f (body x)) → keeps f (for_each l body).
Proof.
  intros Hb. induction l as [|x l IH]; [done|].
  simpl. apply keeps_bind; [apply Hb|by intros _].
Qed.

Lemma keeps_layers_getter {V} (cache : WrfConfig → gmap string V) n fill :
  (∀ c, layers (fill c) = layers c) →
  keeps layers (λ c, (lookup_outcome (cache c) n, fill c)).
Proof. intros Hf c. apply Hf. Qed.

Lemma fill_layers c :
  layers (fill_domains c) = layers c
  ∧ layers (fill_maptypes c) = layers c
  ∧ layers (fill_variables c) = layers c
  ∧ layers (fill_schedules c) = layers c.
Proof.
  unfold fill_domains, fill_maptypes, fill_variables, fill_schedules.
  repeat split; by case_match.
Qed.

Lemma build_url_layers d v h mt : keeps layers (build_url d v h mt).
Proof.
  unfold build_url. apply keeps_bind.
  { intros c. unfold final. rewrite get_domain_code_run. apply fill_layers. }
  intros dc. apply keeps_bind.
  { destruct mt as [m|]; [|done]. intros c. unfold final.
    rewrite get_maptype_code_run. apply fill_layers. }
  intros mc. apply keeps_bind; [|done].
  intros c. unfold final. rewrite get_variable_code_run. apply fill_layers.
Qed.

Lemma mkdir_walk_layers full rest : ∀ pre,
  keeps (λ e, layers (config e)) (mkdir_walk full pre rest).
Proof.
  intros pre e. unfold final.
  destruct (mkdir_walk full pre rest e) as [r e'] eqn:Hmk. simpl.
  destruct (mkdir_walk_frame _ _ _ _ _ _ Hmk) as (-> & _). done.
Qed.

Lemma download_layer_layers layer out :
  keeps (λ e, layers (config e)) (download_layer layer out).
Proof.
  unfold download_layer. apply keeps_bind.
  { intros e. unfold final, on_config, zoom.
    rewrite get_forecast_hours_run. simpl. apply fill_layers. }
  intros hs. apply keeps_for_each. intros h.
  unfold download_hour. apply keeps_bind; [done|]. intros [|]; [done|].
  apply keeps_bind; [apply mkdir_walk_layers|]. intros _.
  apply keeps_bind.
  { intros e. unfold final, on_config, zoom.
    pose proof (build_url_layers (domain layer) (variable layer) h
                  (Some (maptype layer)) (config e)) as Hl.
    unfold final in Hl. by destruct (build_url _ _ _ _ (config e)). }
  intros url. apply keeps_bind.
  { intros e. unfold final, client_get, bind, get_state, put_state.
    by destruct (remote e url). }
  intros r. apply keeps_bind.
  { intros e. unfold final, raise_for_status. by destruct (is_success r). }
  intros _ e. unfold final, write_bytes, bind, get_state.
  repeat case_match; done.
Qed.

Lemma main_unfold out c :
  main out c = for_each (imap pair (layers (config (env c)))) (main_body out) c.
Proof. reflexivity. Qed.

Lemma main_body_run out il c :
  main_body out il c
  = (result (download_layer il.2 out) (env c),
     {| env := final (download_layer il.2 out) (env c);
        stdout := stdout c
          ++ [progress_line il.1 (length (layers (config (env c))))] |}).
Proof.
  unfold main_body, bind, get_state, echo, modify, on_env, zoom, result,
    final, set_env. simpl.
  by destruct (download_layer il.2 out (env c)) as [[[]|x] e1].
Qed.

(** The loop of [main] from layer number [i] on, [n] being the number of
    layers it prints: it echoes a line for each layer it starts, and what it
    does to the environment is what the layers do one after the other. *)
Lemma main_loop_run out n : ∀ (ls : list LayerConfig) (i : nat)
    (c : Console) r c',
  length (layers (config (env c))) = n →
  for_each (imap (λ j, pair (i + j)%nat) ls) (main_body out) c = (r, c') →
  ∃ k, (k ≤ length ls)%nat
    ∧ stdout c' = stdout c ++ ((λ j, progress_line j n) <$> seq i k)
    ∧ download_all ls out (env c) = (r, env c')
    ∧ (r = Returns tt → k = length ls)
    ∧ (∀ x, r = Raises x →
         (0 < k)%nat
         ∧ result (download_all (take (k - 1) ls) out) (env c) = Returns tt
         ∧ result (download_all (take k ls) out) (env c) = Raises x).
Proof.
  intros ls. induction ls as [|l ls IH]; intros i c r c' Hn.
  - intros [= <- <-]. exists 0%nat. simpl. rewrite app_nil_r.
    by repeat split.
  - unfold download_all in *. simpl imap. rewrite !for_each_cons.
    rewrite main_body_run. simpl fst. simpl snd. rewrite Hn.
    pose proof (download_layer_layers l out (env c)) as Hlay.
    unfold result, final in *.
    destruct (download_layer l out (env c)) as [[[]|x] e1] eqn:Hrun;
      simpl in *.
    + assert (imap ((λ j : nat, pair (i + j)%nat) ∘ S) ls
              = imap (λ j : nat, pair (S i + j)%nat) ls) as ->
        by (apply imap_ext; intros; simpl; f_equal; lia).
      intros Hloop.
      apply IH in Hloop; [|exact (eq_trans (f_equal length Hlay) Hn)].
      destruct Hloop as (k & Hk & Hout & Hrun' & Hret & Hraise). simpl in *.
      exists (S k). split; [lia|]. split; [|split; [|split]].
      * rewrite Hout, <-app_assoc. simpl. by rewrite Nat.add_0_r.
      * done.
      * intros H. f_equal. by apply Hret.
      * intros x Hx. destruct (Hraise x Hx) as (Hpos & Hbefore & Hat).
        split; [lia|]. replace (S k - 1)%nat with k by lia. split.
        -- destruct k as [|k]; [lia|].
           change (take (S k) (l :: ls)) with (l :: take k ls).
           rewrite for_each_cons, Hrun.
           replace (S k - 1)%nat with k in Hbefore by lia. exact Hbefore.
        -- change (take (S k) (l :: ls)) with (l :: take k ls).
           rewrite for_each_cons, Hrun. exact Hat.
    + intros [= <- <-]. exists 1%nat. split; [simpl; lia|].
      split; [simpl; by rewrite Nat.add_0_r|].
      split; [done|]. split; [done|].
      intros x' [= <-]. split; [lia|]. split; [done|].
      change (take 1 (l :: ls)) with (l :: take 0 ls).
      by rewrite for_each_cons, Hrun.
Qed.

Lemma main_run out c :
  ∃ k, (k ≤ length (layers (config (env c))))%nat
    ∧ stdout (final (main out) c)
      = stdout c
        ++ ((λ j, progress_line j (length (layers (config (env c)))))
              <$> seq 0 k)
    ∧ download_all (layers (config (env c))) out (env c)
      = (result (main out) c, env (final (main out) c))
    ∧ (result (main out) c = Returns tt →
       k = length (layers (config (env c))))
    ∧ (∀ x, result (main out) c = Raises x →
         (0 < k)%nat
         ∧ result (download_all (take (k - 1) (layers (config (env c)))) out)
             (env c) = Returns tt
         ∧ result (download_all (take k (layers (config (env c)))) out)
             (env c) = Raises x).
Proof.
  unfold result at 1 2 3, final. rewrite main_unfold.
  destruct (for_each _ (main_body out) c) as [r c'] eqn:Hloop. simpl.
  by apply (main_loop_run out _ _ 0%nat c r c' eq_refl).
Qed.

(** X11: [main] echoes one progress line, numbered from 1, for each layer it
    starts and stops at the first layer that raises, with that layer's
    error: the layers before it have all returned, and no later layer is
    announced or run. When [main] returns every layer was announced. *)
Theorem main_announces_and_stops (c : Console) (out : Path) :
  let ls := layers (config (env c)) in
  ∃ k, (k ≤ length ls)%nat
    ∧ stdout (final (main out) c)
      = stdout c ++ ((λ j, progress_line j (length ls)) <$> seq 0 k)
    ∧ env (final (main out) c) = final (download_all (take k ls) out) (env c)
    ∧ (result (main out) c = Returns tt → k = length ls)
    ∧ (∀ x, result (main out) c = Raises x →
         (0 < k)%nat
         ∧ result (download_all (take (k - 1) ls) out) (env c) = Returns tt
         ∧ result (download_all (take k ls) out) (env c) = Raises x).
Proof.
  intros ls. subst ls.
  destruct (main_run out c) as (k & Hk & Hout & Hall & Hret & Hraise).
  exists k. split; [done|]. split; [done|]. split; [|by split].
  set (ls := layers (config (env c))) in *.
  destruct (result (main out) c) as [[]|x] eqn:Hr.
  - rewrite (Hret eq_refl), firstn_all. unfold final. by rewrite Hall.
  - destruct (Hraise x eq_refl) as (_ & _ & Hat).
    clear Hret Hraise Hout. unfold final.
    (* the run over all layers stops where the run over the first [k] does *)
    assert (∀ l1 l2 e y, result (download_all l1 out) e = Raises y →
              download_all (l1 ++ l2) out e = download_all l1 out e) as Hstop.
    { unfold download_all, result. intros l1 l2.
      induction l1 as [|l l1 IH]; intros e y; [done|].
      simpl app. rewrite !for_each_cons.
      destruct (download_layer l out e) as [[[]|z] e1]; [|done].
      apply IH. }
    rewrite <-(take_drop k ls) in Hall.
    rewrite (Hstop _ _ _ _ Hat) in Hall. by rewrite Hall.
Qed.

Lemma run_keeps_refl e : run_keeps e e.
Proof. repeat split; auto. Qed.

Lemma run_keeps_trans e1 e2 e3 :
  run_keeps e1 e2 → run_keeps e2 e3 → run_keeps e1 e3.
Proof.
  intros (Ht1 & Hr1 & Hm1) (Ht2 & Hr2 & Hm2).
  split; [by etrans|]. split; [congruence|].
  intros q Hq. rewrite Hm2; [by apply Hm1|]. by rewrite Hm1.
Qed.

Lemma download_layer_frame layer out e r e' :
  download_layer layer out e = (r, e') → run_keeps e e'.
Proof.
  rewrite download_layer_run.
  assert (run_keeps e (set_config (fill_schedules (config e)) e)) as Hf0.
  { split; [apply fill_schedules_tables|]. split; auto. }
  destruct (lookup_outcome _ _) as [hs|x].
  - intros Hloop.
    destruct (hours_loop _ _ _ _ _ _ Hloop) as ((Ht & Hr & Hm & _) & _).
    by apply (run_keeps_trans _ _ _ Hf0).
  - by intros [= <- <-].
Qed.

Lemma all_present_frame layer out hs e e' :
  run_keeps e e' → all_present e layer out hs → all_present e' layer out hs.
Proof.
  intros (_ & _ & Hm) Hall h Hh. rewrite Hm; by apply Hall.
Qed.

Lemma resolves_tables c c' n hs :
  same_tables c c' →
  result (get_forecast_hours n) c = Returns hs →
  result (get_forecast_hours n) c' = Returns hs.
Proof.
  intros (_ & _ & _ & Hs). unfold result.
  rewrite !get_forecast_hours_run. simpl. by rewrite Hs.
Qed.

(** After the layers have all returned, every hour of every layer has its
    file. *)
Lemma download_all_complete out ls : ∀ e e',
  download_all ls out e = (Returns tt, e') →
  run_keeps e e'
  ∧ ∀ l, l ∈ ls →
      ∃ hs, result (get_forecast_hours (forecast_schedule l)) (config e')
            = Returns hs
            ∧ all_present e' l out hs.
Proof.
  unfold download_all.
  induction ls as [|l ls IH]; intros e e'.
  - intros [= <-]. split; [apply run_keeps_refl|]. by intros ? ?%elem_of_nil.
  - rewrite for_each_cons.
    destruct (download_layer l out e) as [[[]|x] e1] eqn:Hrun; [|done].
    intros Hrest. destruct (IH _ _ Hrest) as (Hf1 & Hls).
    pose proof (download_layer_frame _ _ _ _ _ Hrun) as Hf0.
    split; [by apply (run_keeps_trans _ e1)|].
    intros l' [->|Hl']%elem_of_cons; [|by apply Hls].
    destruct (download_layer_resolves l out e) as [hs Hhs].
    { unfold result. by rewrite Hrun. }
    destruct (download_layer_effects _ _ _ _ _ _ Hhs Hrun)
      as (_ & _ & _ & Hall).
    exists hs. split.
    + apply (resolves_tables (config e)); [|done].
      etrans; [apply Hf0|apply Hf1].
    + apply (all_present_frame _ _ _ e1); [done|by apply Hall].
Qed.

(** With every file there, the layers are all skipped. *)
Lemma download_all_skipped out ls : ∀ e,
  (∀ l, l ∈ ls →
     ∃ hs, result (get_forecast_hours (forecast_schedule l)) (config e)
           = Returns hs
           ∧ all_present e l out hs) →
  ∃ e', download_all ls out e = (Returns tt, e')
        ∧ fs e' = fs e ∧ requests e' = requests e.
Proof.
  unfold download_all.
  induction ls as [|l ls IH]; intros e Hls; [by exists e|].
  rewrite for_each_cons.
  destruct (Hls l) as (hs & Hhs & Hall); [left|].
  rewrite (download_layer_all_present _ _ _ _ Hhs Hall).
  set (e1 := set_config (fill_schedules (config e)) e).
  destruct (IH e1) as (e' & Hrun & Hfs & Hreq).
  { intros l' Hl'. destruct (Hls l') as (hs' & Hhs' & Hall'); [by right|].
    exists hs'. split; [|done].
    apply (resolves_tables (config e)); [|done].
    apply fill_schedules_tables. }
  exists e'. by rewrite Hrun.
Qed.

(** X12: after [main] has returned, running it again returns, sends no
    request and changes nothing in the file system: every layer is
    skipped. *)
Theorem main_twice_fetches_nothing (c : Console) (out : Path) :
  result (main out) c = Returns tt →
  let c1 := final (main out) c in
  result (main out) c1 = Returns tt
  ∧ fs (env (final (main out) c1)) = fs (env c1)
  ∧ requests (env (final (main out) c1)) = requests (env c1).
Proof.
  intros Hret c1.
  destruct (main_run out c) as (_ & _ & _ & Hall & _).
  rewrite Hret in Hall. fold c1 in Hall.
  destruct (download_all_complete _ _ _ _ Hall) as (_ & Hls).
  assert (layers (config (env c1)) = layers (config (env c))) as Hlay.
  { pose proof (keeps_for_each (λ e, layers (config e))
                  (layers (config (env c)))
                  (λ layer, download_layer layer out)
                  (λ l, download_layer_layers l out) (env c)) as Hk.
    unfold final in Hk. unfold download_all in Hall.
    by rewrite Hall in Hk. }
  rewrite <-Hlay in Hls.
  destruct (download_all_skipped _ _ _ Hls) as (e2 & Hrun2 & Hfs & Hreq).
  destruct (main_run out c1) as (_ & _ & _ & Hall2 & _).
  rewrite Hrun2 in Hall2. injection Hall2 as <- <-. done.
Qed.

Lemma main_twice_fetches_nothing_witness :
  let c1 := final (main ["out"%string])
              {| env := example_env; stdout := [] |} in
  result (main ["out"%string]) c1 = Returns tt
  ∧ fs (env (final (main ["out"%string]) c1)) = fs (env c1)
  ∧ requests (env (final (main ["out"%string]) c1)) = requests (env c1).
Proof.
  apply (main_twice_fetches_nothing {| env := example_env; stdout := [] |}
           ["out"%string]).
  by vm_compute.
Defined.

Example main_example :
  let c' := final (main ["out"%string])
              {| env := example_env; stdout := [] |} in
  stdout c' = ["Downloading layer 1 of 1"%string]
  ∧ requests (env c')
    = ["https://a.atmos.washington.edu/wrfrt/data/timeindep/images_dz/mzvz.06.0000.gif"%string].
Proof. by vm_compute. Qed.

(** ** Further properties of the annotation store *)

Lemma od_get_del_ne {V} (k k' : string) (d : list (string * V)) :
  k ≠ k' → OD.get k' (OD.del k d) = OD.get k' d.
Proof.
  intros Hne. induction d as [|[k0 v0] d IH]; simpl; [done|].
  destruct (decide (k = k0)) as [->|Hk]; simpl.
  - by rewrite decide_False.
  - by rewrite IH.
Qed.

Lemma filter_all {A} (P : A → Prop) `{∀ x, Decision (P x)} (l : list A) :
  Forall P l → filter P l = l.
Proof.
  induction 1 as [|x l Hx Hl IH]; [done|].
  by rewrite filter_cons_True, IH.
Qed.

Lemma od_keys_del {V} (k : string) (d : list (string * V)) :
  OD.wf d → OD.keys (OD.del k d) = filter (λ k', k' ≠ k) (OD.keys d).
Proof.
  unfold OD.wf, OD.keys. induction d as [|[k0 v0] d IH]; csimpl; [done|].
  intros [Hk0 Hd]%NoDup_cons. destruct (decide (k = k0)) as [->|Hne].
  - rewrite filter_cons_False by (by intros ?).
    symmetry. apply filter_all.
    apply Forall_forall. intros k' Hk' ->. done.
  - csimpl. rewrite filter_cons_True by done. by rewrite IH.
Qed.

(** X13: [add_geographic_point] stores the point under the key, replacing
    the point there was; the other points, the order of the keys and the
    annotations are as before, a new key coming last. *)
Theorem add_point_overwrites (s : AnnotationManager) (key nm : string)
    (lat lon : pyval) :
  let s' := final (add_geographic_point key nm lat lon) s in
  result (add_geographic_point key nm lat lon) s = Returns tt
  ∧ OD.get key (geographic_points s')
    = Some [("name", PyStr nm); ("latitude", lat); ("longitude", lon)]%string
  ∧ (∀ k, k ≠ key →
       OD.get k (geographic_points s') = OD.get k (geographic_points s))
  ∧ OD.keys (geographic_points s')
    = (if OD.mem key (geographic_points s)
       then OD.keys (geographic_points s)
       else OD.keys (geographic_points s) ++ [key])
  ∧ (OD.wf (geographic_points s) → OD.wf (geographic_points s'))
  ∧ annotations s' = annotations s.
Proof.
  intros s'. subst s'. unfold result, final. simpl.
  split; [done|]. split; [apply od_get_set_eq|].
  split; [intros k Hk; by apply od_get_set_ne|].
  split; [apply od_keys_set|]. split; [apply od_wf_set|done].
Qed.

(** X14: [update_geographic_point] does what [add_geographic_point] does
    when the key is there, and with the key absent it creates nothing: the
    key is still absent afterwards. *)
Theorem update_point_never_creates (s : AnnotationManager) (key nm : string)
    (lat lon : pyval) :
  (OD.mem key (geographic_points s) = true →
     update_geographic_point key nm lat lon s
     = add_geographic_point key nm lat lon s)
  ∧ (OD.mem key (geographic_points s) = false →
     OD.get key
       (geographic_points (final (update_geographic_point key nm lat lon) s))
     = None).
Proof.
  unfold update_geographic_point, add_geographic_point, final, bind,
    get_state, OD.mem.
  destruct (OD.get key (geographic_points s)) eqn:Hg;
    split; intros Hm; try discriminate Hm; simpl; done.
Qed.

Lemma update_point_never_creates_witness :
  update_geographic_point "p" "P2" (PyFloat 1 0) (PyFloat 2 0) example_manager
  = add_geographic_point "p" "P2" (PyFloat 1 0) (PyFloat 2 0) example_manager
  ∧ OD.get "q"
      (geographic_points
         (final (update_geographic_point "q" "Q" PyNone PyNone)
            example_manager))
    = None.
Proof.
  pose proof (update_point_never_creates example_manager "p" "P2"
                (PyFloat 1 0) (PyFloat 2 0)) as [Hp _].
  pose proof (update_point_never_creates example_manager "q" "Q"
                PyNone PyNone) as [_ Hq].
  split; [by apply Hp|by apply Hq].
Defined.

(** X15: [remove_geographic_point] removes the key and nothing else: the
    key is absent afterwards, every other point is as it was, and the
    remaining keys keep their order. *)
Theorem remove_point_removes_only_it (s : AnnotationManager) (key : string) :
  OD.wf (geographic_points s) →
  let s' := final (remove_geographic_point key) s in
  OD.get key (geographic_points s') = None
  ∧ (∀ k, k ≠ key →
       OD.get k (geographic_points s') = OD.get k (geographic_points s))
  ∧ OD.keys (geographic_points s')
    = filter (λ k, k ≠ key) (OD.keys (geographic_points s))
  ∧ OD.wf (geographic_points s').
Proof.
  intros Hwf s'. subst s'.
  unfold final, remove_geographic_point, bind, get_state, OD.mem.
  destruct (OD.get key (geographic_points s)) eqn:Hg; simpl.
  - split; [by apply od_get_del|].
    split; [intros k Hk; by apply od_get_del_ne|].
    split; [by apply od_keys_del|].
    unfold OD.wf. rewrite od_keys_del by done. by apply NoDup_filter.
  - split; [done|]. split; [done|]. split; [|done].
    symmetry. apply filter_all, Forall_forall.
    intros k Hk ->. by apply od_get_None in Hg.
Qed.

Lemma remove_point_removes_only_it_witness :
  OD.get "p"
    (geographic_points (final (remove_geographic_point "p") example_manager))
  = None.
Proof.
  apply (remove_point_removes_only_it example_manager "p").
  apply (bool_decide_unpack _). vm_compute. exact I.
Defined.

(** X16: [get_annotations] after [set_annotations] returns the list that
    was set; every other list, and the points, are as before; a domain or
    image never written reads as the empty list; and the annotations dict
    stays a dict of dicts. *)
Theorem set_then_get_annotations (s : AnnotationManager) (d i : string)
    (l : list pydict) :
  let s' := final (set_annotations d i l) s in
  result (set_annotations d i l) s = Returns tt
  ∧ get_annotations d i s' = (Returns l, s')
  ∧ (∀ d' i', (d', i') ≠ (d, i) →
       get_annotations d' i' s'
       = (Returns (annotations_at d' i' (annotations s)), s'))
  ∧ (∀ d' i', OD.get d' (annotations s) = None →
       get_annotations d' i' s = (Returns [], s))
  ∧ (∀ d' i' imgs, OD.get d' (annotations s) = Some imgs →
       OD.get i' imgs = None → get_annotations d' i' s = (Returns [], s))
  ∧ geographic_points s' = geographic_points s
  ∧ (store_wf (annotations s) → store_wf (annotations s')).
Proof.
  intros s'. subst s'. unfold result, final, get_annotations, gets.
  rewrite set_annotations_run. simpl.
  split; [done|]. split; [by rewrite annotations_at_store_set|].
  split; [|split; [|split; [|split; [done|apply store_set_wf]]]].
  - intros d' i' Hne. rewrite annotations_at_store_set_ne; [done|].
    by intros [= -> ->].
  - intros d' i' Hd. unfold annotations_at. by rewrite Hd.
  - intros d' i' imgs Hd Hi. unfold annotations_at. rewrite Hd. simpl.
    by rewrite Hi.
Qed.

(** X17: [add_annotation] returns and puts the annotation last in the list
    of its domain and image: it gets the index that was the length of the
    list, the annotations there were keep their indices, and
    [get_annotations] then returns the longer list; this also for a domain or
    an image that was not there. The points are as before. (What happens to
    a list under another key is not stated: a list is modelled by its
    contents, and the code changes the stored list object itself.) *)
Theorem add_annotation_appends (s : AnnotationManager) (d i : string)
    (ann : pydict) :
  let old := annotations_at d i (annotations s) in
  let s' := final (add_annotation d i ann) s in
  let new := annotations_at d i (annotations s') in
  result (add_annotation d i ann) s = Returns tt
  ∧ new = old ++ [ann]
  ∧ new !! length old = Some ann
  ∧ (∀ j a, old !! j = Some a → new !! j = Some a)
  ∧ get_annotations d i s' = (Returns (old ++ [ann]), s')
  ∧ geographic_points s' = geographic_points s.
Proof.
  intros old s' new. subst old s' new. unfold final, result.
  rewrite add_annotation_run, set_annotations_run. simpl.
  rewrite annotations_at_store_set.
  split; [done|]. split; [done|]. split; [by apply list_lookup_middle|].
  split; [intros j a Hj; by apply lookup_app_l_Some|].
  split; [|done].
  unfold get_annotations, gets. simpl. by rewrite annotations_at_store_set.
Qed.

(** X18: removing at an index in range shortens the list of that domain
    and image by one and moves every later annotation down by one index,
    the earlier ones staying; so a second removal at the same index removes
    the annotation that was next. The points are as before. (What happens
    to a list under another key is not stated: a list is modelled by its
    contents, and the code changes the stored list object itself.) *)
Theorem remove_shifts_later_annotations (s : AnnotationManager)
    (d i : string) (k : Z) :
  let old := annotations_at d i (annotations s) in
  0 ≤ k < Z.of_nat (length old) →
  let s' := final (remove_annotation d i k) s in
  let new := annotations_at d i (annotations s') in
  length new = (length old - 1)%nat
  ∧ (∀ j, (j < Z.to_nat k)%nat → new !! j = old !! j)
  ∧ (∀ j, (Z.to_nat k ≤ j)%nat → new !! j = old !! S j)
  ∧ geographic_points s' = geographic_points s
  ∧ (k + 1 < Z.of_nat (length old) →
     annotations_at d i (annotations (final (remove_annotation d i k) s'))
     = take (Z.to_nat k) old ++ drop (S (S (Z.to_nat k))) old).
Proof.
  intros old Hk s' new. subst s' new. unfold final.
  rewrite remove_annotation_in_range by done.
  rewrite set_annotations_run. simpl. rewrite annotations_at_store_set.
  fold old.
  split; [rewrite length_delete; [done|apply lookup_lt_is_Some; lia]|].
  split; [intros j Hj; by apply list_lookup_delete_lt|].
  split; [intros j Hj; by apply list_lookup_delete_ge|].
  split; [done|].
  - intros Hk2.
    assert (length (delete (Z.to_nat k) old) = (length old - 1)%nat) as Hlen
      by (rewrite length_delete; [done|apply lookup_lt_is_Some; lia]).
    rewrite remove_annotation_in_range; simpl;
      rewrite ?annotations_at_store_set.
    2:{ unfold in_range. rewrite Hlen. lia. }
    rewrite set_annotations_run. simpl. rewrite annotations_at_store_set.
    rewrite !delete_take_drop.
    rewrite take_app_length' by (rewrite length_take; lia).
    rewrite drop_app_ge by (rewrite length_take; lia).
    rewrite length_take, drop_drop. f_equal. f_equal. lia.
Qed.

Lemma remove_shifts_later_annotations_witness :
  annotations_at "d" "i"
    (annotations (final (remove_annotation "d" "i" 0) example_manager))
    !! 0%nat
  = annotations_at "d" "i" (annotations example_manager) !! 1%nat.
Proof.
  apply (remove_shifts_later_annotations example_manager "d" "i" 0).
  - simpl. lia.
  - simpl. lia.
Defined.

Lemma call_returns_and_syncs c s :
  result (run_call c) s = Returns tt
  ∧ (writes_document (run_call c) s ∨ writes_nothing (run_call c) s).
Proof.
  destruct c as [k n lat lon|k n lat lon|k|d i l|d i a|d i k|d i k a]; simpl.
  - split; [done|by left].
  - unfold result, writes_document, writes_nothing, final,
      update_geographic_point, bind, get_state.
    destruct (OD.mem k (geographic_points s)); simpl; split; auto.
  - unfold result, writes_document, writes_nothing, final,
      remove_geographic_point, bind, get_state.
    destruct (OD.mem k (geographic_points s)); simpl; split; auto.
  - unfold result. rewrite set_annotations_run.
    split; [done|left; apply set_annotations_writes].
  - unfold result, writes_document, final.
    rewrite add_annotation_run, set_annotations_run. split; [done|by left].
  - destruct (decide (in_range k (annotations_at d i (annotations s))))
      as [Hk|Hk]; unfold result, writes_document, writes_nothing, final.
    + rewrite remove_annotation_in_range, set_annotations_run by done.
      split; [done|by left].
    + rewrite remove_annotation_out_of_range by done. split; [done|by right].
  - destruct (decide (in_range k (annotations_at d i (annotations s))))
      as [Hk|Hk]; unfold result, writes_document, writes_nothing, final.
    + rewrite update_annotation_in_range, set_annotations_run by done.
      split; [done|by left].
    + rewrite update_annotation_out_of_range by done. split; [done|by right].
Qed.

Lemma calls_return_and_sync s0 cs : ∀ s,
  synced s0 s →
  result (for_each cs run_call) s = Returns tt
  ∧ synced s0 (final (for_each cs run_call) s).
Proof.
  induction cs as [|c cs IH]; intros s Hs; [done|].
  unfold result, final. rewrite for_each_cons.
  destruct (call_returns_and_syncs c s) as [Hr Hw].
  unfold result in Hr.
  destruct (run_call c s) as [r s1] eqn:Hrun. simpl in Hr. subst r.
  apply IH. unfold synced.
  destruct Hw as [Hw|Hw].
  - unfold writes_document, final in Hw. rewrite Hrun in Hw. simpl in Hw.
    by rewrite Hw, last_snoc.
  - unfold writes_nothing in Hw. rewrite Hrun in Hw. by injection Hw as ->.
Qed.

(** The constructor gives a manager the methods work on exactly when no
    section of the file holds a value that is no mapping. *)
Lemma new_AnnotationManager_usable file :
  is_Some (usable (new_AnnotationManager file))
  ↔ ∀ data, file = Some (Some data) →
      yaml_domains data ≠ Some Unshaped
      ∧ yaml_geographic_points data ≠ Some Unshaped.
Proof.
  unfold new_AnnotationManager, final, load, usable.
  destruct file as [[[[[p|]|] [[a|]|]]|]|]; simpl; split;
    try (by intros _; eexists);
    try (by intros [? [=]]);
    try (by intros _ ? [= <-]);
    try (intros H; by destruct (H _ eq_refl)).
Qed.

(** X19: on a manager constructed from a file whose sections, where there
    are any, are mappings of the stored shape, no sequence of calls that
    change the store raises, and after any such sequence the file is up to
    date: a manager constructed from the file then has the annotations and
    the points the first manager has. *)
Theorem reopened_manager_sees_the_store (file : option (option YamlMapping))
    (s0 : AnnotationManager) (cs : list call) :
  usable (new_AnnotationManager file) = Some s0 →
  let s := final (for_each cs run_call) s0 in
  result (for_each cs run_call) s0 = Returns tt
  ∧ ∃ s1, usable (new_AnnotationManager (current_file file s)) = Some s1
      ∧ annotations s1 = annotations s
      ∧ geographic_points s1 = geographic_points s.
Proof.
  intros Hs0 s.
  assert (written s0 = []) as Hw0.
  { unfold usable in Hs0.
    destruct (loaded_annotations (new_AnnotationManager file)); [|done].
    destruct (loaded_points (new_AnnotationManager file)); [|done].
    by injection Hs0 as <-. }
  assert (synced s0 s0) as H0 by (unfold synced; by rewrite Hw0).
  destruct (calls_return_and_sync s0 cs _ H0) as [Hr Hs]. fold s in Hs.
  split; [done|]. unfold synced in Hs. unfold current_file.
  destruct (last (written s)) as [doc|].
  - eexists. split; [reflexivity|]. simpl. by rewrite <-Hs.
  - exists s0. split; [done|].
    unfold document_of in Hs. injection Hs as Hp Ha. by rewrite Hp, Ha.
Qed.

Lemma reopened_manager_sees_the_store_witness :
  let s := final (for_each [AddAnnotation "d" "i" []; RemovePoint "p"]
                    run_call) example_manager in
  ∃ s1, usable (new_AnnotationManager
                  (current_file (Some (Some (yaml_of (document_of
                                                        example_manager))))
                     s)) = Some s1
      ∧ annotations s1 = annotations s
      ∧ geographic_points s1 = geographic_points s.
Proof.
  apply (reopened_manager_sees_the_store
           (Some (Some (yaml_of (document_of example_manager))))
           example_manager
           [AddAnnotation "d" "i" []; RemovePoint "p"]).
  reflexivity.
Defined.

(** A section that is null is stored as it is: the constructor returns, and
    the attribute holds no mapping. *)
Example null_section_is_stored :
  result (load null_section_file)
    {| loaded_annotations := Shaped []; loaded_points := Shaped [] |}
    = Returns tt
  ∧ loaded_annotations (new_AnnotationManager null_section_file) = Unshaped
  ∧ usable (new_AnnotationManager null_section_file) = None.
Proof. done. Qed.

(** ** Listings of the data directory *)

Lemma children_elem f d nm n :
  (nm, n) ∈ children f d ↔ f !! (d ++ [nm]) = Some n.
Proof.
  unfold children. rewrite list_elem_of_omap. split.
  - intros ([p n'] & Hin & Hm). simpl in Hm.
    apply elem_of_map_to_list in Hin.
    destruct (last p) as [nm'|]; [|done].
    destruct (decide (p = d ++ [nm'])) as [->|]; [|done].
    by injection Hm as -> ->.
  - intros Hl. exists (d ++ [nm], n). split.
    + by apply elem_of_map_to_list.
    + simpl. rewrite last_snoc. by rewrite decide_True.
Qed.

Lemma children_names_NoDup f d : NoDup (children f d).*1.
Proof.
  unfold children.
  pose proof (NoDup_fst_map_to_list f) as Hnd.
  induction (map_to_list f) as [|[p n] l IH]; csimpl; [apply NoDup_nil_2|].
  csimpl in Hnd. apply NoDup_cons in Hnd as [Hp Hl].
  destruct (last p) as [nm|] eqn:Hlast; [|by apply IH].
  destruct (decide (p = d ++ [nm])) as [->|]; [|by apply IH].
  csimpl. apply NoDup_cons. split; [|by apply IH].
  intros ([nm' n'] & Heq & Hin)%list_elem_of_fmap. simpl in Heq. subst nm'.
  apply list_elem_of_omap in Hin as ([p' n''] & Hin & Hm). simpl in Hm.
  destruct (last p') as [nm''|]; [|done].
  destruct (decide (p' = d ++ [nm''])) as [->|]; [|done].
  injection Hm as -> ->.
  apply Hp. apply list_elem_of_fmap. by exists (d ++ [nm], n').
Qed.

Global Instance string_le_total : Total string_le.
Proof. intros a b. apply String.leb_total. Qed.

Lemma py_sorted_Sorted l : Sorted string_le (py_sorted l).
Proof. apply Sorted_merge_sort. apply _. Qed.

Lemma py_sorted_elem l x : x ∈ py_sorted l ↔ x ∈ l.
Proof. unfold py_sorted. by rewrite merge_sort_Permutation. Qed.

Lemma py_sorted_NoDup l : NoDup l → NoDup (py_sorted l).
Proof. unfold py_sorted. by rewrite merge_sort_Permutation. Qed.

Lemma prefix_dot nm :
  String.prefix "." nm = true ↔ ∃ rest, nm = String "."%char rest.
Proof.
  destruct nm as [|c rest].
  - split; [done|by intros [? ?]].
  - change (String.prefix "." (String c rest))
      with (if Ascii.ascii_dec "." c then String.prefix "" rest else false).
    destruct (Ascii.ascii_dec "." c) as [<-|Hne].
    + split; [by exists rest|by destruct rest].
    + split; [intros H; discriminate H|]. intros [? [= ? ?]]. congruence.
Qed.

(** X20: [get_domains] returns, in sorted order and each once, the names
    of the subdirectories of the data directory that do not begin with a
    dot; it returns the empty list when the data directory is missing and
    raises when it is a file. The file system is only read. *)
Theorem get_domains_lists_visible_directories (f : gmap Path node)
    (data_dir : Path) :
  (node_at f data_dir = Some Directory →
     ∃ l, get_domains data_dir f = (Returns l, f)
          ∧ Sorted string_le l ∧ NoDup l
          ∧ ∀ nm, nm ∈ l ↔ f !! (data_dir ++ [nm]) = Some Directory
                            ∧ ¬ ∃ rest, nm = String "."%char rest)
  ∧ (node_at f data_dir = None → get_domains data_dir f = (Returns [], f))
  ∧ (∀ data, node_at f data_dir = Some (File data) →
       get_domains data_dir f = (Raises (NotADirectoryError data_dir), f)).
Proof.
  unfold get_domains, iterdir, bind, get_state, ret, raise.
  split; [|split].
  - intros Hd. rewrite Hd. rewrite bool_decide_eq_true_2 by (by eexists).
    rewrite Hd. eexists. split; [reflexivity|]. split; [apply py_sorted_Sorted|]. split.
    + apply py_sorted_NoDup.
      apply NoDup_fmap_fst.
      * intros nm n1 n2 H1%list_elem_of_filter H2%list_elem_of_filter.
        destruct H1 as [_ H1], H2 as [_ H2].
        apply children_elem in H1, H2. congruence.
      * apply NoDup_filter.
        apply (NoDup_fmap_1 fst), children_names_NoDup.
    + intros nm. rewrite py_sorted_elem, list_elem_of_fmap. split.
      * intros ([nm' n] & -> & [[Hdir Hdot] Hin]%list_elem_of_filter).
        simpl in *. apply children_elem in Hin.
        destruct n; [done|]. split; [done|].
        intros Hrest%prefix_dot. congruence.
      * intros [Hin Hdot]. exists (nm, Directory). split; [done|].
        apply list_elem_of_filter. split; [|by apply children_elem].
        simpl. split; [done|].
        destruct (String.prefix "." nm) eqn:Hp; [|done].
        by apply prefix_dot in Hp.
  - intros Hd. rewrite Hd. rewrite bool_decide_eq_false_2 by (by intros [? ?]).
    done.
  - intros data Hd. rewrite Hd.
    rewrite bool_decide_eq_true_2 by (by eexists). by rewrite Hd.
Qed.

Lemma get_domains_lists_visible_directories_witness :
  ∃ l, get_domains ["data"%string] example_data = (Returns l, example_data)
       ∧ Sorted string_le l ∧ NoDup l
       ∧ ∀ nm, nm ∈ l ↔ example_data !! (["data"%string] ++ [nm])
                          = Some Directory
                          ∧ ¬ ∃ rest, nm = String "."%char rest.
Proof.
  apply (get_domains_lists_visible_directories example_data ["data"%string]).
  reflexivity.
Defined.

Example get_domains_example :
  result (get_domains ["data"%string]) example_data
  = Returns ["d01"; "d02"]%string.
Proof. reflexivity. Qed.

(** ** Patterns of image names *)

Lemma fnmatch_star pat s :
  fnmatch (String "*" pat) s
  = fnmatch pat s
    || match s with
       | EmptyString => false
       | String _ s' => fnmatch (String "*" pat) s'
       end.
Proof. by destruct s. Qed.

Lemma fnmatch_cons_literal c pat s :
  Ascii.eqb c "*" = false → Ascii.eqb c "?" = false →
  fnmatch (String c pat) s
  = match s with
    | EmptyString => false
    | String c' s' => Ascii.eqb c c' && fnmatch pat s'
    end.
Proof.
  destruct c as [[] [] [] [] [] [] [] []]; intros H1 H2;
    first [discriminate H1 | discriminate H2 | reflexivity].
Qed.

Lemma fnmatch_literal pat s :
  literal pat = true → fnmatch pat s = true ↔ s = pat.
Proof.
  revert s. induction pat as [|c pat IH]; intros s Hlit.
  - destruct s; simpl; split; done.
  - simpl in Hlit. apply andb_prop in Hlit as [Hc Hlit].
    apply andb_prop in Hc as [H1 H2].
    apply negb_true_iff in H1, H2.
    rewrite fnmatch_cons_literal by done.
    destruct s as [|c' s]; [split; done|].
    rewrite andb_true_iff, IH, Ascii.eqb_eq by done.
    split; [by intros [-> ->]|by intros [= -> ->]].
Qed.

Lemma fnmatch_suffix lit s :
  literal lit = true →
  fnmatch (String "*" lit) s = true ↔ ∃ stem, s = stem +:+ lit.
Proof.
  intros Hlit. induction s as [|a s IH]; rewrite fnmatch_star.
  - rewrite orb_false_r, fnmatch_literal by done. split.
    + intros <-. by exists ""%string.
    + intros [[|??] Hs]; [done|discriminate Hs].
  - rewrite orb_true_iff, fnmatch_literal, IH by done. split.
    + intros [<-|[stem ->]]; [by exists ""%string|by exists (String a stem)].
    + intros [[|a' stem] Hs]; [by left|].
      injection Hs as -> ->. right. by exists stem.
Qed.

Lemma string_app_same_length (a a' b b' : string) :
  String.length b = String.length b' → a +:+ b = a' +:+ b' → b = b'.
Proof.
  intros Hlen. revert a'. induction a as [|c a IH]; intros [|c' a'] H;
    simpl in *.
  - done.
  - apply (f_equal String.length) in H. simpl in H.
    rewrite ?string_app_length in H. simpl in H. lia.
  - apply (f_equal String.length) in H. simpl in H.
    rewrite ?string_app_length in H. simpl in H. lia.
  - injection H as _ H. by apply (IH a').
Qed.

Lemma string_app_assoc (a b c : string) : (a +:+ b) +:+ c = a +:+ (b +:+ c).
Proof.
  induction a as [|x a IH]; [done|].
  change (String x ((a +:+ b) +:+ c) = String x (a +:+ (b +:+ c))).
  by rewrite IH.
Qed.

Lemma image_suffix_unique suf suf' stem stem' :
  suf ∈ image_suffixes → suf' ∈ image_suffixes →
  stem +:+ suf = stem' +:+ suf' → suf = suf'.
Proof.
  unfold image_suffixes. intros Hs Hs' Heq.
  repeat (apply elem_of_cons in Hs as [->|Hs]);
    try (by apply elem_of_nil in Hs);
    repeat (apply elem_of_cons in Hs' as [->|Hs']);
    try (by apply elem_of_nil in Hs');
    try reflexivity; exfalso.
  all: first
    [ by apply string_app_same_length in Heq
    | change ".jpeg"%string with ("." +:+ "jpeg")%string in Heq;
      rewrite <-string_app_assoc in Heq;
      by apply string_app_same_length in Heq ].
Qed.

Lemma image_suffix_literal suf :
  suf ∈ image_suffixes → literal suf = true.
Proof.
  unfold image_suffixes. intros Hs.
  repeat (apply elem_of_cons in Hs as [->|Hs]); try reflexivity.
  by apply elem_of_nil in Hs.
Qed.

Lemma glob_elem f p pat nm :
  nm ∈ (glob f p pat).*1
  ↔ node_at f p = Some Directory ∧ is_Some (f !! (p ++ [nm]))
    ∧ fnmatch pat nm = true.
Proof.
  unfold glob. rewrite list_elem_of_fmap.
  destruct (node_at f p) as [[|]|].
  1,3: split; [intros (? & _ & []%elem_of_nil)|by intros [? _]].
  split.
  - intros ([nm' n] & -> & [Hm Hin]%list_elem_of_filter). simpl in *.
    apply children_elem in Hin. by rewrite Hin.
  - intros (_ & [n Hn] & Hm). exists (nm, n). split; [done|].
    apply list_elem_of_filter. split; [done|]. by apply children_elem.
Qed.

Lemma glob_names_NoDup f p pat : NoDup (glob f p pat).*1.
Proof.
  unfold glob. destruct (node_at f p) as [[|]|]; try apply NoDup_nil_2.
  pose proof (children_names_NoDup f p) as Hnd.
  induction (children f p) as [|[nm n] l IH]; [apply NoDup_nil_2|].
  csimpl in Hnd. apply NoDup_cons in Hnd as [Hnm Hl].
  rewrite filter_cons. destruct (decide _); [|by apply IH].
  csimpl. apply NoDup_cons. split; [|by apply IH].
  intros ([nm' n'] & Heq & [_ Hin]%list_elem_of_filter)%list_elem_of_fmap.
  simpl in Heq. subst nm'. apply Hnm. apply list_elem_of_fmap.
  by exists (nm, n').
Qed.

Ltac listed := apply (bool_decide_unpack _); vm_compute; exact I.

(** X21: [get_images] never raises and only reads the file system. It
    returns, in sorted order and each once, the names of the entries of the
    directory [data_dir / domain] that end in one of [.gif], [.png],
    [.jpg], [.jpeg]; the list is empty when that path is missing or is a
    file. The path is taken to have no part [..]. *)
Theorem get_images_lists_image_names (f : gmap Path node) (data_dir : Path)
    (domain' : string) :
  ".."%string ∉ (data_dir / domain')%path →
  let dir := (data_dir / domain')%path in
  ∃ l, get_images data_dir domain' f = (Returns l, f)
       ∧ Sorted string_le l ∧ NoDup l
       ∧ ∀ nm, nm ∈ l ↔
           node_at f dir = Some Directory
           ∧ is_Some (f !! (dir ++ [nm]))
           ∧ ∃ stem suf, suf ∈ image_suffixes ∧ nm = stem +:+ suf.
Proof.
  intros _ dir.
  unfold get_images, bind, get_state, ret. fold dir.
  eexists. split; [reflexivity|].
  split; [apply py_sorted_Sorted|]. split.
  - apply py_sorted_NoDup. destruct (bool_decide _); [|apply NoDup_nil_2].
    apply NoDup_bind.
    + intros p1 p2 nm Hp1 Hp2 (_ & _ & H1)%glob_elem (_ & _ & H2)%glob_elem.
      assert (∀ p, p ∈ ["*.gif"; "*.png"; "*.jpg"; "*.jpeg"]%string →
                ∃ suf, p = String "*" suf ∧ suf ∈ image_suffixes) as Hpat.
      { intros p Hp. unfold image_suffixes.
        repeat (apply elem_of_cons in Hp as [->|Hp]);
          [eexists; split; [reflexivity|listed]..|].
        by apply elem_of_nil in Hp. }
      destruct (Hpat p1 Hp1) as (s1 & -> & Hs1).
      destruct (Hpat p2 Hp2) as (s2 & -> & Hs2).
      apply fnmatch_suffix in H1 as [stem1 ->];
        [|by apply image_suffix_literal].
      apply fnmatch_suffix in H2 as [stem2 H2];
        [|by apply image_suffix_literal].
      f_equal. by apply (image_suffix_unique s1 s2 stem1 stem2).
    + intros p _. apply glob_names_NoDup.
    + listed.
  - intros nm. rewrite py_sorted_elem. split.
    + destruct (bool_decide _); [|by intros []%elem_of_nil].
      intros (p & Hin & Hp)%list_elem_of_bind.
      apply glob_elem in Hin as (Hd & Hnm & Hm).
      split; [done|]. split; [done|].
      unfold image_suffixes.
      repeat (apply elem_of_cons in Hp as [->|Hp]);
        try (by apply elem_of_nil in Hp).
      all: apply fnmatch_suffix in Hm as [stem ->]; [|done].
      all: eexists _, _; split; [|reflexivity]; listed.
    + intros (Hd & Hnm & stem & suf & Hsuf & ->).
      rewrite bool_decide_eq_true_2 by (by rewrite Hd).
      apply list_elem_of_bind. exists (String "*" suf). split.
      * apply glob_elem. split; [done|]. split; [done|].
        apply fnmatch_suffix; [by apply image_suffix_literal|by exists stem].
      * unfold image_suffixes in Hsuf.
        repeat (apply elem_of_cons in Hsuf as [->|Hsuf]);
          [listed..|by apply elem_of_nil in Hsuf].
Qed.

Lemma get_images_lists_image_names_witness :
  ∃ l, get_images ["data"%string] "d01" example_data
       = (Returns l, example_data)
       ∧ Sorted string_le l ∧ NoDup l
       ∧ ∀ nm, nm ∈ l ↔
           node_at example_data (["data"%string] / "d01")%path
             = Some Directory
           ∧ is_Some (example_data
                        !! ((["data"%string] / "d01")%path ++ [nm]))
           ∧ ∃ stem suf, suf ∈ image_suffixes ∧ nm = stem +:+ suf.
Proof.
  apply (get_images_lists_image_names example_data ["data"%string] "d01").
  listed.
Defined.

Example get_images_example :
  result (get_images ["data"%string] "d01") example_data
  = Returns ["a.png"; "b.gif"; "x.jpeg"]%string.
Proof. reflexivity. Qed.

Example get_images_of_a_file :
  result (get_images ["data"%string] "readme") example_data = Returns [].
Proof. reflexivity. Qed.

(** An empty domain name is the data directory itself. *)
Example get_images_of_the_empty_name :
  result (get_images ["data"%string] "")
    {[ ["data"%string] := Directory;
       ["data"; "top.gif"]%string := File [] ]}
  = Returns ["top.gif"%string].
Proof. reflexivity. Qed.
